(** * guesstimate: three-point estimation model and statistics

    A shallow embedding of the packages [internal/model] (task.go,
    estimation.go, config.go), [internal/stats] (estimation.go) and
    [internal/format] (the output built by json.go).

    Conventions of the embedding:
    - a Go [float64] is a real number of [R]: arithmetic is exact, and NaN,
      infinities and rounding error are outside the model.  What is decided
      by comparisons and by the structure of the code alone holds of the
      program as it runs; what depends on a computed sum, product or
      quotient is stated for exact real arithmetic.  The module [binary64]
      gives the same arithmetic on IEEE-754 binary64 numbers, to run the
      program at concrete inputs, where its rounding shows;
    - a Go [int] is an integer of [Z] wrapped to 64 bits by [wrap_int];
    - a Go [map] is a [gmap]. A [range] over a map visits its entries in an
      order the language leaves open, so a loop over a map is a fold over a
      list of entries [ranges_over] the map. Where the loop builds a slice,
      the function takes that list as an argument ([..._over]) and the
      theorems hold for every such list; where it only adds reals, the order
      is proved irrelevant and the function without suffix folds over
      [map_to_list];
    - [time.Now()] is an input [now] of the operation that reads the clock,
      and a generated identifier is an input of the constructor;
    - a method with a pointer receiver returns the updated receiver; the
      estimation owns its ordering slice and its tasks, no alias of them is
      kept elsewhere. *)

From Stdlib Require Import Reals Lra Lia ZArith.
From Stdlib Require Floats.PrimFloat Floats.SpecFloat Floats.FloatOps.
From stdpp Require Import gmap strings list fin_maps.

#[local] Set Warnings "-clear-no-such-hyp".
#[local] Set Warnings "-inexact-float".

(** ** float64 *)

Module F64.
Local Open Scope R_scope.

Abbreviation float64 := R (only parsing).

(** [math.Floor]: the greatest integer value not above [x]. *)
Definition Floor (x : float64) : float64 := IZR (Int_part x).

(** [math.Ceil]: the least integer value not below [x]. *)
Definition Ceil (x : float64) : float64 := IZR (- Int_part (- x)).

(** [math.Pow(x, 2)]. *)
Definition Pow2 (x : float64) : float64 := x ^ 2.

(** [math.Sqrt]. *)
Definition Sqrt (x : float64) : float64 := sqrt x.

#[export] Instance float64_eq_dec : EqDecision float64 := Req_dec_T.
#[export] Instance float64_lt_dec : RelDecision Rlt := Rlt_dec.
#[export] Instance float64_le_dec : RelDecision Rle := Rle_dec.
#[export] Instance float64_gt_dec : RelDecision Rgt := fun x y => Rlt_dec y x.
End F64.
Export F64.

(** ** Go int *)

Definition int_min : Z := - 2 ^ 63.
Definition int_max : Z := 2 ^ 63 - 1.

(** Two's complement wrap-around of a 64-bit signed addition. *)
Definition wrap_int (z : Z) : Z := (z + 2 ^ 63) mod 2 ^ 64 - 2 ^ 63.

Definition is_int (z : Z) : Prop := (int_min <= z <= int_max)%Z.

(** ** package model: task.go *)

Definition TaskID : Type := string.

Record Estimations : Type := mkEstimations {
  Optimistic : float64;
  Likely : float64;
  Pessimistic : float64
}.

Module Task.
Local Open Scope R_scope.

Record t : Type := mk {
  ID : TaskID;
  Label : string;
  Description : string;
  Category : string;
  Estimations : Estimations
}.

(** [NewTask]; the generated identifier is an input. *)
Definition NewTask (id : TaskID) (label category : string) : t :=
  {| ID := id; Label := label; Description := ""; Category := category;
     Estimations := {| Optimistic := 0; Likely := 0; Pessimistic := 0 |} |}.

Definition WeightedMean (t : t) : float64 :=
  (Optimistic (Estimations t) + 4 * Likely (Estimations t)
   + Pessimistic (Estimations t)) / 6.

Definition StandardDeviation (t : t) : float64 :=
  (Pessimistic (Estimations t) - Optimistic (Estimations t)) / 6.

(** [Validate]: the list of violations, in the order the checks are made. *)
Definition Validate (t : t) : list string :=
  let errors : list string := [] in
  let errors :=
    if decide (Optimistic (Estimations t) < 0)
    then errors ++ ["optimistic estimate must be >= 0"] else errors in
  let errors :=
    if decide (Likely (Estimations t) < 0)
    then errors ++ ["likely estimate must be >= 0"] else errors in
  let errors :=
    if decide (Pessimistic (Estimations t) < 0)
    then errors ++ ["pessimistic estimate must be >= 0"] else errors in
  let errors :=
    if decide (Likely (Estimations t) < Optimistic (Estimations t))
    then errors ++ ["likely estimate should be >= optimistic estimate"]
    else errors in
  let errors :=
    if decide (Pessimistic (Estimations t) < Likely (Estimations t))
    then errors ++ ["pessimistic estimate should be >= likely estimate"]
    else errors in
  errors.

(** The body of [SetEstimations] on its three locals [o], [l], [p]:
    first the chain of auto-fill cases, then the forward repair.  The sums
    and products are exact here; [binary64.Task.autofill] and
    [binary64.Task.propagate] round them as the program does. *)
Definition autofill (o l p multiplier : float64)
  : float64 * float64 * float64 :=
  if decide (o > 0 ∧ l = 0 ∧ p = 0) then
    let l := Ceil (o * (1 + multiplier)) in
    let p := Ceil (l * (1 + multiplier)) in
    (o, l, p)
  else if decide (l > 0 ∧ o = 0 ∧ p = 0) then
    let o := Floor (l * (1 - multiplier)) in
    let o := if decide (o < 0) then 0 else o in
    let p := Ceil (l * (1 + multiplier)) in
    (o, l, p)
  else if decide (p > 0 ∧ o = 0 ∧ l = 0) then
    let l := Floor (p * (1 - multiplier)) in
    let o := Floor (l * (1 - multiplier)) in
    let o := if decide (o < 0) then 0 else o in
    (o, l, p)
  else if decide (o > 0 ∧ l > 0 ∧ p = 0) then
    let p := Ceil (l * (1 + multiplier)) in
    (o, l, p)
  else if decide (o > 0 ∧ p > 0 ∧ l = 0) then
    let l := Ceil ((o + p) / 2) in
    let l := if decide (l < o) then o else l in
    let l := if decide (l > p) then p else l in
    (o, l, p)
  else if decide (l > 0 ∧ p > 0 ∧ o = 0) then
    let o := Floor (l * (1 - multiplier)) in
    let o := if decide (o < 0) then 0 else o in
    (o, l, p)
  else (o, l, p).

Definition propagate (o l p multiplier : float64)
  : float64 * float64 * float64 :=
  let l := if decide (l > 0 ∧ l <= o)
           then Ceil (o * (1 + multiplier)) else l in
  let p := if decide (p > 0 ∧ p <= l)
           then Ceil (l * (1 + multiplier)) else p in
  (o, l, p).

Definition SetEstimations (t : t)
    (optimistic likely pessimistic multiplier : float64) : Task.t :=
  let o := optimistic in
  let l := likely in
  let p := pessimistic in
  let '(o, l, p) := autofill o l p multiplier in
  let '(o, l, p) := propagate o l p multiplier in
  {| ID := ID t; Label := Label t; Description := Description t;
     Category := Category t;
     Estimations := {| Optimistic := o; Likely := l; Pessimistic := p |} |}.
End Task.

(** ** package model: config.go *)

Definition DefaultAutoEstimationMultiplier : float64 := 0.33%R.

Module TaskCategory.
Record t : Type := mk {
  ID : string;
  Label : string;
  CostPerTimeUnit : float64
}.
End TaskCategory.

Record TimeUnit : Type := mkTimeUnit {
  TimeUnit_Label : string;
  TimeUnit_Acronym : string
}.

Module Config.
Local Open Scope R_scope.

Record t : Type := mk {
  TaskCategories : gmap string TaskCategory.t;
  TimeUnit : TimeUnit;
  Currency : string;
  RoundUpEstimations : bool;
  AutoEstimationMultiplier : float64
}.

Definition GetAutoEstimationMultiplier (c : t) : float64 :=
  if decide (AutoEstimationMultiplier c <= 0)
  then DefaultAutoEstimationMultiplier
  else AutoEstimationMultiplier c.

Definition GetTaskCategory (c : t) (id : string) : TaskCategory.t :=
  match TaskCategories c !! id with
  | Some cat => cat
  | None =>
      {| TaskCategory.ID := id; TaskCategory.Label := id;
         TaskCategory.CostPerTimeUnit := 500 |}
  end.

(** [GetFirstCategoryID]: the key met first by the range over the
    categories, in the order [cats] of that range. *)
Definition GetFirstCategoryID_over (cats : list (string * TaskCategory.t))
  : string :=
  match cats with
  | (id, _) :: _ => id
  | [] => ""
  end.

Definition GetFirstCategoryID (c : t) : string :=
  GetFirstCategoryID_over (map_to_list (TaskCategories c)).

Definition DefaultConfig : t :=
  {| TaskCategories :=
       <["development" :=
           {| TaskCategory.ID := "development";
              TaskCategory.Label := "Development";
              TaskCategory.CostPerTimeUnit := 500 |}]>
       (<["project-management" :=
           {| TaskCategory.ID := "project-management";
              TaskCategory.Label := "Project Management";
              TaskCategory.CostPerTimeUnit := 500 |}]>
       (<["testing" :=
           {| TaskCategory.ID := "testing";
              TaskCategory.Label := "Testing";
              TaskCategory.CostPerTimeUnit := 500 |}]> ∅));
     TimeUnit := {| TimeUnit_Label := "man-day"; TimeUnit_Acronym := "md" |};
     Currency := "€ H.T.";
     RoundUpEstimations := true;
     AutoEstimationMultiplier := DefaultAutoEstimationMultiplier |}.
End Config.

(** ** package model: estimation.go *)

Definition EstimationID : Type := string.

(** A [time.Time] instant. *)
Definition Time : Type := Z.

Record EstimationParams : Type := mkEstimationParams {
  Params_TaskCategories : gmap string TaskCategory.t;
  Params_TimeUnit : option TimeUnit;
  Params_Currency : string;
  Params_RoundUpEstimations : option bool
}.

(** The loop [for i, taskID := range ordering { if taskID == id { ...; break } }]:
    the first index that holds [id], if any. *)
Fixpoint first_index (id : TaskID) (ordering : list TaskID) : option nat :=
  match ordering with
  | [] => None
  | taskID :: rest =>
      if decide (taskID = id) then Some 0%nat
      else S <$> first_index id rest
  end.

(** [append(s[:i], s[i+1:]...)]. *)
Definition cut_at (i : nat) (s : list TaskID) : list TaskID :=
  take i s ++ drop (S i) s.

(** [append(s[:i], append([]TaskID{id}, s[i:]...)...)]. *)
Definition insert_at (i : nat) (id : TaskID) (s : list TaskID) : list TaskID :=
  take i s ++ ([id] ++ drop i s).

Module Estimation.
Local Open Scope Z_scope.

Record t : Type := mk {
  ID : EstimationID;
  Label : string;
  Description : string;
  CreatedAt : Time;
  UpdatedAt : Time;
  Ordering : list TaskID;
  Tasks : gmap TaskID Task.t;
  Params : option EstimationParams
}.

(** [NewEstimation]; the generated identifier and the clock are inputs. *)
Definition NewEstimation (id : EstimationID) (now : Time) (label : string) : t :=
  {| ID := id; Label := label; Description := "";
     CreatedAt := now; UpdatedAt := now;
     Ordering := []; Tasks := ∅; Params := None |}.

Definition AddTask (now : Time) (task : Task.t) (e : t) : t :=
  {| ID := ID e; Label := Label e; Description := Description e;
     CreatedAt := CreatedAt e;
     UpdatedAt := now;
     Ordering := Ordering e ++ [Task.ID task];
     Tasks := <[Task.ID task := task]> (Tasks e);
     Params := Params e |}.

Definition RemoveTask (now : Time) (id : TaskID) (e : t) : t :=
  let tasks := delete id (Tasks e) in
  let ordering :=
    match first_index id (Ordering e) with
    | Some i => cut_at i (Ordering e)
    | None => Ordering e
    end in
  {| ID := ID e; Label := Label e; Description := Description e;
     CreatedAt := CreatedAt e;
     UpdatedAt := now;
     Ordering := ordering;
     Tasks := tasks;
     Params := Params e |}.

Definition MoveTask (now : Time) (id : TaskID) (offset : Z) (e : t) : bool * t :=
  let currentIndex : Z :=
    match first_index id (Ordering e) with
    | Some i => Z.of_nat i
    | None => -1
    end in
  if decide (currentIndex = -1) then (false, e)
  else
    let newIndex := wrap_int (currentIndex + offset) in
    if decide (newIndex < 0 ∨ newIndex >= Z.of_nat (length (Ordering e)))
    then (false, e)
    else
      let ordering := cut_at (Z.to_nat currentIndex) (Ordering e) in
      let ordering := insert_at (Z.to_nat newIndex) id ordering in
      (true,
       {| ID := ID e; Label := Label e; Description := Description e;
          CreatedAt := CreatedAt e;
          UpdatedAt := now;
          Ordering := ordering;
          Tasks := Tasks e;
          Params := Params e |}).

Definition GetOrderedTasks (e : t) : list Task.t :=
  omap (fun taskID => Tasks e !! taskID) (Ordering e).

Definition UpdateTask (now : Time) (task : Task.t) (e : t) : t :=
  match Tasks e !! Task.ID task with
  | Some _ =>
      {| ID := ID e; Label := Label e; Description := Description e;
         CreatedAt := CreatedAt e;
         UpdatedAt := now;
         Ordering := Ordering e;
         Tasks := <[Task.ID task := task]> (Tasks e);
         Params := Params e |}
  | None => e
  end.

(** One turn of the loop of [Validate]: the violations of one task, each
    prefixed with the identifier the task carries. *)
Definition Validate_step (errors : list string) (entry : TaskID * Task.t)
  : list string :=
  let task := entry.2 in
  let taskErrors := Task.Validate task in
  if decide (0 < length taskErrors)%nat then
    fold_left
      (fun errors err =>
         errors ++ [String.append "task "
                      (String.append (Task.ID task)
                         (String.append ": " err))])
      taskErrors errors
  else errors.

Definition Validate_over (tasks : list (TaskID * Task.t)) : list string :=
  fold_left Validate_step tasks [].

Definition Validate (e : t) : list string :=
  Validate_over (map_to_list (Tasks e)).
End Estimation.

(** ** package stats: estimation.go *)

(** The entries a [range] over the map [m] may visit, in the order it visits
    them: any enumeration of the map. *)
Definition ranges_over {V : Type} (entries : list (string * V))
    (m : gmap string V) : Prop :=
  entries ≡ₚ map_to_list m.

Module stats.
Local Open Scope R_scope.

Record EstimationResult : Type := mkEstimationResult {
  WeightedMean : float64;
  StandardDeviation : float64
}.

Definition CalculateEstimation (task : Task.t) : EstimationResult :=
  {| WeightedMean := Task.WeightedMean task;
     StandardDeviation := Task.StandardDeviation task |}.

(** One turn of the loop of [CalculateProjectEstimation], on the two
    accumulators [totalMean] and [totalVariance]. *)
Definition project_step (acc : float64 * float64) (entry : TaskID * Task.t)
  : float64 * float64 :=
  let '(totalMean, totalVariance) := acc in
  let task := entry.2 in
  (totalMean + Task.WeightedMean task,
   totalVariance + Pow2 (Task.StandardDeviation task)).

Definition project_loop (tasks : list (TaskID * Task.t))
  : float64 * float64 :=
  fold_left project_step tasks (0, 0).

Definition CalculateProjectEstimation_over (tasks : list (TaskID * Task.t))
  : EstimationResult :=
  let '(totalMean, totalVariance) := project_loop tasks in
  {| WeightedMean := totalMean; StandardDeviation := Sqrt totalVariance |}.

Definition CalculateProjectEstimation (estimation : Estimation.t)
  : EstimationResult :=
  CalculateProjectEstimation_over (map_to_list (Estimation.Tasks estimation)).

(** One turn of the loop of [CalculateCategoryEstimation]. *)
Definition category_step (categoryID : string) (acc : float64 * float64)
    (entry : TaskID * Task.t) : float64 * float64 :=
  let '(totalMean, totalVariance) := acc in
  let task := entry.2 in
  if decide (Task.Category task = categoryID)
  then (totalMean + Task.WeightedMean task,
        totalVariance + Pow2 (Task.StandardDeviation task))
  else (totalMean, totalVariance).

Definition category_loop (categoryID : string) (tasks : list (TaskID * Task.t))
  : float64 * float64 :=
  fold_left (category_step categoryID) tasks (0, 0).

Definition CalculateCategoryEstimation_over (tasks : list (TaskID * Task.t))
    (categoryID : string) : EstimationResult :=
  let '(totalMean, totalVariance) := category_loop categoryID tasks in
  {| WeightedMean := totalMean; StandardDeviation := Sqrt totalVariance |}.

Definition CalculateCategoryEstimation (estimation : Estimation.t)
    (categoryID : string) : EstimationResult :=
  CalculateCategoryEstimation_over
    (map_to_list (Estimation.Tasks estimation)) categoryID.

Record CategoryDistribution : Type := mkCategoryDistribution {
  CategoryID : string;
  CategoryLabel : string;
  Time : float64;
  Percentage : float64
}.

(** [percentage := 0.0; if projectEst.WeightedMean > 0 { percentage = ... }]. *)
Definition percentage_of (catEst projectEst : EstimationResult) : float64 :=
  if decide (WeightedMean projectEst > 0)
  then (WeightedMean catEst / WeightedMean projectEst) * 100
  else 0.

(** [seenCategories[c]] on a [map[string]bool]: a missing key reads false. *)
Definition seen (seenCategories : gmap string bool) (c : string) : bool :=
  default false (seenCategories !! c).

(** One turn of the first loop of [CalculateCategoryDistribution], on
    [distributions] and [seenCategories]: an entry for a configured
    category. *)
Definition configured_step (estimation : Estimation.t)
    (projectEst : EstimationResult)
    (acc : list CategoryDistribution * gmap string bool)
    (entry : string * TaskCategory.t)
  : list CategoryDistribution * gmap string bool :=
  let '(distributions, seenCategories) := acc in
  let '(catID, cat) := entry in
  let catEst := CalculateCategoryEstimation estimation catID in
  let percentage := percentage_of catEst projectEst in
  (distributions ++
     [ {| CategoryID := catID;
          CategoryLabel := TaskCategory.Label cat;
          Time := WeightedMean catEst;
          Percentage := percentage |} ],
   <[catID := true]> seenCategories).

(** One turn of the second loop: an entry for the category of the task
    unless that category has been seen. *)
Definition unconfigured_step (estimation : Estimation.t) (config : Config.t)
    (projectEst : EstimationResult)
    (acc : list CategoryDistribution * gmap string bool)
    (entry : TaskID * Task.t)
  : list CategoryDistribution * gmap string bool :=
  let '(distributions, seenCategories) := acc in
  let task := entry.2 in
  if negb (seen seenCategories (Task.Category task)) then
    let catEst :=
      CalculateCategoryEstimation estimation (Task.Category task) in
    let percentage := percentage_of catEst projectEst in
    let cat := Config.GetTaskCategory config (Task.Category task) in
    (distributions ++
       [ {| CategoryID := Task.Category task;
            CategoryLabel := TaskCategory.Label cat;
            Time := WeightedMean catEst;
            Percentage := percentage |} ],
     <[Task.Category task := true]> seenCategories)
  else (distributions, seenCategories).

(** [CalculateCategoryDistribution], given the orders [cats] and [tasks] in
    which its two loops range over the configured categories and the tasks.
    The [nil] slice returned for a zero mean is the empty list. *)
Definition CalculateCategoryDistribution_over
    (cats : list (string * TaskCategory.t)) (tasks : list (TaskID * Task.t))
    (estimation : Estimation.t) (config : Config.t)
  : list CategoryDistribution :=
  let projectEst := CalculateProjectEstimation estimation in
  if decide (WeightedMean projectEst = 0) then []
  else
    let distributions : list CategoryDistribution := [] in
    let seenCategories : gmap string bool := ∅ in
    let acc :=
      fold_left (configured_step estimation projectEst) cats
                (distributions, seenCategories) in
    let acc :=
      fold_left (unconfigured_step estimation config projectEst) tasks acc in
    acc.1.

Definition CalculateCategoryDistribution (estimation : Estimation.t)
    (config : Config.t) : list CategoryDistribution :=
  CalculateCategoryDistribution_over
    (map_to_list (Config.TaskCategories config))
    (map_to_list (Estimation.Tasks estimation))
    estimation config.

Record ConfidenceLevel : Type := mkConfidenceLevel {
  Name : string;
  Multiplier : float64
}.

Definition Confidence68 : ConfidenceLevel :=
  {| Name := "68%"; Multiplier := 1 |}.
Definition Confidence90 : ConfidenceLevel :=
  {| Name := "90%"; Multiplier := 1.645 |}.
Definition Confidence997 : ConfidenceLevel :=
  {| Name := "99.7%"; Multiplier := 3 |}.

Module CategoryCost.
Record t : Type := mk {
  Time : float64;
  Cost : float64;
  CostPerUnit : float64
}.
End CategoryCost.

Record CostEstimation : Type := mkCostEstimation {
  TotalTime : float64;
  TotalCost : float64;
  Details : gmap string CategoryCost.t
}.

Record MinMaxCost : Type := mkMinMaxCost {
  Min : CostEstimation;
  Max : CostEstimation
}.

(** The cost details of the category of [dist] at the total time [time]. *)
Definition category_detail (config : Config.t) (time : float64)
    (dist : CategoryDistribution) : CategoryCost.t :=
  let cat := Config.GetTaskCategory config (CategoryID dist) in
  let catTime := (Percentage dist / 100) * time in
  let catCost := catTime * TaskCategory.CostPerTimeUnit cat in
  {| CategoryCost.Time := catTime;
     CategoryCost.Cost := catCost;
     CategoryCost.CostPerUnit := TaskCategory.CostPerTimeUnit cat |}.

(** The same details recorded in [cost] and added to its totals. *)
Definition add_category_cost (config : Config.t) (time : float64)
    (cost : CostEstimation) (dist : CategoryDistribution) : CostEstimation :=
  let detail := category_detail config time dist in
  {| Details := <[CategoryID dist := detail]> (Details cost);
     TotalTime := TotalTime cost + CategoryCost.Time detail;
     TotalCost := TotalCost cost + CategoryCost.Cost detail |}.

(** One turn of the loop of [CalculateMinMaxCosts] on [minCost] and
    [maxCost]. *)
Definition cost_step (config : Config.t) (minTime maxTime : float64)
    (acc : CostEstimation * CostEstimation) (dist : CategoryDistribution)
  : CostEstimation * CostEstimation :=
  let '(minCost, maxCost) := acc in
  (add_category_cost config minTime minCost dist,
   add_category_cost config maxTime maxCost dist).

(** [CalculateMinMaxCosts], given the orders [cats] and [tasks] in which
    [CalculateCategoryDistribution] ranges over its two maps. *)
Definition CalculateMinMaxCosts_over
    (cats : list (string * TaskCategory.t)) (tasks : list (TaskID * Task.t))
    (estimation : Estimation.t) (config : Config.t)
    (confidence : ConfidenceLevel) : MinMaxCost :=
  let projectEst := CalculateProjectEstimation estimation in
  let distribution :=
    CalculateCategoryDistribution_over cats tasks estimation config in
  let minCost := {| TotalTime := 0; TotalCost := 0; Details := ∅ |} in
  let maxCost := {| TotalTime := 0; TotalCost := 0; Details := ∅ |} in
  let minTime :=
    Rmax 0 (WeightedMean projectEst
            - StandardDeviation projectEst * Multiplier confidence) in
  let maxTime :=
    WeightedMean projectEst
    + StandardDeviation projectEst * Multiplier confidence in
  let '(minCost, maxCost) :=
    fold_left (cost_step config minTime maxTime) distribution
              (minCost, maxCost) in
  {| Min := minCost; Max := maxCost |}.

Definition CalculateMinMaxCosts (estimation : Estimation.t)
    (config : Config.t) (confidence : ConfidenceLevel) : MinMaxCost :=
  CalculateMinMaxCosts_over
    (map_to_list (Config.TaskCategories config))
    (map_to_list (Estimation.Tasks estimation))
    estimation config confidence.

Definition FormatEstimation (value : float64) (roundUp : bool) : float64 :=
  if roundUp then Ceil value else value.
End stats.

(** ** package format: json.go *)

Module format.
Local Open Scope R_scope.

Module EstimationOutput.
Record t : Type := mk {
  Optimistic : float64;
  Likely : float64;
  Pessimistic : float64
}.
End EstimationOutput.

Module TaskCalculatedOutput.
Record t : Type := mk {
  WeightedMean : float64;
  StandardDeviation : float64
}.
End TaskCalculatedOutput.

Module TaskOutput.
Record t : Type := mk {
  ID : string;
  Label : string;
  Description : string;
  Category : string;
  CategoryLabel : string;
  Estimations : EstimationOutput.t;
  Calculated : TaskCalculatedOutput.t
}.
End TaskOutput.

Module ConfidenceOutput.
Record t : Type := mk {
  Level : string;
  Mean : float64;
  Deviation : float64;
  Min : float64;
  Max : float64
}.
End ConfidenceOutput.

Module StatisticsOutput.
Record t : Type := mk {
  TaskCount : Z;
  WeightedMean : float64;
  StandardDeviation : float64;
  Confidence68 : ConfidenceOutput.t;
  Confidence90 : ConfidenceOutput.t;
  Confidence997 : ConfidenceOutput.t
}.
End StatisticsOutput.

Module CategoryDistributionOutput.
Record t : Type := mk {
  CategoryID : string;
  CategoryLabel : string;
  Time : float64;
  Percentage : float64
}.
End CategoryDistributionOutput.

Module CostDetail.
Record t : Type := mk {
  Time : float64;
  Cost : float64
}.
End CostDetail.

Module CostOutput.
Record t : Type := mk {
  Currency : string;
  TimeUnit : string;
  Max : CostDetail.t;
  Min : CostDetail.t;
  ByCategory : gmap string CostDetail.t
}.
End CostOutput.

Module Output.
Record t : Type := mk {
  ID : string;
  Label : string;
  Description : string;
  CreatedAt : string;
  UpdatedAt : string;
  Tasks : list TaskOutput.t;
  Statistics : StatisticsOutput.t;
  CategoryDistribution : list CategoryDistributionOutput.t;
  Costs : CostOutput.t
}.
End Output.

Definition roundFloat (value : float64) (roundUp : bool) : float64 :=
  if roundUp then Ceil value else value.

(** One turn of the loop that builds the tasks of the output. *)
Definition task_output (config : Config.t) (roundUp : bool) (task : Task.t)
  : TaskOutput.t :=
  let cat := Config.GetTaskCategory config (Task.Category task) in
  {| TaskOutput.ID := Task.ID task;
     TaskOutput.Label := Task.Label task;
     TaskOutput.Description := Task.Description task;
     TaskOutput.Category := Task.Category task;
     TaskOutput.CategoryLabel := TaskCategory.Label cat;
     TaskOutput.Estimations :=
       {| EstimationOutput.Optimistic := Optimistic (Task.Estimations task);
          EstimationOutput.Likely := Likely (Task.Estimations task);
          EstimationOutput.Pessimistic :=
            Pessimistic (Task.Estimations task) |};
     TaskOutput.Calculated :=
       {| TaskCalculatedOutput.WeightedMean :=
            roundFloat (Task.WeightedMean task) roundUp;
          TaskCalculatedOutput.StandardDeviation :=
            roundFloat (Task.StandardDeviation task) roundUp |} |}.

(** One turn of the loop that builds the category distribution. *)
Definition distribution_output (roundUp : bool)
    (dist : stats.CategoryDistribution) : CategoryDistributionOutput.t :=
  {| CategoryDistributionOutput.CategoryID := stats.CategoryID dist;
     CategoryDistributionOutput.CategoryLabel := stats.CategoryLabel dist;
     CategoryDistributionOutput.Time := roundFloat (stats.Time dist) roundUp;
     CategoryDistributionOutput.Percentage := stats.Percentage dist |}.

(** The loop that builds the costs by category, over the entries [details]
    of the range over [costs.Max.Details]. *)
Definition by_category_loop (roundUp : bool)
    (details : list (string * stats.CategoryCost.t))
  : gmap string CostDetail.t :=
  fold_left
    (fun costsByCategory '(catID, catCost) =>
       <[catID :=
           {| CostDetail.Time :=
                roundFloat (stats.CategoryCost.Time catCost) roundUp;
              CostDetail.Cost :=
                roundFloat (stats.CategoryCost.Cost catCost) false |}]>
       costsByCategory)
    details ∅.

(** A confidence interval of the statistics, [k] deviations wide. *)
Definition confidence_output (level : string) (k : float64) (roundUp : bool)
    (projectEst : stats.EstimationResult) : ConfidenceOutput.t :=
  {| ConfidenceOutput.Level := level;
     ConfidenceOutput.Mean :=
       roundFloat (stats.WeightedMean projectEst) roundUp;
     ConfidenceOutput.Deviation :=
       roundFloat (stats.StandardDeviation projectEst * k) roundUp;
     ConfidenceOutput.Min :=
       roundFloat (stats.WeightedMean projectEst
                   - stats.StandardDeviation projectEst * k) roundUp;
     ConfidenceOutput.Max :=
       roundFloat (stats.WeightedMean projectEst
                   + stats.StandardDeviation projectEst * k) roundUp |}.

(** [BuildOutput], for the formatter of configuration [config]. [layout] is
    the formatting of an instant by [time.Time.Format]; [cats] and [tasks]
    are the orders in which [CalculateCategoryDistribution] ranges over its
    maps and [details] the one of the range over the details of the costs. *)
Definition BuildOutput_over (layout : Time -> string)
    (cats : list (string * TaskCategory.t)) (tasks : list (TaskID * Task.t))
    (details : list (string * stats.CategoryCost.t))
    (config : Config.t) (estimation : Estimation.t) : Output.t :=
  let projectEst := stats.CalculateProjectEstimation estimation in
  let distribution :=
    stats.CalculateCategoryDistribution_over cats tasks estimation config in
  let costs :=
    stats.CalculateMinMaxCosts estimation config stats.Confidence997 in
  let roundUp := Config.RoundUpEstimations config in
  let tasks :=
    task_output config roundUp <$> Estimation.GetOrderedTasks estimation in
  let catDist := distribution_output roundUp <$> distribution in
  let costsByCategory := by_category_loop roundUp details in
  {| Output.ID := Estimation.ID estimation;
     Output.Label := Estimation.Label estimation;
     Output.Description := Estimation.Description estimation;
     Output.CreatedAt := layout (Estimation.CreatedAt estimation);
     Output.UpdatedAt := layout (Estimation.UpdatedAt estimation);
     Output.Tasks := tasks;
     Output.Statistics :=
       {| StatisticsOutput.TaskCount :=
            Z.of_nat (size (Estimation.Tasks estimation));
          StatisticsOutput.WeightedMean :=
            roundFloat (stats.WeightedMean projectEst) roundUp;
          StatisticsOutput.StandardDeviation :=
            roundFloat (stats.StandardDeviation projectEst) roundUp;
          StatisticsOutput.Confidence68 :=
            {| ConfidenceOutput.Level := "68%";
               ConfidenceOutput.Mean :=
                 roundFloat (stats.WeightedMean projectEst) roundUp;
               ConfidenceOutput.Deviation :=
                 roundFloat (stats.StandardDeviation projectEst) roundUp;
               ConfidenceOutput.Min :=
                 roundFloat (stats.WeightedMean projectEst
                             - stats.StandardDeviation projectEst) roundUp;
               ConfidenceOutput.Max :=
                 roundFloat (stats.WeightedMean projectEst
                             + stats.StandardDeviation projectEst) roundUp |};
          StatisticsOutput.Confidence90 :=
            confidence_output "90%" 1.645 roundUp projectEst;
          StatisticsOutput.Confidence997 :=
            confidence_output "99.7%" 3 roundUp projectEst |};
     Output.CategoryDistribution := catDist;
     Output.Costs :=
       {| CostOutput.Currency := Config.Currency config;
          CostOutput.TimeUnit := TimeUnit_Acronym (Config.TimeUnit config);
          CostOutput.Max :=
            {| CostDetail.Time :=
                 roundFloat (stats.TotalTime (stats.Max costs)) roundUp;
               CostDetail.Cost :=
                 roundFloat (stats.TotalCost (stats.Max costs)) false |};
          CostOutput.Min :=
            {| CostDetail.Time :=
                 roundFloat (stats.TotalTime (stats.Min costs)) roundUp;
               CostDetail.Cost :=
                 roundFloat (stats.TotalCost (stats.Min costs)) false |};
          CostOutput.ByCategory := costsByCategory |} |}.
End format.

(** ** float64 as IEEE-754 binary64

    The functions of task.go and of stats/estimation.go that compute with
    [float64], written a second time over the primitive binary64 numbers:
    every sum, difference, product and quotient is rounded to nearest, ties
    to even, as the Go program does it.  They are run at concrete inputs,
    where they give the values the program gives.  A map is given by the
    entries of a range over it, in the order of that range, and every range
    over the tasks of one call follows the same order. *)

Module binary64.
Import PrimFloat SpecFloat FloatOps.
Local Open Scope float_scope.

(** 2^52: from there on every binary64 value is a whole number. *)
Definition two52 : float := 0x1p52.

(** The integer part of [x >= 0], the first result of [math.Modf]:
    [x + 2^52 - 2^52] is the whole number nearest to [x], one too many when
    it is above [x]. *)
Definition trunc (x : float) : float :=
  if x <? two52 then
    let t := (x + two52) - two52 in
    if x <? t then t - 1 else t
  else x.

(** [math.Floor]: zeros, infinities and NaN are returned as they are. *)
Definition Floor (x : float) : float :=
  if x =? 0 then x
  else if x <? 0 then
    let d := trunc (- x) in
    let d := if - x =? d then d else d + 1 in
    - d
  else trunc x.

(** [math.Ceil]. *)
Definition Ceil (x : float) : float := - Floor (- x).

(** [math.Pow(x, 2)]: the square of [x], rounded once. *)
Definition Pow2 (x : float) : float := x * x.

(** [math.Sqrt]. *)
Definition Sqrt (x : float) : float := sqrt x.

Record Estimations : Type := mkEstimations {
  Optimistic : float;
  Likely : float;
  Pessimistic : float
}.

Module Task.
Record t : Type := mk {
  ID : TaskID;
  Label : string;
  Description : string;
  Category : string;
  Estimations : Estimations
}.

Definition WeightedMean (t : t) : float :=
  (Optimistic (Estimations t) + 4 * Likely (Estimations t)
   + Pessimistic (Estimations t)) / 6.

Definition StandardDeviation (t : t) : float :=
  (Pessimistic (Estimations t) - Optimistic (Estimations t)) / 6.

Definition autofill (o l p multiplier : float) : float * float * float :=
  if (0 <? o) && (l =? 0) && (p =? 0) then
    let l := Ceil (o * (1 + multiplier)) in
    let p := Ceil (l * (1 + multiplier)) in
    (o, l, p)
  else if (0 <? l) && (o =? 0) && (p =? 0) then
    let o := Floor (l * (1 - multiplier)) in
    let o := if o <? 0 then 0 else o in
    let p := Ceil (l * (1 + multiplier)) in
    (o, l, p)
  else if (0 <? p) && (o =? 0) && (l =? 0) then
    let l := Floor (p * (1 - multiplier)) in
    let o := Floor (l * (1 - multiplier)) in
    let o := if o <? 0 then 0 else o in
    (o, l, p)
  else if (0 <? o) && (0 <? l) && (p =? 0) then
    let p := Ceil (l * (1 + multiplier)) in
    (o, l, p)
  else if (0 <? o) && (0 <? p) && (l =? 0) then
    let l := Ceil ((o + p) / 2) in
    let l := if l <? o then o else l in
    let l := if p <? l then p else l in
    (o, l, p)
  else if (0 <? l) && (0 <? p) && (o =? 0) then
    let o := Floor (l * (1 - multiplier)) in
    let o := if o <? 0 then 0 else o in
    (o, l, p)
  else (o, l, p).

Definition propagate (o l p multiplier : float) : float * float * float :=
  let l := if (0 <? l) && (l <=? o)
           then Ceil (o * (1 + multiplier)) else l in
  let p := if (0 <? p) && (p <=? l)
           then Ceil (l * (1 + multiplier)) else p in
  (o, l, p).

Definition SetEstimations (t : t)
    (optimistic likely pessimistic multiplier : float) : Task.t :=
  let o := optimistic in
  let l := likely in
  let p := pessimistic in
  let '(o, l, p) := autofill o l p multiplier in
  let '(o, l, p) := propagate o l p multiplier in
  {| ID := ID t; Label := Label t; Description := Description t;
     Category := Category t;
     Estimations := {| Optimistic := o; Likely := l; Pessimistic := p |} |}.
End Task.

Module TaskCategory.
Record t : Type := mk {
  ID : string;
  Label : string;
  CostPerTimeUnit : float
}.
End TaskCategory.

(** [Config.GetTaskCategory], on the categories of the configuration. *)
Definition GetTaskCategory (categories : gmap string TaskCategory.t)
    (id : string) : TaskCategory.t :=
  match categories !! id with
  | Some cat => cat
  | None =>
      {| TaskCategory.ID := id; TaskCategory.Label := id;
         TaskCategory.CostPerTimeUnit := 500 |}
  end.

Module stats.
Record EstimationResult : Type := mkEstimationResult {
  WeightedMean : float;
  StandardDeviation : float
}.

Definition project_step (acc : float * float) (entry : TaskID * Task.t)
  : float * float :=
  let '(totalMean, totalVariance) := acc in
  let task := entry.2 in
  (totalMean + Task.WeightedMean task,
   totalVariance + Pow2 (Task.StandardDeviation task)).

Definition CalculateProjectEstimation (tasks : list (TaskID * Task.t))
  : EstimationResult :=
  let '(totalMean, totalVariance) := fold_left project_step tasks (0, 0) in
  {| WeightedMean := totalMean; StandardDeviation := Sqrt totalVariance |}.

Definition category_step (categoryID : string) (acc : float * float)
    (entry : TaskID * Task.t) : float * float :=
  let '(totalMean, totalVariance) := acc in
  let task := entry.2 in
  if decide (Task.Category task = categoryID)
  then (totalMean + Task.WeightedMean task,
        totalVariance + Pow2 (Task.StandardDeviation task))
  else (totalMean, totalVariance).

Definition CalculateCategoryEstimation (tasks : list (TaskID * Task.t))
    (categoryID : string) : EstimationResult :=
  let '(totalMean, totalVariance) :=
    fold_left (category_step categoryID) tasks (0, 0) in
  {| WeightedMean := totalMean; StandardDeviation := Sqrt totalVariance |}.

Record CategoryDistribution : Type := mkCategoryDistribution {
  CategoryID : string;
  CategoryLabel : string;
  Time : float;
  Percentage : float
}.

Definition percentage_of (catEst projectEst : EstimationResult) : float :=
  if 0 <? WeightedMean projectEst
  then (WeightedMean catEst / WeightedMean projectEst) * 100
  else 0.

Definition configured_step (tasks : list (TaskID * Task.t))
    (projectEst : EstimationResult)
    (acc : list CategoryDistribution * gmap string bool)
    (entry : string * TaskCategory.t)
  : list CategoryDistribution * gmap string bool :=
  let '(distributions, seenCategories) := acc in
  let '(catID, cat) := entry in
  let catEst := CalculateCategoryEstimation tasks catID in
  let percentage := percentage_of catEst projectEst in
  (distributions ++
     [ {| CategoryID := catID;
          CategoryLabel := TaskCategory.Label cat;
          Time := WeightedMean catEst;
          Percentage := percentage |} ],
   <[catID := true]> seenCategories).

Definition unconfigured_step (tasks : list (TaskID * Task.t))
    (categories : gmap string TaskCategory.t)
    (projectEst : EstimationResult)
    (acc : list CategoryDistribution * gmap string bool)
    (entry : TaskID * Task.t)
  : list CategoryDistribution * gmap string bool :=
  let '(distributions, seenCategories) := acc in
  let task := entry.2 in
  if negb (default false (seenCategories !! Task.Category task)) then
    let catEst := CalculateCategoryEstimation tasks (Task.Category task) in
    let percentage := percentage_of catEst projectEst in
    let cat := GetTaskCategory categories (Task.Category task) in
    (distributions ++
       [ {| CategoryID := Task.Category task;
            CategoryLabel := TaskCategory.Label cat;
            Time := WeightedMean catEst;
            Percentage := percentage |} ],
     <[Task.Category task := true]> seenCategories)
  else (distributions, seenCategories).

(** [CalculateCategoryDistribution], for the ranges [cats] over the
    categories [categories] of the configuration and [tasks] over the tasks
    of the estimation. *)
Definition CalculateCategoryDistribution_over
    (cats : list (string * TaskCategory.t)) (tasks : list (TaskID * Task.t))
    (categories : gmap string TaskCategory.t) : list CategoryDistribution :=
  let projectEst := CalculateProjectEstimation tasks in
  if WeightedMean projectEst =? 0 then []
  else
    let distributions : list CategoryDistribution := [] in
    let seenCategories : gmap string bool := ∅ in
    let acc :=
      fold_left (configured_step tasks projectEst) cats
                (distributions, seenCategories) in
    let acc :=
      fold_left (unconfigured_step tasks categories projectEst) tasks acc in
    acc.1.
End stats.

(** The real number a finite binary64 value stands for. *)
Definition to_R (x : float) : R :=
  match Prim2SF x with
  | S754_finite s m e =>
      (IZR ((if s then Z.neg m else Z.pos m) * 2 ^ Z.max 0 e)
       / IZR (2 ^ Z.max 0 (- e)))%R
  | _ => 0%R
  end.

(** Sum of a list of binary64 values, added from left to right. *)
Definition sum (l : list float) : float := fold_left add l 0.

(** Sample data on binary64: the tasks and the configuration of
    [dev_ops_estimation] and [dev_config]. *)
Definition sample_task : Task.t :=
  {| Task.ID := "a1b2c3d4"; Task.Label := "login page";
     Task.Description := ""; Task.Category := "development";
     Task.Estimations :=
       {| Optimistic := 0; Likely := 0; Pessimistic := 0 |} |}.

Definition task_dev : Task.t :=
  {| Task.ID := "t1"; Task.Label := "api"; Task.Description := "";
     Task.Category := "dev";
     Task.Estimations :=
       {| Optimistic := 2; Likely := 4; Pessimistic := 6 |} |}.

Definition task_ops : Task.t :=
  {| Task.ID := "t2"; Task.Label := "deploy"; Task.Description := "";
     Task.Category := "ops";
     Task.Estimations :=
       {| Optimistic := 1; Likely := 2; Pessimistic := 3 |} |}.

Definition task_tenths : Task.t :=
  {| Task.ID := "t3"; Task.Label := "review"; Task.Description := "";
     Task.Category := "dev";
     Task.Estimations :=
       {| Optimistic := 0.1; Likely := 0.1; Pessimistic := 0.1 |} |}.

Definition dev_ops_tasks : list (TaskID * Task.t) :=
  [("t1", task_dev); ("t2", task_ops)].

Definition dev_category : TaskCategory.t :=
  {| TaskCategory.ID := "dev"; TaskCategory.Label := "Development";
     TaskCategory.CostPerTimeUnit := 500 |}.

Definition dev_categories : gmap string TaskCategory.t :=
  {[ "dev" := dev_category ]}.
End binary64.

(** ** The formulas of the specification *)

(** Sum of a list of reals. *)
Definition Rsum (l : list R) : R := fold_right Rplus 0%R l.

(** The sum of [f] over all the tasks of a mapping. *)
Definition sum_over_tasks (f : Task.t -> R) (m : gmap TaskID Task.t) : R :=
  Rsum (f <$> (map_to_list m).*2).

(** (O + 4L + P) / 6. *)
Definition pert_mean (t : Task.t) : R :=
  ((Optimistic (Task.Estimations t) + 4 * Likely (Task.Estimations t)
    + Pessimistic (Task.Estimations t)) / 6)%R.

(** ((P - O) / 6) squared. *)
Definition pert_variance (t : Task.t) : R :=
  (((Pessimistic (Task.Estimations t) - Optimistic (Task.Estimations t)) / 6)
   * ((Pessimistic (Task.Estimations t) - Optimistic (Task.Estimations t)) / 6))%R.

(** ** Sequences of calls on an estimation *)

Inductive Call : Type :=
| CallAddTask (now : Time) (task : Task.t)
| CallRemoveTask (now : Time) (id : TaskID)
| CallMoveTask (now : Time) (id : TaskID) (offset : Z).

Definition call (c : Call) (e : Estimation.t) : Estimation.t :=
  match c with
  | CallAddTask now task => Estimation.AddTask now task e
  | CallRemoveTask now id => Estimation.RemoveTask now id e
  | CallMoveTask now id offset => (Estimation.MoveTask now id offset e).2
  end.

Fixpoint run (calls : list Call) (e : Estimation.t) : Estimation.t :=
  match calls with
  | [] => e
  | c :: calls => run calls (call c e)
  end.

(** Every [AddTask] of the sequence brings an identifier that the mapping
    does not hold at the time of the call. *)
Fixpoint adds_fresh (calls : list Call) (e : Estimation.t) : Prop :=
  match calls with
  | [] => True
  | c :: calls =>
      match c with
      | CallAddTask _ task => Estimation.Tasks e !! Task.ID task = None
      | _ => True
      end
      ∧ adds_fresh calls (call c e)
  end.

(** The invariant of the aggregate: the ordering lists the keys of the
    mapping, each once. *)
Definition consistent (e : Estimation.t) : Prop :=
  NoDup (Estimation.Ordering e)
  ∧ list_to_set (Estimation.Ordering e) = dom (Estimation.Tasks e).

(** ** The loop invariant of the category distribution

    The categories of the entries built so far are distinct, they are the
    ones marked in [seenCategories], and every entry carries the percentage
    of its own category. *)
Definition distribution_inv (estimation : Estimation.t)
    (projectEst : stats.EstimationResult)
    (acc : list stats.CategoryDistribution * gmap string bool) : Prop :=
  NoDup (stats.CategoryID <$> acc.1)
  ∧ (forall c : string,
       stats.seen acc.2 c = true <-> c ∈ stats.CategoryID <$> acc.1)
  ∧ Forall
      (fun d =>
         stats.Percentage d
         = stats.percentage_of
             (stats.CalculateCategoryEstimation estimation (stats.CategoryID d))
             projectEst)
      acc.1.

(** ** Triples that the coherency setter leaves alone

    A triple is settled when it is strictly increasing from a positive
    optimistic value, or lacks the optimistic value that its likely value
    would give, or lacks both lower values that its pessimistic value would
    give, or is empty. *)
Definition settled (o l p m : R) : Prop :=
  (0 < o /\ o < l /\ l < p)%R
  \/ (o = 0 /\ 0 < l /\ l < p /\ Floor (l * (1 - m)) <= 0)%R
  \/ (o = 0 /\ l = 0 /\ 0 < p /\ Floor (p * (1 - m)) = 0)%R
  \/ (o = 0 /\ l = 0 /\ p = 0)%R.

(** ** What an entry of a category distribution holds

    The label that [GetTaskCategory] gives for its category, the weighted
    mean of its category and the share of the project mean. *)
Definition entry_of (e : Estimation.t) (config : Config.t)
    (d : stats.CategoryDistribution) : Prop :=
  stats.CategoryLabel d
  = TaskCategory.Label (Config.GetTaskCategory config (stats.CategoryID d))
  /\ stats.Time d
     = stats.WeightedMean
         (stats.CalculateCategoryEstimation e (stats.CategoryID d))
  /\ stats.Percentage d
     = stats.percentage_of
         (stats.CalculateCategoryEstimation e (stats.CategoryID d))
         (stats.CalculateProjectEstimation e).

(** ** Sample data *)

Definition sample_task : Task.t :=
  Task.NewTask "a1b2c3d4" "login page" "development".

Definition task_a : Task.t := Task.NewTask "a" "design" "development".
Definition task_b : Task.t := Task.NewTask "b" "build" "development".
Definition task_c : Task.t := Task.NewTask "c" "check" "testing".

Definition empty_estimation : Estimation.t :=
  Estimation.NewEstimation "e1" 100%Z "demo".

Definition abc_estimation : Estimation.t :=
  run [CallAddTask 101%Z task_a; CallAddTask 102%Z task_b;
       CallAddTask 103%Z task_c]
      empty_estimation.

Definition task_dev : Task.t :=
  {| Task.ID := "t1"; Task.Label := "api"; Task.Description := "";
     Task.Category := "dev";
     Task.Estimations :=
       {| Optimistic := 2%R; Likely := 4%R; Pessimistic := 6%R |} |}.

Definition task_ops : Task.t :=
  {| Task.ID := "t2"; Task.Label := "deploy"; Task.Description := "";
     Task.Category := "ops";
     Task.Estimations :=
       {| Optimistic := 1%R; Likely := 2%R; Pessimistic := 3%R |} |}.

Definition dev_ops_estimation : Estimation.t :=
  run [CallAddTask 101%Z task_dev; CallAddTask 102%Z task_ops]
      empty_estimation.

Definition dev_config : Config.t :=
  {| Config.TaskCategories :=
       {[ "dev" := {| TaskCategory.ID := "dev";
                      TaskCategory.Label := "Development";
                      TaskCategory.CostPerTimeUnit := 500%R |} ]};
     Config.TimeUnit :=
       {| TimeUnit_Label := "man-day"; TimeUnit_Acronym := "md" |};
     Config.Currency := "EUR";
     Config.RoundUpEstimations := true;
     Config.AutoEstimationMultiplier := DefaultAutoEstimationMultiplier |}.

(** * Properties *)

Section RoundingFacts.
Local Open Scope R_scope.

Lemma Floor_bounds (x : R) : Floor x <= x < Floor x + 1.
Proof.
  unfold Floor. destruct (base_Int_part x) as [Hle Hgt]. split; lra.
Qed.

Lemma Ceil_bounds (x : R) : x <= Ceil x < x + 1.
Proof.
  unfold Ceil. rewrite opp_IZR.
  destruct (base_Int_part (- x)) as [Hle Hgt]. split; lra.
Qed.

Lemma Floor_unique (x : R) (n : Z) : IZR n <= x < IZR n + 1 -> Floor x = IZR n.
Proof.
  intros [Hle Hlt]. unfold Floor. f_equal. symmetry.
  apply Int_part_spec. split; lra.
Qed.

Lemma Ceil_unique (x : R) (n : Z) : IZR n - 1 < x <= IZR n -> Ceil x = IZR n.
Proof.
  intros [Hlt Hle]. unfold Ceil. f_equal.
  assert (Int_part (- x) = (- n)%Z) as ->; [|lia].
  symmetry. apply Int_part_spec. rewrite opp_IZR. split; lra.
Qed.

Lemma Floor_nonneg (x : R) : 0 <= x -> 0 <= Floor x.
Proof.
  intros Hx. unfold Floor.
  destruct (base_Int_part x) as [_ Hgt].
  apply IZR_le. apply Z.lt_succ_r. apply lt_IZR.
  rewrite succ_IZR. lra.
Qed.
End RoundingFacts.


(** ** Task.SetEstimations *)

Section SetEstimationsFacts.
Local Open Scope R_scope.

(** Replace every rounded term by a fresh real known only by its bounds. *)
Ltac abstract_rounding :=
  repeat match goal with
  | |- context [Ceil ?x] =>
      let c := fresh "c" in
      pose proof (Ceil_bounds x);
      set (c := Ceil x) in *; clearbody c
  | |- context [Floor ?x] =>
      let f := fresh "f" in
      pose proof (Floor_bounds x); pose proof (Floor_nonneg x);
      set (f := Floor x) in *; clearbody f
  | H : context [Ceil ?x] |- _ =>
      let c := fresh "c" in
      pose proof (Ceil_bounds x);
      set (c := Ceil x) in *; clearbody c
  | H : context [Floor ?x] |- _ =>
      let f := fresh "f" in
      pose proof (Floor_bounds x); pose proof (Floor_nonneg x);
      set (f := Floor x) in *; clearbody f
  end.

Ltac run_SetEstimations :=
  unfold Task.SetEstimations, Task.autofill, Task.propagate;
  repeat (case_decide; simpl).

(** The locals [o], [l], [p] after the auto-fill chain and the repair. *)
Lemma autofill_propagate_ordered (o l p m : R) :
  0 <= o -> 0 <= l -> 0 <= p -> 0 < m < 1 ->
  forall o' l' p' : R,
    (let '(o1, l1, p1) := Task.autofill o l p m in
     Task.propagate o1 l1 p1 m) = (o', l', p') ->
    (0 <= o' /\ 0 <= l' /\ 0 <= p') /\ o' <= l' <= p'.
Proof.
  intros Ho Hl Hp Hm o' l' p'.
  unfold Task.autofill, Task.propagate.
  repeat (case_decide; simpl); intros [= <- <- <-]; abstract_rounding.
  all: repeat split; nra.
Qed.

Lemma SetEstimations_locals (t : Task.t) (o l p m : R) :
  exists o' l' p' : R,
    (let '(o1, l1, p1) := Task.autofill o l p m in
     Task.propagate o1 l1 p1 m) = (o', l', p')
    /\ Task.Estimations (Task.SetEstimations t o l p m)
       = {| Optimistic := o'; Likely := l'; Pessimistic := p' |}.
Proof.
  unfold Task.SetEstimations.
  destruct (Task.autofill o l p m) as [[o1 l1] p1].
  destruct (Task.propagate o1 l1 p1 m) as [[o2 l2] p2].
  by exists o2, l2, p2.
Qed.

(** C1: for non-negative inputs and a multiplier in (0,1), the stored triple
    is non-negative and ordered: O' <= L' <= P'. *)
Theorem SetEstimations_ordered (t : Task.t) (o l p m : R) :
  0 <= o -> 0 <= l -> 0 <= p -> 0 < m < 1 ->
  let e := Task.Estimations (Task.SetEstimations t o l p m) in
  (0 <= Optimistic e /\ 0 <= Likely e /\ 0 <= Pessimistic e)
  /\ Optimistic e <= Likely e <= Pessimistic e.
Proof.
  intros Ho Hl Hp Hm.
  destruct (SetEstimations_locals t o l p m) as (o' & l' & p' & Hrun & ->).
  simpl. by apply (autofill_propagate_ordered o l p m).
Qed.

Lemma SetEstimations_ordered_witness :
  let e := Task.Estimations (Task.SetEstimations sample_task 5 2 0 (33/100)) in
  (0 <= Optimistic e /\ 0 <= Likely e /\ 0 <= Pessimistic e)
  /\ Optimistic e <= Likely e <= Pessimistic e.
Proof. apply (SetEstimations_ordered sample_task 5 2 0 (33/100)); lra. Defined.

(** [Validate] reports nothing on a task set from such inputs. *)
Lemma SetEstimations_Validate (t : Task.t) (o l p m : R) :
  0 <= o -> 0 <= l -> 0 <= p -> 0 < m < 1 ->
  Task.Validate (Task.SetEstimations t o l p m) = [].
Proof.
  intros Ho Hl Hp Hm. unfold Task.Validate.
  destruct (SetEstimations_locals t o l p m) as (o' & l' & p' & Hrun & ->).
  destruct (autofill_propagate_ordered o l p m Ho Hl Hp Hm _ _ _ Hrun)
    as [(HO & HL & HP) [HOL HLP]].
  simpl. by rewrite !decide_False by lra.
Qed.

(** Only the optimistic value given: both others are derived upwards, for
    every multiplier; where the forward repair applies it derives the same
    two values again. *)
Lemma SetEstimations_only_optimistic (t : Task.t) (o m : R) :
  0 < o ->
  Task.Estimations (Task.SetEstimations t o 0 0 m)
  = {| Optimistic := o;
       Likely := Ceil (o * (1 + m));
       Pessimistic := Ceil (Ceil (o * (1 + m)) * (1 + m)) |}.
Proof.
  intros Ho. run_SetEstimations; try reflexivity; exfalso; lra.
Qed.

(** Only the likely value given, with a positive multiplier: the optimistic
    one is derived downwards and clamped at 0, the pessimistic one upwards;
    the derived optimistic value is below the likely one, which is kept. *)
Lemma SetEstimations_only_likely (t : Task.t) (l m : R) :
  0 < l -> 0 < m ->
  Task.Estimations (Task.SetEstimations t 0 l 0 m)
  = {| Optimistic := Rmax 0 (Floor (l * (1 - m)));
       Likely := l;
       Pessimistic := Ceil (l * (1 + m)) |}.
Proof.
  intros Hl Hm.
  pose proof (Floor_bounds (l * (1 - m))) as Ho.
  unfold Rmax. destruct (Rle_dec 0 (Floor (l * (1 - m)))) as [Hpos|Hneg];
    run_SetEstimations; try reflexivity; exfalso; nra.
Qed.

(** C10: a strictly positive optimistic input is stored as it is, whatever
    the other inputs and the multiplier are. *)
Theorem SetEstimations_keeps_optimistic (t : Task.t) (o l p m : R) :
  0 < o ->
  Optimistic (Task.Estimations (Task.SetEstimations t o l p m)) = o.
Proof.
  intros Ho. run_SetEstimations; try reflexivity; exfalso; lra.
Qed.

Lemma SetEstimations_keeps_optimistic_witness :
  Optimistic (Task.Estimations (Task.SetEstimations sample_task 3 (-2) 1 7)) = 3.
Proof. apply (SetEstimations_keeps_optimistic sample_task 3 (-2) 1 7); lra. Defined.

(** C3 as stated fails: three equal positive values are ordered, yet the
    repair pass replaces the likely and the pessimistic one. *)
Lemma SetEstimations_identity_counterexample :
  (0 < 5 <= 5 /\ 5 <= 5) /\ 0 < 0.33 < 1
  /\ Task.Estimations (Task.SetEstimations sample_task 5 5 5 0.33)
     = {| Optimistic := 5; Likely := 7; Pessimistic := 10 |}
  /\ Task.Estimations (Task.SetEstimations sample_task 5 5 5 0.33)
     <> {| Optimistic := 5; Likely := 5; Pessimistic := 5 |}.
Proof.
  assert (Task.Estimations (Task.SetEstimations sample_task 5 5 5 0.33)
          = {| Optimistic := 5; Likely := 7; Pessimistic := 10 |}) as Hrun.
  { assert (Ceil (5 * (1 + 0.33)) = 7) as E1 by (apply (Ceil_unique _ 7); lra).
    assert (Ceil (7 * (1 + 0.33)) = 10) as E2 by (apply (Ceil_unique _ 10); lra).
    run_SetEstimations; rewrite ?E1, ?E2 in *; try reflexivity; exfalso; lra. }
  repeat split; try lra; try exact Hrun.
  rewrite Hrun. intros Heq. injection Heq as Hl Hp. lra.
Qed.

(** C3, amended: a strictly increasing positive triple, 0 < O < L < P, is
    stored unchanged, for every multiplier in (0,1): no auto-fill case and
    no repair guard applies to it. *)
Theorem SetEstimations_identity_strict (t : Task.t) (o l p m : R) :
  0 < o -> o < l -> l < p -> 0 < m < 1 ->
  Task.Estimations (Task.SetEstimations t o l p m)
  = {| Optimistic := o; Likely := l; Pessimistic := p |}.
Proof.
  intros Ho Hol Hlp Hm.
  run_SetEstimations; try reflexivity; exfalso; lra.
Qed.

Lemma SetEstimations_identity_strict_witness :
  Task.Estimations (Task.SetEstimations sample_task 2 4 6 0.33)
  = {| Optimistic := 2; Likely := 4; Pessimistic := 6 |}.
Proof.
  apply (SetEstimations_identity_strict sample_task 2 4 6 0.33); lra.
Defined.
End SetEstimationsFacts.

(** ** Estimation: ordering and mapping *)

Section OrderingFacts.
Local Open Scope Z_scope.

Lemma first_index_None (id : TaskID) (l : list TaskID) :
  first_index id l = None <-> id ∉ l.
Proof.
  induction l as [|x l IH]; simpl.
  - split; [intros _; apply not_elem_of_nil | done].
  - case_decide as Hx.
    + subst x. split; [done | intros Hn; exfalso; apply Hn; left].
    + rewrite fmap_None, not_elem_of_cons, IH. intuition congruence.
Qed.

Lemma first_index_Some (id : TaskID) (l : list TaskID) (i : nat) :
  first_index id l = Some i -> l !! i = Some id ∧ id ∉ take i l.
Proof.
  revert i. induction l as [|x l IH]; intros i; simpl; [done|].
  case_decide as Hx.
  - intros [= <-]. subst x. split; [done | apply not_elem_of_nil].
  - destruct (first_index id l) as [j|] eqn:Hj; simpl; [|done].
    intros [= <-]. destruct (IH j eq_refl) as [Hl Hn].
    split; [done|]. simpl. rewrite not_elem_of_cons. split; [congruence | done].
Qed.

Lemma first_index_lt (id : TaskID) (l : list TaskID) (i : nat) :
  first_index id l = Some i -> (i < length l)%nat.
Proof.
  intros Hi. apply first_index_Some in Hi as [Hl _].
  by apply lookup_lt_Some in Hl.
Qed.

Lemma first_index_elem (id : TaskID) (l : list TaskID) :
  id ∈ l -> exists i, first_index id l = Some i.
Proof.
  intros Hin. destruct (first_index id l) as [i|] eqn:Hi; [eauto|].
  apply first_index_None in Hi. done.
Qed.

Lemma first_index_last (id : TaskID) (front : list TaskID) :
  id ∉ front -> first_index id (front ++ [id]) = Some (length front).
Proof.
  induction front as [|x front IH]; simpl; intros Hn.
  - by rewrite decide_True.
  - apply not_elem_of_cons in Hn as [Hne Hn].
    rewrite decide_False by congruence. by rewrite IH.
Qed.

Lemma cut_at_Permutation (id : TaskID) (l : list TaskID) (i : nat) :
  l !! i = Some id -> l ≡ₚ id :: cut_at i l.
Proof.
  intros Hl. unfold cut_at.
  rewrite <- (take_drop_middle l i id Hl) at 1.
  symmetry. apply Permutation_middle.
Qed.

Lemma insert_at_Permutation (id : TaskID) (l : list TaskID) (j : nat) :
  insert_at j id l ≡ₚ id :: l.
Proof.
  unfold insert_at. simpl. rewrite <- Permutation_middle.
  by rewrite take_drop.
Qed.

Lemma insert_at_cut_at (id : TaskID) (l : list TaskID) (i : nat) :
  l !! i = Some id -> insert_at i id (cut_at i l) = l.
Proof.
  intros Hl. pose proof (lookup_lt_Some _ _ _ Hl) as Hlt.
  unfold insert_at, cut_at.
  assert (length (take i l) = i) as Hlen by (rewrite length_take; lia).
  rewrite take_app_length' by done.
  rewrite drop_app_length' by done.
  simpl. by apply take_drop_middle.
Qed.

Ltac unfold_int :=
  unfold is_int, int_min, int_max, wrap_int in *;
  change (2 ^ 63) with 9223372036854775808 in *;
  change (2 ^ 64) with 18446744073709551616 in *.

Lemma wrap_int_id (z : Z) : is_int z -> wrap_int z = z.
Proof. unfold_int. intros Hz. Z.div_mod_to_equations. lia. Qed.

(** An addition that leaves [0, len) in the integers leaves it in 64-bit
    arithmetic too: an overflow wraps to a negative index. *)
Lemma wrap_int_outside (i offset len : Z) :
  is_int offset -> 0 <= i < len -> len <= int_max ->
  ¬ (0 <= i + offset < len) ->
  wrap_int (i + offset) < 0 ∨ wrap_int (i + offset) >= len.
Proof. unfold_int. intros Ho Hi Hlen Hout. Z.div_mod_to_equations. lia. Qed.

Lemma MoveTask_absent (now : Time) (id : TaskID) (offset : Z)
    (e : Estimation.t) :
  id ∉ Estimation.Ordering e ->
  Estimation.MoveTask now id offset e = (false, e).
Proof.
  intros Hn. apply first_index_None in Hn.
  unfold Estimation.MoveTask. rewrite Hn. by rewrite decide_True.
Qed.

Lemma MoveTask_out_of_range (now : Time) (id : TaskID) (offset : Z)
    (e : Estimation.t) (i : nat) :
  is_int offset ->
  Z.of_nat (length (Estimation.Ordering e)) <= int_max ->
  first_index id (Estimation.Ordering e) = Some i ->
  ¬ (0 <= Z.of_nat i + offset < Z.of_nat (length (Estimation.Ordering e))) ->
  Estimation.MoveTask now id offset e = (false, e).
Proof.
  intros Hoff Hlen Hi Hout.
  pose proof (first_index_lt _ _ _ Hi) as Hlt.
  unfold Estimation.MoveTask. rewrite Hi.
  rewrite decide_False by lia.
  rewrite decide_True; [done|].
  apply wrap_int_outside; [done | lia | done | done].
Qed.

(** A successful move rearranges the ordering and keeps the mapping. *)
Lemma MoveTask_Permutation (now : Time) (id : TaskID) (offset : Z)
    (e : Estimation.t) :
  Estimation.Ordering (Estimation.MoveTask now id offset e).2
    ≡ₚ Estimation.Ordering e
  ∧ Estimation.Tasks (Estimation.MoveTask now id offset e).2
    = Estimation.Tasks e.
Proof.
  unfold Estimation.MoveTask.
  destruct (first_index id (Estimation.Ordering e)) as [i|] eqn:Hi.
  - apply first_index_Some in Hi as [Hl _].
    repeat case_decide; simpl; try done.
    split; [|done]. rewrite Nat2Z.id.
    rewrite insert_at_Permutation. symmetry. by apply cut_at_Permutation.
  - by rewrite decide_True.
Qed.

Lemma MoveTask_zero (now : Time) (id : TaskID) (e : Estimation.t) :
  Z.of_nat (length (Estimation.Ordering e)) <= int_max ->
  id ∈ Estimation.Ordering e ->
  (Estimation.MoveTask now id 0 e).1 = true
  ∧ Estimation.Ordering (Estimation.MoveTask now id 0 e).2
    = Estimation.Ordering e.
Proof.
  intros Hlen Hin.
  destruct (first_index_elem _ _ Hin) as [i Hi].
  pose proof (first_index_lt _ _ _ Hi) as Hlt.
  apply first_index_Some in Hi as Hl. destruct Hl as [Hl _].
  unfold Estimation.MoveTask. rewrite Hi.
  rewrite decide_False by lia.
  rewrite Z.add_0_r, wrap_int_id by (unfold_int; lia).
  rewrite decide_False by lia. simpl.
  split; [done|]. rewrite Nat2Z.id. by apply insert_at_cut_at.
Qed.

(** C7: a move of an absent identifier, or to an index outside
    [0, length), returns false and changes nothing; a move by 0 of a present
    identifier returns true and keeps the ordering; the first task moved by
    -1 and the last task moved by +1 return false and change nothing. *)
Theorem MoveTask_failure_and_zero (now : Time) (id : TaskID) (offset : Z)
    (e : Estimation.t) :
  is_int offset ->
  Z.of_nat (length (Estimation.Ordering e)) <= int_max ->
  (id ∉ Estimation.Ordering e ->
   Estimation.MoveTask now id offset e = (false, e))
  ∧ (forall i : nat,
       first_index id (Estimation.Ordering e) = Some i ->
       ¬ (0 <= Z.of_nat i + offset
          < Z.of_nat (length (Estimation.Ordering e))) ->
       Estimation.MoveTask now id offset e = (false, e))
  ∧ (id ∈ Estimation.Ordering e ->
     (Estimation.MoveTask now id 0 e).1 = true
     ∧ Estimation.Ordering (Estimation.MoveTask now id 0 e).2
       = Estimation.Ordering e)
  ∧ (forall rest : list TaskID,
       Estimation.Ordering e = id :: rest ->
       Estimation.MoveTask now id (-1) e = (false, e))
  ∧ (forall front : list TaskID,
       Estimation.Ordering e = front ++ [id] -> id ∉ front ->
       Estimation.MoveTask now id 1 e = (false, e)).
Proof.
  intros Hoff Hlen. split; [|split; [|split; [|split]]].
  - apply MoveTask_absent.
  - intros i. by apply MoveTask_out_of_range.
  - by apply MoveTask_zero.
  - intros rest Hord.
    apply (MoveTask_out_of_range now id (-1) e 0%nat);
      [unfold_int; lia | exact Hlen | | lia].
    rewrite Hord. simpl. by rewrite decide_True.
  - intros front Hord Hfront.
    apply (MoveTask_out_of_range now id 1 e (length front));
      [unfold_int; lia | exact Hlen | | ].
    + rewrite Hord. by apply first_index_last.
    + rewrite Hord, length_app. simpl. lia.
Qed.

Lemma MoveTask_failure_and_zero_witness :
  Estimation.MoveTask 104 "zz" 1 abc_estimation = (false, abc_estimation)
  ∧ Estimation.MoveTask 104 "b" 2 abc_estimation = (false, abc_estimation)
  ∧ ((Estimation.MoveTask 104 "b" 0 abc_estimation).1 = true
     ∧ Estimation.Ordering (Estimation.MoveTask 104 "b" 0 abc_estimation).2
       = ["a"; "b"; "c"])
  ∧ Estimation.MoveTask 104 "a" (-1) abc_estimation = (false, abc_estimation)
  ∧ Estimation.MoveTask 104 "c" 1 abc_estimation = (false, abc_estimation).
Proof.
  assert (forall z, -1 <= z <= 2 -> is_int z) as Hint
    by (intros z Hz; unfold_int; lia).
  assert (Z.of_nat (length (Estimation.Ordering abc_estimation)) <= int_max)
    as Hlen by (simpl; unfold_int; lia).
  split; [|split; [|split; [|split]]].
  - apply (MoveTask_failure_and_zero 104 "zz" 1 abc_estimation);
      [apply Hint; lia | exact Hlen | ].
    simpl. intros Hin. by repeat (apply elem_of_cons in Hin as [Hin|Hin]);
      [ | | | apply elem_of_nil in Hin].
  - apply (MoveTask_failure_and_zero 104 "b" 2 abc_estimation)
      with (i := 1%nat);
      [apply Hint; lia | exact Hlen | reflexivity | simpl; lia].
  - apply (MoveTask_failure_and_zero 104 "b" 0 abc_estimation);
      [apply Hint; lia | exact Hlen | ].
    simpl. apply elem_of_cons. right. apply elem_of_cons. by left.
  - apply (MoveTask_failure_and_zero 104 "a" (-1) abc_estimation)
      with (rest := ["b"; "c"]);
      [apply Hint; lia | exact Hlen | reflexivity].
  - apply (MoveTask_failure_and_zero 104 "c" 1 abc_estimation)
      with (front := ["a"; "b"]);
      [apply Hint; lia | exact Hlen | reflexivity | ].
    intros Hin. by repeat (apply elem_of_cons in Hin as [Hin|Hin]);
      [ | | apply elem_of_nil in Hin].
Defined.

(** *** RemoveTask *)

(** Without the identifier in the mapping or in the ordering, [RemoveTask]
    keeps both; it still writes the clock into [UpdatedAt]. *)
Lemma RemoveTask_absent (now : Time) (id : TaskID) (e : Estimation.t) :
  Estimation.Tasks e !! id = None -> id ∉ Estimation.Ordering e ->
  Estimation.Tasks (Estimation.RemoveTask now id e) = Estimation.Tasks e
  ∧ Estimation.Ordering (Estimation.RemoveTask now id e) = Estimation.Ordering e
  ∧ Estimation.UpdatedAt (Estimation.RemoveTask now id e) = now.
Proof.
  intros Hm Hn. apply first_index_None in Hn.
  unfold Estimation.RemoveTask. simpl. rewrite Hn.
  split; [by apply delete_id | done].
Qed.

(** C4, at the failing input: the identifier is in neither structure of the
    estimation, and the call moves [UpdatedAt] from 100 to 200. *)
Theorem RemoveTask_absent_touches_UpdatedAt :
  Estimation.Tasks empty_estimation !! "ghost" = None
  ∧ Estimation.UpdatedAt empty_estimation = 100
  ∧ Estimation.UpdatedAt (Estimation.RemoveTask 200 "ghost" empty_estimation)
    = 200
  ∧ Estimation.RemoveTask 200 "ghost" empty_estimation <> empty_estimation.
Proof.
  split; [done | split; [done | split; [done|]]].
  intros Heq. apply (f_equal Estimation.UpdatedAt) in Heq. simpl in Heq. lia.
Qed.

(** The sibling [UpdateTask] writes the clock only when it finds the task. *)
Lemma UpdateTask_absent (now : Time) (task : Task.t) (e : Estimation.t) :
  Estimation.Tasks e !! Task.ID task = None ->
  Estimation.UpdateTask now task e = e.
Proof. intros Hm. unfold Estimation.UpdateTask. by rewrite Hm. Qed.

(** *** The ordering invariant *)

Lemma consistent_NewEstimation (id : EstimationID) (now : Time)
    (label : string) :
  consistent (Estimation.NewEstimation id now label).
Proof.
  split; simpl; [apply NoDup_nil_2 | by rewrite dom_empty_L].
Qed.

Lemma consistent_elem (e : Estimation.t) (id : TaskID) :
  consistent e ->
  id ∈ Estimation.Ordering e <-> is_Some (Estimation.Tasks e !! id).
Proof.
  intros [_ Hset]. rewrite <- elem_of_dom, <- Hset. by rewrite elem_of_list_to_set.
Qed.

Lemma consistent_AddTask (now : Time) (task : Task.t) (e : Estimation.t) :
  Estimation.Tasks e !! Task.ID task = None ->
  consistent e -> consistent (Estimation.AddTask now task e).
Proof.
  intros Hfresh He. pose proof He as [Hnd Hset].
  assert (Task.ID task ∉ Estimation.Ordering e) as Hn.
  { rewrite (consistent_elem e) by done. rewrite Hfresh. by intros [? ?]. }
  split; simpl.
  - apply NoDup_app. split; [done|]. split; [|apply NoDup_singleton].
    intros x Hx Hx'. apply list_elem_of_singleton in Hx'. by subst x.
  - rewrite list_to_set_app_L, dom_insert_L, Hset. simpl. set_solver.
Qed.

Lemma consistent_RemoveTask (now : Time) (id : TaskID) (e : Estimation.t) :
  consistent e -> consistent (Estimation.RemoveTask now id e).
Proof.
  intros He. pose proof He as [Hnd Hset].
  unfold consistent, Estimation.RemoveTask. simpl.
  rewrite dom_delete_L, <- Hset.
  destruct (first_index id (Estimation.Ordering e)) as [i|] eqn:Hi.
  - apply first_index_Some in Hi as [Hl _].
    pose proof (cut_at_Permutation _ _ _ Hl) as Hperm.
    rewrite Hperm in Hnd. apply NoDup_cons in Hnd as [Hn Hnd'].
    split; [done|].
    rewrite (list_to_set_perm_L _ _ Hperm). simpl.
    set_solver.
  - apply first_index_None in Hi. split; [done|].
    set_solver.
Qed.

Lemma consistent_MoveTask (now : Time) (id : TaskID) (offset : Z)
    (e : Estimation.t) :
  consistent e -> consistent (Estimation.MoveTask now id offset e).2.
Proof.
  intros [Hnd Hset].
  destruct (MoveTask_Permutation now id offset e) as [Hperm Htasks].
  split.
  - by rewrite Hperm.
  - by rewrite (list_to_set_perm_L _ _ Hperm), Htasks.
Qed.

Lemma consistent_run (calls : list Call) (e : Estimation.t) :
  consistent e -> adds_fresh calls e -> consistent (run calls e).
Proof.
  revert e. induction calls as [|c calls IH]; intros e He Hfresh; [done|].
  destruct Hfresh as [Hc Hfresh]. simpl. apply IH; [|done].
  destruct c as [now task|now id|now id offset]; simpl.
  - by apply consistent_AddTask.
  - by apply consistent_RemoveTask.
  - by apply consistent_MoveTask.
Qed.

(** C2: from an empty estimation, any sequence of AddTask with fresh
    identifiers, RemoveTask and MoveTask leaves an ordering without
    duplicates whose set of identifiers is the key set of the mapping. *)
Theorem ordering_matches_tasks (id : EstimationID) (now : Time)
    (label : string) (calls : list Call) :
  adds_fresh calls (Estimation.NewEstimation id now label) ->
  let e := run calls (Estimation.NewEstimation id now label) in
  NoDup (Estimation.Ordering e)
  ∧ list_to_set (Estimation.Ordering e) = dom (Estimation.Tasks e).
Proof.
  intros Hfresh. apply consistent_run; [apply consistent_NewEstimation | done].
Qed.

Lemma ordering_matches_tasks_witness :
  let e :=
    run [CallAddTask 101 task_a; CallAddTask 102 task_b;
         CallMoveTask 103 "b" (-1); CallRemoveTask 104 "a";
         CallAddTask 105 task_c; CallMoveTask 106 "c" 4]
        (Estimation.NewEstimation "e1" 100 "demo") in
  NoDup (Estimation.Ordering e)
  ∧ list_to_set (Estimation.Ordering e) = dom (Estimation.Tasks e).
Proof.
  apply (ordering_matches_tasks "e1" 100 "demo").
  simpl. repeat split; reflexivity.
Defined.
End OrderingFacts.

(** ** Statistics *)

Section StatsFacts.
Local Open Scope R_scope.
Import stats.

Lemma Rsum_app (l1 l2 : list R) : Rsum (l1 ++ l2) = Rsum l1 + Rsum l2.
Proof. induction l1 as [|x l1 IH]; simpl; [lra | rewrite IH; lra]. Qed.

Lemma Rsum_Permutation (l1 l2 : list R) : l1 ≡ₚ l2 -> Rsum l1 = Rsum l2.
Proof. induction 1; simpl; lra. Qed.

Lemma ranges_over_map_to_list {V : Type} (m : gmap string V) :
  ranges_over (map_to_list m) m.
Proof. unfold ranges_over. reflexivity. Qed.

Lemma sum_over_tasks_ranges (f : Task.t -> R) (m : gmap TaskID Task.t)
    (tasks : list (TaskID * Task.t)) :
  ranges_over tasks m -> Rsum (f <$> tasks.*2) = sum_over_tasks f m.
Proof.
  intros Hperm. unfold sum_over_tasks. apply Rsum_Permutation.
  unfold ranges_over in Hperm. by rewrite Hperm.
Qed.

Lemma sum_over_tasks_empty (f : Task.t -> R) : sum_over_tasks f ∅ = 0.
Proof. unfold sum_over_tasks. by rewrite map_to_list_empty. Qed.

Lemma sum_over_tasks_insert (f : Task.t -> R) (m : gmap TaskID Task.t)
    (id : TaskID) (task : Task.t) :
  m !! id = None ->
  sum_over_tasks f (<[id := task]> m) = f task + sum_over_tasks f m.
Proof.
  intros Hm. unfold sum_over_tasks.
  rewrite (Rsum_Permutation _ (f <$> ((id, task) :: map_to_list m).*2)).
  - done.
  - by rewrite map_to_list_insert.
Qed.

Lemma project_loop_from (tasks : list (TaskID * Task.t)) (m0 v0 : R) :
  fold_left project_step tasks (m0, v0)
  = (m0 + Rsum (Task.WeightedMean <$> tasks.*2),
     v0 + Rsum ((fun t => Pow2 (Task.StandardDeviation t)) <$> tasks.*2)).
Proof.
  revert m0 v0. induction tasks as [|[k t] tasks IH]; intros m0 v0; csimpl.
  - f_equal; lra.
  - rewrite IH. f_equal; lra.
Qed.

Lemma category_loop_from (c : string) (tasks : list (TaskID * Task.t))
    (m0 v0 : R) :
  fold_left (category_step c) tasks (m0, v0)
  = (m0 + Rsum ((fun t => if decide (Task.Category t = c)
                          then Task.WeightedMean t else 0) <$> tasks.*2),
     v0 + Rsum ((fun t => if decide (Task.Category t = c)
                          then Pow2 (Task.StandardDeviation t) else 0)
                <$> tasks.*2)).
Proof.
  revert m0 v0. induction tasks as [|[k t] tasks IH]; intros m0 v0; csimpl.
  - f_equal; lra.
  - case_decide; rewrite IH; f_equal; lra.
Qed.

Lemma Task_WeightedMean_pert (t : Task.t) : Task.WeightedMean t = pert_mean t.
Proof. reflexivity. Qed.

Lemma Task_StandardDeviation_pert (t : Task.t) :
  Pow2 (Task.StandardDeviation t) = pert_variance t.
Proof. unfold Pow2, Task.StandardDeviation, pert_variance. simpl. lra. Qed.

Lemma CalculateProjectEstimation_over_sums (tasks : list (TaskID * Task.t))
    (m : gmap TaskID Task.t) :
  ranges_over tasks m ->
  CalculateProjectEstimation_over tasks
  = {| WeightedMean := sum_over_tasks pert_mean m;
       StandardDeviation := sqrt (sum_over_tasks pert_variance m) |}.
Proof.
  intros Hperm. unfold CalculateProjectEstimation_over, project_loop.
  rewrite project_loop_from, !Rplus_0_l.
  rewrite (sum_over_tasks_ranges _ m) by done.
  rewrite (sum_over_tasks_ranges _ m) by done.
  unfold Sqrt. f_equal. f_equal. unfold sum_over_tasks. f_equal.
  apply list_fmap_ext. intros _ t _. apply Task_StandardDeviation_pert.
Qed.

(** The order of the range does not change the project estimation. *)
Lemma CalculateProjectEstimation_any_order (e : Estimation.t)
    (tasks : list (TaskID * Task.t)) :
  ranges_over tasks (Estimation.Tasks e) ->
  CalculateProjectEstimation_over tasks = CalculateProjectEstimation e.
Proof.
  intros Hperm. unfold CalculateProjectEstimation.
  rewrite (CalculateProjectEstimation_over_sums _ (Estimation.Tasks e)) by done.
  rewrite (CalculateProjectEstimation_over_sums _ (Estimation.Tasks e));
    [done | apply ranges_over_map_to_list].
Qed.

(** Nor does it change a category estimation. *)
Lemma CalculateCategoryEstimation_any_order (e : Estimation.t) (c : string)
    (tasks : list (TaskID * Task.t)) :
  ranges_over tasks (Estimation.Tasks e) ->
  CalculateCategoryEstimation_over tasks c = CalculateCategoryEstimation e c.
Proof.
  intros Hperm.
  unfold CalculateCategoryEstimation, CalculateCategoryEstimation_over,
    category_loop.
  rewrite !category_loop_from, !Rplus_0_l.
  rewrite !(sum_over_tasks_ranges _ (Estimation.Tasks e) tasks) by done.
  rewrite !(sum_over_tasks_ranges _ (Estimation.Tasks e) (map_to_list _))
    by apply ranges_over_map_to_list.
  reflexivity.
Qed.

(** C5: whatever the order of the range over the tasks, the project result
    is the sum of (O + 4L + P)/6 and the square root of the sum of
    ((P - O)/6) squared, over all tasks. *)
Theorem CalculateProjectEstimation_formulas (e : Estimation.t)
    (tasks : list (TaskID * Task.t)) :
  ranges_over tasks (Estimation.Tasks e) ->
  CalculateProjectEstimation_over tasks
  = {| WeightedMean := sum_over_tasks pert_mean (Estimation.Tasks e);
       StandardDeviation :=
         sqrt (sum_over_tasks pert_variance (Estimation.Tasks e)) |}
  /\ CalculateProjectEstimation e = CalculateProjectEstimation_over tasks.
Proof.
  intros Hperm. split.
  - by apply CalculateProjectEstimation_over_sums.
  - symmetry. by apply CalculateProjectEstimation_any_order.
Qed.

Lemma CalculateProjectEstimation_formulas_witness :
  CalculateProjectEstimation_over [("t2", task_ops); ("t1", task_dev)]
  = {| WeightedMean :=
         sum_over_tasks pert_mean (Estimation.Tasks dev_ops_estimation);
       StandardDeviation :=
         sqrt (sum_over_tasks pert_variance
                 (Estimation.Tasks dev_ops_estimation)) |}
  /\ CalculateProjectEstimation dev_ops_estimation
     = CalculateProjectEstimation_over [("t2", task_ops); ("t1", task_dev)].
Proof.
  apply (CalculateProjectEstimation_formulas dev_ops_estimation).
  unfold ranges_over. simpl.
  rewrite map_to_list_insert by reflexivity.
  rewrite map_to_list_insert by reflexivity.
  rewrite map_to_list_empty. reflexivity.
Defined.

(** *** Category distribution *)

(** C9: with a project weighted mean of exactly 0 the distribution is
    empty, whatever the configuration and the order of the ranges. *)
Theorem CalculateCategoryDistribution_zero_mean (e : Estimation.t)
    (config : Config.t) (cats : list (string * TaskCategory.t))
    (tasks : list (TaskID * Task.t)) :
  WeightedMean (CalculateProjectEstimation e) = 0 ->
  CalculateCategoryDistribution_over cats tasks e config = []
  /\ CalculateCategoryDistribution e config = [].
Proof.
  intros Hzero.
  unfold CalculateCategoryDistribution, CalculateCategoryDistribution_over.
  cbv zeta. by rewrite !decide_True.
Qed.

Lemma CalculateProjectEstimation_mean (e : Estimation.t) :
  WeightedMean (CalculateProjectEstimation e)
  = sum_over_tasks Task.WeightedMean (Estimation.Tasks e).
Proof.
  unfold CalculateProjectEstimation.
  rewrite (CalculateProjectEstimation_over_sums _ (Estimation.Tasks e))
    by apply ranges_over_map_to_list.
  reflexivity.
Qed.

Lemma CalculateCategoryEstimation_mean (e : Estimation.t) (c : string) :
  WeightedMean (CalculateCategoryEstimation e c)
  = sum_over_tasks
      (fun t => if decide (Task.Category t = c)
                then Task.WeightedMean t else 0)
      (Estimation.Tasks e).
Proof.
  unfold CalculateCategoryEstimation, CalculateCategoryEstimation_over,
    category_loop.
  rewrite category_loop_from, !Rplus_0_l. reflexivity.
Qed.

Lemma CalculateCategoryDistribution_zero_mean_witness :
  CalculateCategoryDistribution_over
    [("dev", Config.GetTaskCategory dev_config "dev")]
    [("c", task_c); ("a", task_a); ("b", task_b)]
    abc_estimation dev_config = []
  /\ CalculateCategoryDistribution abc_estimation dev_config = [].
Proof.
  apply (CalculateCategoryDistribution_zero_mean abc_estimation dev_config).
  rewrite CalculateProjectEstimation_mean. simpl.
  rewrite !sum_over_tasks_insert by reflexivity.
  rewrite sum_over_tasks_empty.
  unfold Task.WeightedMean. simpl. lra.
Defined.

Lemma Rsum_fmap_plus {A : Type} (f g : A -> R) (l : list A) :
  Rsum ((fun x => f x + g x) <$> l) = Rsum (f <$> l) + Rsum (g <$> l).
Proof. induction l as [|x l IH]; csimpl; [lra | rewrite IH; lra]. Qed.

Lemma Rsum_fmap_scale {A : Type} (f : A -> R) (k : R) (l : list A) :
  Rsum ((fun x => f x * k) <$> l) = Rsum (f <$> l) * k.
Proof. induction l as [|x l IH]; csimpl; [lra | rewrite IH; lra]. Qed.

Lemma Rsum_indicator_absent (ids : list string) (k : string) (v : R) :
  k ∉ ids -> Rsum ((fun c => if decide (k = c) then v else 0) <$> ids) = 0.
Proof.
  induction ids as [|c ids IH]; csimpl; intros Hn; [done|].
  apply not_elem_of_cons in Hn as [Hne Hn].
  rewrite decide_False by done. rewrite IH by done. lra.
Qed.

Lemma Rsum_indicator (ids : list string) (k : string) (v : R) :
  NoDup ids -> k ∈ ids ->
  Rsum ((fun c => if decide (k = c) then v else 0) <$> ids) = v.
Proof.
  induction ids as [|c ids IH]; csimpl; intros Hnd Hin.
  - by apply elem_of_nil in Hin.
  - apply NoDup_cons in Hnd as [Hc Hnd].
    case_decide as Hk.
    + subst c. rewrite Rsum_indicator_absent by done. lra.
    + apply elem_of_cons in Hin as [Hin|Hin]; [done|].
      rewrite IH by done. lra.
Qed.

(** Summing per category, over distinct categories that cover the tasks,
    counts every task once. *)
Lemma Rsum_by_category (ids : list string) (ts : list Task.t)
    (f : Task.t -> R) :
  NoDup ids -> (forall t, t ∈ ts -> Task.Category t ∈ ids) ->
  Rsum ((fun c =>
           Rsum ((fun t => if decide (Task.Category t = c) then f t else 0)
                 <$> ts)) <$> ids)
  = Rsum (f <$> ts).
Proof.
  intros Hnd. induction ts as [|t ts IH]; intros Hcov; csimpl.
  - clear. induction ids as [|c ids IH]; csimpl; [done | rewrite IH; lra].
  - rewrite Rsum_fmap_plus.
    rewrite Rsum_indicator; [| done | apply Hcov; left].
    rewrite IH; [done|]. intros t' Ht'. apply Hcov. by right.
Qed.

Lemma seen_insert (seenCategories : gmap string bool) (k c : string) :
  seen (<[k := true]> seenCategories) c
  = if decide (k = c) then true else seen seenCategories c.
Proof.
  unfold seen. case_decide as Hk.
  - subst. by rewrite lookup_insert_eq.
  - by rewrite lookup_insert_ne.
Qed.

Lemma distribution_inv_start (e : Estimation.t) (pe : EstimationResult) :
  distribution_inv e pe ([], ∅).
Proof.
  split; [apply NoDup_nil_2 | split; [|apply Forall_nil_2]].
  intros c. unfold seen. simpl. rewrite lookup_empty. simpl.
  split; [done | intros Hin; by apply elem_of_nil in Hin].
Qed.

(** Appending the entry of a category not seen so far keeps the invariant. *)
Lemma distribution_inv_append (e : Estimation.t) (pe : EstimationResult)
    (ds : list CategoryDistribution) (sn : gmap string bool)
    (c label : string) :
  distribution_inv e pe (ds, sn) -> seen sn c = false ->
  distribution_inv e pe
    (ds ++ [ {| CategoryID := c; CategoryLabel := label;
                Time := WeightedMean (CalculateCategoryEstimation e c);
                Percentage :=
                  percentage_of (CalculateCategoryEstimation e c) pe |} ],
     <[c := true]> sn).
Proof.
  intros (Hnd & Hseen & Hpct) Hc. simpl in *.
  assert (c ∉ CategoryID <$> ds) as Hn.
  { rewrite <- Hseen. by rewrite Hc. }
  split; [|split]; simpl.
  - rewrite fmap_app. apply NoDup_app. split; [done|].
    split; [|apply NoDup_singleton].
    intros x Hx Hx'. apply list_elem_of_singleton in Hx'. by subst x.
  - intros c'. rewrite seen_insert, fmap_app, elem_of_app. csimpl.
    rewrite list_elem_of_singleton, <- Hseen.
    case_decide; [subst; tauto | intuition congruence].
  - apply Forall_app. split; [done|]. by apply Forall_singleton.
Qed.

Lemma configured_loop_inv (e : Estimation.t) (pe : EstimationResult)
    (cats : list (string * TaskCategory.t))
    (acc : list CategoryDistribution * gmap string bool) :
  distribution_inv e pe acc -> NoDup cats.*1 ->
  (forall c, c ∈ cats.*1 -> seen acc.2 c = false) ->
  distribution_inv e pe (fold_left (configured_step e pe) cats acc).
Proof.
  revert acc. induction cats as [|[catID cat] cats IH];
    intros [ds sn] Hinv Hnd Hfresh; csimpl in *; [done|].
  apply NoDup_cons in Hnd as [Hc Hnd].
  apply IH; [|done|].
  - apply distribution_inv_append; [done|]. apply Hfresh. left.
  - intros c Hin. simpl. rewrite seen_insert.
    rewrite decide_False by (intros ->; done).
    apply Hfresh. by right.
Qed.

Lemma unconfigured_step_inv (e : Estimation.t) (config : Config.t)
    (pe : EstimationResult)
    (acc : list CategoryDistribution * gmap string bool)
    (entry : TaskID * Task.t) :
  distribution_inv e pe acc ->
  distribution_inv e pe (unconfigured_step e config pe acc entry)
  ∧ seen (unconfigured_step e config pe acc entry).2
         (Task.Category entry.2) = true
  ∧ (forall c, seen acc.2 c = true ->
               seen (unconfigured_step e config pe acc entry).2 c = true).
Proof.
  destruct acc as [ds sn]. intros Hinv. unfold unconfigured_step.
  destruct (seen sn (Task.Category entry.2)) eqn:Hs; simpl.
  - done.
  - split; [by apply distribution_inv_append|].
    split; [by rewrite seen_insert, decide_True|].
    intros c Hc. rewrite seen_insert. by case_decide.
Qed.

Lemma unconfigured_loop_inv (e : Estimation.t) (config : Config.t)
    (pe : EstimationResult) (tasks : list (TaskID * Task.t))
    (acc : list CategoryDistribution * gmap string bool) :
  distribution_inv e pe acc ->
  distribution_inv e pe (fold_left (unconfigured_step e config pe) tasks acc)
  ∧ (forall c, seen acc.2 c = true ->
       seen (fold_left (unconfigured_step e config pe) tasks acc).2 c = true)
  ∧ (forall entry, entry ∈ tasks ->
       seen (fold_left (unconfigured_step e config pe) tasks acc).2
            (Task.Category entry.2) = true).
Proof.
  revert acc. induction tasks as [|entry tasks IH]; intros acc Hinv; simpl.
  - split; [done|]. split; [done|].
    intros entry Hin. by apply elem_of_nil in Hin.
  - destruct (unconfigured_step_inv e config pe acc entry Hinv)
      as (Hinv' & Hself & Hmono).
    destruct (IH _ Hinv') as (Hfinal & Hmono' & Hcover).
    split; [done|]. split; [by auto|].
    intros entry' Hin. apply elem_of_cons in Hin as [->|Hin]; by auto.
Qed.

Lemma configured_loop_ids (e : Estimation.t) (pe : EstimationResult)
    (cats : list (string * TaskCategory.t))
    (acc : list CategoryDistribution * gmap string bool) :
  CategoryID <$> (fold_left (configured_step e pe) cats acc).1
  = (CategoryID <$> acc.1) ++ cats.*1.
Proof.
  revert acc. induction cats as [|[catID cat] cats IH]; intros [ds sn]; csimpl.
  - by rewrite app_nil_r.
  - rewrite IH. csimpl. rewrite fmap_app, <- app_assoc. done.
Qed.

Lemma unconfigured_loop_ids (e : Estimation.t) (config : Config.t)
    (pe : EstimationResult) (tasks : list (TaskID * Task.t))
    (acc : list CategoryDistribution * gmap string bool) :
  exists extra : list string,
    CategoryID <$> (fold_left (unconfigured_step e config pe) tasks acc).1
    = (CategoryID <$> acc.1) ++ extra
    ∧ forall c, c ∈ extra ->
        exists entry, entry ∈ tasks ∧ Task.Category entry.2 = c.
Proof.
  revert acc. induction tasks as [|entry tasks IH]; intros [ds sn]; csimpl.
  - exists []. rewrite app_nil_r. split; [done|].
    intros c Hc. by apply elem_of_nil in Hc.
  - destruct (seen sn (Task.Category entry.2)); simpl.
    + destruct (IH (ds, sn)) as (extra & Hids & Hextra).
      exists extra. split; [done|].
      intros c Hc. destruct (Hextra c Hc) as (entry' & Hin & Hcat).
      exists entry'. split; [by right | done].
    + match goal with
      | |- context [fold_left _ tasks ?acc'] =>
          destruct (IH acc') as (extra & Hids & Hextra)
      end.
      exists (Task.Category entry.2 :: extra). split.
      * rewrite Hids. csimpl. rewrite fmap_app, <- app_assoc. done.
      * intros c Hc. apply elem_of_cons in Hc as [->|Hc].
        -- exists entry. split; [by left | done].
        -- destruct (Hextra c Hc) as (entry' & Hin & Hcat).
           exists entry'. split; [by right | done].
Qed.

(** C6, amended: in exact real arithmetic, with a strictly positive project
    weighted mean, the percentages of the distribution sum to 100, whatever
    the order in which the two loops range over the configured categories
    and over the tasks.  The entries have distinct categories: the
    configured ones first, then categories of tasks, and every task finds
    its category among them. *)
Theorem CalculateCategoryDistribution_percentages (e : Estimation.t)
    (config : Config.t) (cats : list (string * TaskCategory.t))
    (tasks : list (TaskID * Task.t)) :
  ranges_over cats (Config.TaskCategories config) ->
  ranges_over tasks (Estimation.Tasks e) ->
  0 < WeightedMean (CalculateProjectEstimation e) ->
  let out := CalculateCategoryDistribution_over cats tasks e config in
  Rsum (Percentage <$> out) = 100
  ∧ NoDup (CategoryID <$> out)
  ∧ (exists extra : list string,
       CategoryID <$> out = cats.*1 ++ extra
       ∧ forall c, c ∈ extra ->
           exists k t, Estimation.Tasks e !! k = Some t
                       ∧ Task.Category t = c)
  ∧ (forall k t, Estimation.Tasks e !! k = Some t ->
                 Task.Category t ∈ CategoryID <$> out).
Proof.
  intros Hcats Htasks Hpos.
  unfold CalculateCategoryDistribution_over. cbv zeta.
  rewrite decide_False by lra.
  set (pe := CalculateProjectEstimation e) in *.
  set (acc1 := fold_left (configured_step e pe) cats ([], ∅)).
  assert (distribution_inv e pe acc1) as Hinv1.
  { apply configured_loop_inv.
    - apply distribution_inv_start.
    - unfold ranges_over in Hcats. rewrite Hcats.
      apply NoDup_fst_map_to_list.
    - intros c _. unfold seen. simpl. by rewrite lookup_empty. }
  destruct (unconfigured_loop_inv e config pe tasks acc1 Hinv1)
    as ((Hnd & Hseen & Hpct) & _ & Hcover).
  destruct (unconfigured_loop_ids e config pe tasks acc1)
    as (extra & Hids & Hextra).
  unfold acc1 in Hids at 2. rewrite configured_loop_ids in Hids.
  set (out := (fold_left (unconfigured_step e config pe) tasks acc1).1) in *.
  assert (forall k t, Estimation.Tasks e !! k = Some t ->
                      Task.Category t ∈ CategoryID <$> out) as Hall.
  { intros k t Hkt. apply Hseen. apply (Hcover (k, t)).
    unfold ranges_over in Htasks. by rewrite Htasks, elem_of_map_to_list. }
  split; [|split; [done|split; [|done]]].
  - assert (Percentage <$> out
            = (fun c => WeightedMean (CalculateCategoryEstimation e c)
                        * (100 / WeightedMean pe)) <$> (CategoryID <$> out))
      as ->.
    { rewrite <- list_fmap_compose. apply Forall_fmap_ext_1.
      eapply Forall_impl; [exact Hpct|]. intros d Hd. simpl. rewrite Hd.
      unfold percentage_of. rewrite decide_True by lra. field. lra. }
    rewrite Rsum_fmap_scale.
    assert (Rsum ((fun c => WeightedMean (CalculateCategoryEstimation e c))
                  <$> (CategoryID <$> out))
            = WeightedMean pe) as ->.
    { unfold pe. rewrite CalculateProjectEstimation_mean.
      erewrite list_fmap_ext;
        [| intros i c _; apply CalculateCategoryEstimation_mean].
      unfold sum_over_tasks. apply Rsum_by_category; [done|].
      intros t Ht.
      apply list_elem_of_fmap in Ht as ([k t'] & -> & Hin).
      apply (Hall k). by apply elem_of_map_to_list. }
    field. lra.
  - exists extra. split; [exact Hids|].
    intros c Hc. destruct (Hextra c Hc) as ([k t] & Hin & Hcat).
    exists k, t. split; [|done].
    unfold ranges_over in Htasks. by rewrite Htasks, elem_of_map_to_list in Hin.
Qed.

Lemma CalculateCategoryDistribution_percentages_witness :
  let out :=
    CalculateCategoryDistribution_over
      [("dev", Config.GetTaskCategory dev_config "dev")]
      [("t2", task_ops); ("t1", task_dev)]
      dev_ops_estimation dev_config in
  Rsum (Percentage <$> out) = 100
  ∧ NoDup (CategoryID <$> out)
  ∧ (exists extra : list string,
       CategoryID <$> out = ["dev"] ++ extra
       ∧ forall c, c ∈ extra ->
           exists k t, Estimation.Tasks dev_ops_estimation !! k = Some t
                       ∧ Task.Category t = c)
  ∧ (forall k t, Estimation.Tasks dev_ops_estimation !! k = Some t ->
                 Task.Category t ∈ CategoryID <$> out).
Proof.
  apply (CalculateCategoryDistribution_percentages dev_ops_estimation
           dev_config [("dev", Config.GetTaskCategory dev_config "dev")]).
  - unfold ranges_over. simpl. by rewrite map_to_list_singleton.
  - unfold ranges_over. simpl.
    rewrite map_to_list_insert by reflexivity.
    rewrite map_to_list_insert by reflexivity.
    rewrite map_to_list_empty. reflexivity.
  - rewrite CalculateProjectEstimation_mean. simpl.
    rewrite !sum_over_tasks_insert by reflexivity.
    rewrite sum_over_tasks_empty.
    unfold Task.WeightedMean. simpl. lra.
Defined.
End StatsFacts.

(** ** The program on binary64 *)

Section Binary64Facts.
Import PrimFloat SpecFloat.
Local Open Scope float_scope.

(** The value of a binary64 constant, as a quotient of two integers. *)
Ltac binary64_value x :=
  let sf := eval vm_compute in (FloatOps.Prim2SF x) in
  lazymatch sf with
  | S754_finite ?s ?m ?e =>
      let n := eval vm_compute in
        ((if s then Z.neg m else Z.pos m) * 2 ^ Z.max 0 e)%Z in
      let d := eval vm_compute in (2 ^ Z.max 0 (- e))%Z in
      replace (binary64.to_R x) with (IZR n / IZR d)%R
        by (unfold binary64.to_R;
            replace (FloatOps.Prim2SF x) with sf by (vm_compute; reflexivity);
            reflexivity)
  end.

(** Only the optimistic value given, on binary64: the repair pass, where it
    applies, derives the same two values again. *)
Lemma SetEstimations_only_optimistic_binary64 (t : binary64.Task.t)
    (o m : float) :
  (0 <? o) = true ->
  binary64.Task.Estimations (binary64.Task.SetEstimations t o 0 0 m)
  = {| binary64.Optimistic := o;
       binary64.Likely := binary64.Ceil (o * (1 + m));
       binary64.Pessimistic :=
         binary64.Ceil (binary64.Ceil (o * (1 + m)) * (1 + m)) |}.
Proof.
  intros Ho.
  unfold binary64.Task.SetEstimations, binary64.Task.autofill,
    binary64.Task.propagate.
  rewrite Ho. change (0 =? 0) with true. cbn [andb].
  destruct (_ && _), (_ && _); reflexivity.
Qed.

(** Only the likely value given, on binary64, when the likely value is not
    at or below the optimistic value derived from it. *)
Lemma SetEstimations_only_likely_binary64 (t : binary64.Task.t)
    (l m : float) :
  (0 <? l) = true ->
  let o := binary64.Floor (l * (1 - m)) in
  let o := if o <? 0 then 0 else o in
  (l <=? o) = false ->
  binary64.Task.Estimations (binary64.Task.SetEstimations t 0 l 0 m)
  = {| binary64.Optimistic := o;
       binary64.Likely := l;
       binary64.Pessimistic := binary64.Ceil (l * (1 + m)) |}.
Proof.
  intros Hl o o' Hlo. subst o o'.
  unfold binary64.Task.SetEstimations, binary64.Task.autofill,
    binary64.Task.propagate.
  change (0 <? 0) with false. rewrite Hl. change (0 =? 0) with true.
  cbn [andb]. rewrite Hl, Hlo. cbn [andb].
  destruct (_ && _); reflexivity.
Qed.

(** Values of the program that exact arithmetic does not give: a multiplier
    so small that 1 + m is 1 leaves equal values equal, a product is rounded
    before its ceiling is taken, and the mean of three equal values can fall
    below them. *)
Lemma binary64_rounding_examples :
  (1 + 1e-17 =? 1) = true
  /\ binary64.Task.Estimations
       (binary64.Task.SetEstimations binary64.sample_task 5 0 0 1e-17)
     = {| binary64.Optimistic := 5; binary64.Likely := 5;
          binary64.Pessimistic := 5 |}
  /\ binary64.Task.Estimations
       (binary64.Task.SetEstimations binary64.sample_task 0 10 5 0.9)
     = {| binary64.Optimistic := 0; binary64.Likely := 10;
          binary64.Pessimistic := 19 |}
  /\ binary64.Task.WeightedMean binary64.task_tenths = 0.09999999999999999.
Proof. repeat split; vm_compute; reflexivity. Qed.

(** C8 as stated fails.  With O = 100 and m = 0.1 the program stores
    L = 111, where the ceiling of 100 times 1.1 is 110: the sum 1 + 0.1 and
    the product are rounded first.  The rule is not exact on the binary64
    values of the inputs either: with O = 10 the program stores L = 11,
    where the exact product of these values has ceiling 12.  Nor is the
    likely value kept for every multiplier: with only L = 10 given and
    m = -0.5 the derived optimistic value is 15 and the repair pass replaces
    L, the program stores (15, 8, 4). *)
Lemma SetEstimations_single_value_counterexample :
  let stored :=
    binary64.Task.Estimations
      (binary64.Task.SetEstimations binary64.sample_task 100 0 0 0.1) in
  let stored' :=
    binary64.Task.Estimations
      (binary64.Task.SetEstimations binary64.sample_task 10 0 0 0.1) in
  stored
  = {| binary64.Optimistic := 100; binary64.Likely := 111;
       binary64.Pessimistic := 123 |}
  /\ F64.Ceil (100 * (1 + 0.1))%R = 110%R
  /\ binary64.to_R (binary64.Likely stored) <> F64.Ceil (100 * (1 + 0.1))%R
  /\ stored'
     = {| binary64.Optimistic := 10; binary64.Likely := 11;
          binary64.Pessimistic := 13 |}
  /\ F64.Ceil (binary64.to_R 10 * (1 + binary64.to_R 0.1))%R = 12%R
  /\ binary64.to_R (binary64.Likely stored')
     <> F64.Ceil (binary64.to_R 10 * (1 + binary64.to_R 0.1))%R
  /\ binary64.Task.Estimations
       (binary64.Task.SetEstimations binary64.sample_task 0 10 0 (-0.5))
     = {| binary64.Optimistic := 15; binary64.Likely := 8;
          binary64.Pessimistic := 4 |}.
Proof.
  cbv zeta.
  assert (binary64.Task.Estimations
            (binary64.Task.SetEstimations binary64.sample_task 100 0 0 0.1)
          = {| binary64.Optimistic := 100; binary64.Likely := 111;
               binary64.Pessimistic := 123 |}) as Hrun
    by (vm_compute; reflexivity).
  assert (binary64.Task.Estimations
            (binary64.Task.SetEstimations binary64.sample_task 10 0 0 0.1)
          = {| binary64.Optimistic := 10; binary64.Likely := 11;
               binary64.Pessimistic := 13 |}) as Hrun'
    by (vm_compute; reflexivity).
  assert (F64.Ceil (100 * (1 + 0.1))%R = 110%R) as Hrule
    by (apply (Ceil_unique _ 110); lra).
  assert (F64.Ceil (binary64.to_R 10 * (1 + binary64.to_R 0.1))%R = 12%R)
    as Hrule'.
  { binary64_value 10. binary64_value 0.1.
    apply (Ceil_unique _ 12); lra. }
  rewrite Hrun, Hrun', Hrule, Hrule'. cbn [binary64.Likely].
  binary64_value 111. binary64_value 11.
  split; [reflexivity|]. split; [reflexivity|]. split; [lra|].
  split; [reflexivity|]. split; [reflexivity|]. split; [lra|].
  vm_compute. reflexivity.
Qed.

(** C8, amended: the single-value rules with every sum and product the
    binary64 one, rounded before the ceiling or the floor is taken.  Only
    O > 0 given: L = ceil(O(1+m)) and P = ceil(L(1+m)), for every
    multiplier.  Only L > 0 given: O = floor(L(1-m)) clamped at 0 and
    P = ceil(L(1+m)), when L is not at or below that O.  The same rules hold
    in exact real arithmetic, the second one for every positive multiplier.
    In both arithmetics O = 4 with m = 0.33 gives L = 6 and P = 8, and
    L = 10 with m = 0.33 gives O = 6 and P = 14. *)
Theorem SetEstimations_single_value_rules (t : Task.t)
    (t64 : binary64.Task.t) :
  (forall o m : float, (0 <? o) = true ->
     binary64.Task.Estimations (binary64.Task.SetEstimations t64 o 0 0 m)
     = {| binary64.Optimistic := o;
          binary64.Likely := binary64.Ceil (o * (1 + m));
          binary64.Pessimistic :=
            binary64.Ceil (binary64.Ceil (o * (1 + m)) * (1 + m)) |})
  /\ (forall l m : float, (0 <? l) = true ->
        let o := binary64.Floor (l * (1 - m)) in
        let o := if o <? 0 then 0 else o in
        (l <=? o) = false ->
        binary64.Task.Estimations (binary64.Task.SetEstimations t64 0 l 0 m)
        = {| binary64.Optimistic := o;
             binary64.Likely := l;
             binary64.Pessimistic := binary64.Ceil (l * (1 + m)) |})
  /\ binary64.Task.Estimations (binary64.Task.SetEstimations t64 4 0 0 0.33)
     = {| binary64.Optimistic := 4; binary64.Likely := 6;
          binary64.Pessimistic := 8 |}
  /\ binary64.Task.Estimations (binary64.Task.SetEstimations t64 0 10 0 0.33)
     = {| binary64.Optimistic := 6; binary64.Likely := 10;
          binary64.Pessimistic := 14 |}
  /\ (forall o m : R, (0 < o)%R ->
        Task.Estimations (Task.SetEstimations t o 0 0 m)
        = {| Optimistic := o;
             Likely := F64.Ceil (o * (1 + m));
             Pessimistic :=
               F64.Ceil (F64.Ceil (o * (1 + m)) * (1 + m)) |}%R)
  /\ (forall l m : R, (0 < l)%R -> (0 < m)%R ->
        Task.Estimations (Task.SetEstimations t 0 l 0 m)
        = {| Optimistic := Rmax 0 (F64.Floor (l * (1 - m)));
             Likely := l;
             Pessimistic := F64.Ceil (l * (1 + m)) |}%R)
  /\ Task.Estimations (Task.SetEstimations t 4 0 0 0.33)
     = {| Optimistic := 4; Likely := 6; Pessimistic := 8 |}%R
  /\ Task.Estimations (Task.SetEstimations t 0 10 0 0.33)
     = {| Optimistic := 6; Likely := 10; Pessimistic := 14 |}%R.
Proof.
  split; [intros o m Ho; by apply SetEstimations_only_optimistic_binary64|].
  split.
  { intros l m Hl o o' Hlo. by apply SetEstimations_only_likely_binary64. }
  split; [vm_compute; reflexivity|].
  split; [vm_compute; reflexivity|].
  split; [intros o m Ho; by apply SetEstimations_only_optimistic|].
  split; [intros l m Hl Hm; by apply SetEstimations_only_likely|].
  split.
  - rewrite SetEstimations_only_optimistic by lra.
    rewrite (Ceil_unique (4 * (1 + 0.33)) 6) by lra.
    rewrite (Ceil_unique (6 * (1 + 0.33)) 8) by lra.
    reflexivity.
  - rewrite SetEstimations_only_likely by lra.
    rewrite (Floor_unique (10 * (1 - 0.33)) 6) by lra.
    rewrite (Ceil_unique (10 * (1 + 0.33)) 14) by lra.
    rewrite Rmax_right by lra. reflexivity.
Qed.

Lemma SetEstimations_single_value_rules_witness :
  binary64.Task.Estimations
    (binary64.Task.SetEstimations binary64.sample_task 0 8 0 0.5)
  = {| binary64.Optimistic := 4; binary64.Likely := 8;
       binary64.Pessimistic := 12 |}
  /\ Task.Estimations (Task.SetEstimations sample_task 0 8 0 0.5)
     = {| Optimistic := 4; Likely := 8; Pessimistic := 12 |}%R.
Proof.
  destruct (SetEstimations_single_value_rules sample_task binary64.sample_task)
    as (_ & Hl64 & _ & _ & _ & Hl & _).
  split.
  - rewrite (Hl64 8 0.5) by (vm_compute; reflexivity).
    vm_compute. reflexivity.
  - rewrite (Hl 8 0.5)%R by lra.
    rewrite (Floor_unique (8 * (1 - 0.5)) 4) by lra.
    rewrite (Ceil_unique (8 * (1 + 0.5)) 12) by lra.
    rewrite Rmax_right by lra. reflexivity.
Defined.

(** C6 as stated fails.  For one task (2,4,6) of the configured category
    dev and one task (1,2,3) of category ops the project mean is 6 and the
    program returns the percentages 66.66666666666666 and 33.33333333333333,
    in either order of the range over the tasks; their sum is
    99.99999999999999 when added as binary64 numbers and is not 100 when
    added exactly. *)
Lemma CalculateCategoryDistribution_percentages_counterexample :
  let d :=
    binary64.stats.CalculateCategoryDistribution_over
      [("dev", binary64.dev_category)] binary64.dev_ops_tasks
      binary64.dev_categories in
  binary64.stats.WeightedMean
    (binary64.stats.CalculateProjectEstimation binary64.dev_ops_tasks) = 6
  /\ (0 <? binary64.stats.WeightedMean
             (binary64.stats.CalculateProjectEstimation
                binary64.dev_ops_tasks)) = true
  /\ binary64.stats.Percentage <$> d
     = [66.66666666666666; 33.33333333333333]
  /\ binary64.stats.CalculateCategoryDistribution_over
       [("dev", binary64.dev_category)] (reverse binary64.dev_ops_tasks)
       binary64.dev_categories = d
  /\ binary64.sum (binary64.stats.Percentage <$> d) = 99.99999999999999
  /\ Rsum (binary64.to_R <$> (binary64.stats.Percentage <$> d)) <> 100%R.
Proof.
  cbv zeta.
  assert (binary64.stats.Percentage <$>
            binary64.stats.CalculateCategoryDistribution_over
              [("dev", binary64.dev_category)] binary64.dev_ops_tasks
              binary64.dev_categories
          = [66.66666666666666; 33.33333333333333]) as Hrun
    by (vm_compute; reflexivity).
  split; [vm_compute; reflexivity|].
  split; [vm_compute; reflexivity|].
  split; [exact Hrun|].
  split; [vm_compute; reflexivity|].
  rewrite Hrun.
  split; [vm_compute; reflexivity|].
  cbn [fmap list_fmap Rsum fold_right].
  binary64_value 66.66666666666666.
  binary64_value 33.33333333333333.
  lra.
Qed.
End Binary64Facts.


(** * Further properties *)

(** ** Tasks: validation and the coherency setter *)

Section TaskFacts.
Local Open Scope R_scope.

(** Name every rounded term and record its bounds, keeping its value. *)
Ltac name_rounding :=
  repeat match goal with
  | |- context [Ceil ?x] =>
      let c := fresh "c" in
      pose proof (Ceil_bounds x);
      set (c := Ceil x) in *
  | |- context [Floor ?x] =>
      let f := fresh "f" in
      pose proof (Floor_bounds x); pose proof (Floor_nonneg x);
      set (f := Floor x) in *
  | H : context [Ceil ?x] |- _ =>
      let c := fresh "c" in
      pose proof (Ceil_bounds x);
      set (c := Ceil x) in *
  | H : context [Floor ?x] |- _ =>
      let f := fresh "f" in
      pose proof (Floor_bounds x); pose proof (Floor_nonneg x);
      set (f := Floor x) in *
  end.

Ltac forget_rounding :=
  repeat match goal with
  | |- context [Ceil ?x] =>
      let c := fresh "c" in
      pose proof (Ceil_bounds x);
      set (c := Ceil x) in *; clearbody c
  | |- context [Floor ?x] =>
      let f := fresh "f" in
      pose proof (Floor_bounds x); pose proof (Floor_nonneg x);
      set (f := Floor x) in *; clearbody f
  | H : context [Ceil ?x] |- _ =>
      let c := fresh "c" in
      pose proof (Ceil_bounds x);
      set (c := Ceil x) in *; clearbody c
  | H : context [Floor ?x] |- _ =>
      let f := fresh "f" in
      pose proof (Floor_bounds x); pose proof (Floor_nonneg x);
      set (f := Floor x) in *; clearbody f
  end.

Ltac run_locals :=
  unfold Task.autofill, Task.propagate; repeat (case_decide; simpl).

(** [Validate] reports nothing exactly on the non-negative ordered
    triples. *)
Theorem Validate_nil_iff (t : Task.t) :
  Task.Validate t = []
  <-> 0 <= Optimistic (Task.Estimations t)
      /\ Optimistic (Task.Estimations t) <= Likely (Task.Estimations t)
      /\ Likely (Task.Estimations t) <= Pessimistic (Task.Estimations t).
Proof.
  unfold Task.Validate.
  repeat (case_decide; simpl); split;
    first [ intros Hnil; discriminate Hnil
          | intros Hnil; repeat split; lra
          | intros (HO & HL & HP); first [reflexivity | exfalso; lra] ].
Qed.

(** With a positive optimistic or likely input the locals come out
    strictly increasing. *)
Lemma locals_strictly_increasing (o l p m o' l' p' : R) :
  0 <= o -> 0 <= l -> 0 <= p -> 0 < o \/ 0 < l -> 0 < m < 1 ->
  (let '(o1, l1, p1) := Task.autofill o l p m in
   Task.propagate o1 l1 p1 m) = (o', l', p') ->
  o' < l' /\ l' < p'.
Proof.
  intros Ho Hl Hp Hpos Hm.
  run_locals; intros [= <- <- <-]; forget_rounding.
  all: destruct Hpos; split; nra.
Qed.

(** In exact real arithmetic, with a positive optimistic or likely input
    the stored triple is strictly increasing, so the task has a positive
    standard deviation. *)
Theorem SetEstimations_strictly_increasing (t : Task.t) (o l p m : R) :
  0 <= o -> 0 <= l -> 0 <= p -> 0 < o \/ 0 < l -> 0 < m < 1 ->
  let t' := Task.SetEstimations t o l p m in
  Optimistic (Task.Estimations t') < Likely (Task.Estimations t')
  /\ Likely (Task.Estimations t') < Pessimistic (Task.Estimations t')
  /\ 0 < Task.StandardDeviation t'.
Proof.
  intros Ho Hl Hp Hpos Hm.
  destruct (SetEstimations_locals t o l p m) as (o' & l' & p' & Hrun & Heq).
  cbv zeta. unfold Task.StandardDeviation. rewrite Heq. simpl.
  destruct (locals_strictly_increasing o l p m o' l' p' Ho Hl Hp Hpos Hm Hrun)
    as [Hol Hlp].
  repeat split; lra.
Qed.

Lemma SetEstimations_strictly_increasing_witness :
  let t' := Task.SetEstimations sample_task 0 3 1 0.5 in
  Optimistic (Task.Estimations t') < Likely (Task.Estimations t')
  /\ Likely (Task.Estimations t') < Pessimistic (Task.Estimations t')
  /\ 0 < Task.StandardDeviation t'.
Proof.
  apply (SetEstimations_strictly_increasing sample_task 0 3 1 0.5); lra.
Defined.

(** A likely input above the optimistic one is stored as it is. *)
Theorem SetEstimations_keeps_likely (t : Task.t) (o l p m : R) :
  0 < l -> o < l -> 0 < m ->
  Likely (Task.Estimations (Task.SetEstimations t o l p m)) = l.
Proof.
  intros Hl Hol Hm.
  destruct (SetEstimations_locals t o l p m) as (o' & l' & p' & Hrun & ->).
  simpl. revert Hrun.
  run_locals; intros [= <- <- <-]; try reflexivity; exfalso;
    forget_rounding; nra.
Qed.

Lemma SetEstimations_keeps_likely_witness :
  Likely (Task.Estimations (Task.SetEstimations sample_task 0 7 2 0.25)) = 7.
Proof.
  apply (SetEstimations_keeps_likely sample_task 0 7 2 0.25); lra.
Defined.

(** A positive pessimistic input above the likely value that is stored is
    stored as it is, whatever the other inputs and the multiplier are.  With
    a positive multiplier the pessimistic value stored is never below that
    input nor below the likely value stored: where the input does not
    exceed the latter, the repair derives it upwards from it. *)
Theorem SetEstimations_pessimistic (t : Task.t) (o l p m : R) :
  0 < p ->
  let e := Task.Estimations (Task.SetEstimations t o l p m) in
  (Likely e < p -> Pessimistic e = p)
  /\ (0 < m -> p <= Pessimistic e /\ Likely e <= Pessimistic e).
Proof.
  intros Hp.
  destruct (SetEstimations_locals t o l p m) as (o' & l' & p' & Hrun & ->).
  simpl. revert Hrun.
  run_locals; intros [= <- <- <-]; (split; [intros Hlt|intros Hm]);
    try reflexivity; try (exfalso; lra); forget_rounding; nra.
Qed.

Lemma SetEstimations_pessimistic_witness :
  let e := Task.Estimations (Task.SetEstimations sample_task 1 3 5 0.5) in
  Pessimistic e = 5.
Proof.
  apply (SetEstimations_pessimistic sample_task 1 3 5 0.5); [lra|].
  unfold Task.SetEstimations, Task.autofill, Task.propagate.
  repeat (case_decide; simpl); lra.
Defined.

(** Only the pessimistic value given: the likely and the optimistic one are
    derived downwards, the optimistic one clamped at 0; no value is repaired.
    The likely value can come out as 0. *)
Theorem SetEstimations_only_pessimistic (t : Task.t) (p m : R) :
  0 < p -> 0 < m < 1 ->
  Task.Estimations (Task.SetEstimations t 0 0 p m)
  = {| Optimistic := Rmax 0 (Floor (Floor (p * (1 - m)) * (1 - m)));
       Likely := Floor (p * (1 - m));
       Pessimistic := p |}.
Proof.
  intros Hp Hm.
  pose proof (Floor_bounds (p * (1 - m))) as Hl.
  pose proof (Floor_nonneg (p * (1 - m))) as Hl0.
  pose proof (Floor_bounds (Floor (p * (1 - m)) * (1 - m))) as Ho.
  pose proof (Floor_nonneg (Floor (p * (1 - m)) * (1 - m))) as Ho0.
  rewrite Rmax_right by nra.
  unfold Task.SetEstimations. run_locals; try reflexivity; exfalso; nra.
Qed.

Lemma SetEstimations_only_pessimistic_witness :
  Task.Estimations (Task.SetEstimations sample_task 0 0 1 0.33)
  = {| Optimistic := Rmax 0 (Floor (Floor (1 * (1 - 0.33)) * (1 - 0.33)));
       Likely := Floor (1 * (1 - 0.33));
       Pessimistic := 1 |}.
Proof.
  apply (SetEstimations_only_pessimistic sample_task 1 0.33); lra.
Defined.

Lemma SetEstimations_of_locals (t : Task.t) (o l p m o' l' p' : R) :
  (let '(o1, l1, p1) := Task.autofill o l p m in
   Task.propagate o1 l1 p1 m) = (o', l', p') ->
  Task.SetEstimations t o l p m
  = {| Task.ID := Task.ID t; Task.Label := Task.Label t;
       Task.Description := Task.Description t;
       Task.Category := Task.Category t;
       Task.Estimations :=
         {| Optimistic := o'; Likely := l'; Pessimistic := p' |} |}.
Proof.
  unfold Task.SetEstimations.
  destruct (Task.autofill o l p m) as [[o1 l1] p1].
  destruct (Task.propagate o1 l1 p1 m) as [[o2 l2] p2].
  by intros [= -> -> ->].
Qed.

(** The setter returns a settled triple as it is. *)
Lemma settled_fixed (o l p m : R) :
  0 < m < 1 -> settled o l p m ->
  (let '(o1, l1, p1) := Task.autofill o l p m in
   Task.propagate o1 l1 p1 m) = (o, l, p).
Proof.
  intros Hm [(Ho & Hol & Hlp)|[(Ho & Hl & Hlp & Hf)|[(Ho & Hl & Hp & Hf)
            |(Ho & Hl & Hp)]]].
  - run_locals; try reflexivity; exfalso; lra.
  - pose proof (Floor_nonneg (l * (1 - m))) as Hf0.
    assert (Floor (l * (1 - m)) = 0) as Hz by nra.
    run_locals; rewrite ?Hz in *; subst; try reflexivity; exfalso; lra.
  - assert (Floor (0 * (1 - m)) = 0) as Hz
      by (apply (Floor_unique _ 0); lra).
    subst o l.
    run_locals; rewrite ?Hf, ?Hz in *; try reflexivity; exfalso;
      try lra.
  - subst. run_locals; try reflexivity; exfalso; lra.
Qed.


(** The locals after the setter, when the optimistic input is missing and
    the likely one is given. *)
Lemma locals_from_likely (l p m o' l' p' : R) :
  0 < l -> 0 <= p -> 0 < m < 1 ->
  (let '(o1, l1, p1) := Task.autofill 0 l p m in
   Task.propagate o1 l1 p1 m) = (o', l', p') ->
  o' = Rmax 0 (Floor (l * (1 - m))) /\ l' = l /\ l < p'.
Proof.
  intros Hl Hp Hm.
  pose proof (Floor_bounds (l * (1 - m))) as Hf.
  assert (0 <= Floor (l * (1 - m))) as Hf0 by (apply Floor_nonneg; nra).
  pose proof (Ceil_bounds (l * (1 + m))) as Hc.
  assert (Floor (l * (1 - m)) < l) as Hfl by nra.
  assert (l < Ceil (l * (1 + m))) as Hcl by nra.
  rewrite Rmax_right by lra.
  run_locals; intros [= <- <- <-]; repeat split; try reflexivity; lra.
Qed.

(** The same when only the pessimistic input is given. *)
Lemma locals_from_pessimistic (p m o' l' p' : R) :
  0 < p -> 0 < m < 1 ->
  (let '(o1, l1, p1) := Task.autofill 0 0 p m in
   Task.propagate o1 l1 p1 m) = (o', l', p') ->
  o' = Rmax 0 (Floor (Floor (p * (1 - m)) * (1 - m)))
  /\ l' = Floor (p * (1 - m)) /\ p' = p.
Proof.
  intros Hp Hm.
  pose proof (Floor_bounds (p * (1 - m))) as Hl.
  assert (0 <= Floor (p * (1 - m))) as Hl0 by (apply Floor_nonneg; nra).
  assert (Floor (p * (1 - m)) < p) as Hlp by nra.
  pose proof (Floor_bounds (Floor (p * (1 - m)) * (1 - m))) as Ho.
  assert (0 <= Floor (Floor (p * (1 - m)) * (1 - m))) as Ho0
    by (apply Floor_nonneg; nra).
  assert (Floor (Floor (p * (1 - m)) * (1 - m)) <= Floor (p * (1 - m)))
    as Hol by nra.
  rewrite Rmax_right by lra.
  run_locals; intros [= <- <- <-]; repeat split; try reflexivity;
    first [lra | exfalso; nra].
Qed.

Lemma locals_keep_optimistic (o l p m o' l' p' : R) :
  0 < o ->
  (let '(o1, l1, p1) := Task.autofill o l p m in
   Task.propagate o1 l1 p1 m) = (o', l', p') ->
  o' = o.
Proof.
  intros Ho. run_locals; intros [= <- <- <-]; try reflexivity; exfalso; lra.
Qed.

Lemma autofill_propagate_settled (o l p m : R) :
  0 <= o -> 0 <= l -> 0 <= p -> 0 < m < 1 ->
  forall o' l' p' : R,
    (let '(o1, l1, p1) := Task.autofill o l p m in
     Task.propagate o1 l1 p1 m) = (o', l', p') ->
    settled o' l' p' m.
Proof.
  intros Ho Hl Hp Hm o' l' p' Hrun. unfold settled.
  destruct (Rle_lt_or_eq_dec 0 o Ho) as [Ho'|<-].
  { left.
    pose proof (locals_keep_optimistic _ _ _ _ _ _ _ Ho' Hrun) as Heq.
    destruct (locals_strictly_increasing o l p m o' l' p' Ho Hl Hp
                (or_introl Ho') Hm Hrun) as [Hol Hlp].
    repeat split; lra. }
  destruct (Rle_lt_or_eq_dec 0 l Hl) as [Hl'|<-].
  { destruct (locals_strictly_increasing 0 l p m o' l' p' Ho Hl Hp
                (or_intror Hl') Hm Hrun) as [Hol Hlp].
    destruct (locals_from_likely l p m o' l' p' Hl' Hp Hm Hrun)
      as (Ho1 & Hl1 & _).
    pose proof (Rmax_l 0 (Floor (l * (1 - m)))) as Hmax0.
    pose proof (Rmax_r 0 (Floor (l * (1 - m)))) as Hmax.
    subst l'.
    destruct (Rle_lt_or_eq_dec 0 o') as [Hpos|Hzero]; [lra | left; lra |].
    right. left. repeat split; lra. }
  destruct (Rle_lt_or_eq_dec 0 p Hp) as [Hp'|<-].
  { destruct (locals_from_pessimistic p m o' l' p' Hp' Hm Hrun)
      as (-> & -> & ->).
    pose proof (Floor_bounds (p * (1 - m))) as Hlb.
    assert (0 <= Floor (p * (1 - m))) as Hl0 by (apply Floor_nonneg; nra).
    set (f := Floor (p * (1 - m))) in *.
    pose proof (Floor_bounds (f * (1 - m))) as Hob.
    pose proof (Rmax_l 0 (Floor (f * (1 - m)))) as Hmax0.
    pose proof (Rmax_r 0 (Floor (f * (1 - m)))) as Hmax.
    assert (f < p) as Hfp by nra.
    destruct (Rle_lt_or_eq_dec 0 f) as [Hfpos|Hfzero]; [lra | |].
    - assert (Rmax 0 (Floor (f * (1 - m))) < f) as Hof.
      { apply Rmax_lub_lt; nra. }
      destruct (Rle_lt_or_eq_dec 0 (Rmax 0 (Floor (f * (1 - m)))))
        as [Hopos|Hozero]; [lra | left; lra |].
      right. left. repeat split; lra.
    - right. right. left.
      assert (Floor (f * (1 - m)) = 0) as Hz.
      { apply (Floor_unique _ 0). rewrite <- Hfzero. lra. }
      rewrite Hz, Rmax_left by lra. repeat split; lra. }
  right. right. right. revert Hrun.
  run_locals; intros [= <- <- <-]; repeat split; try reflexivity; lra.
Qed.
(** Setting a task again from the values it stores changes nothing. *)
Theorem SetEstimations_idempotent (t : Task.t) (o l p m : R) :
  0 <= o -> 0 <= l -> 0 <= p -> 0 < m < 1 ->
  let t' := Task.SetEstimations t o l p m in
  Task.SetEstimations t'
    (Optimistic (Task.Estimations t')) (Likely (Task.Estimations t'))
    (Pessimistic (Task.Estimations t')) m
  = t'.
Proof.
  intros Ho Hl Hp Hm.
  destruct (SetEstimations_locals t o l p m) as (o' & l' & p' & Hrun & _).
  pose proof (autofill_propagate_settled o l p m Ho Hl Hp Hm _ _ _ Hrun)
    as Hsettled.
  cbv zeta. rewrite (SetEstimations_of_locals t o l p m o' l' p' Hrun).
  simpl. erewrite SetEstimations_of_locals; [reflexivity|].
  by apply settled_fixed.
Qed.

Lemma SetEstimations_idempotent_witness :
  let t' := Task.SetEstimations sample_task 0 10 0 0.33 in
  Task.SetEstimations t'
    (Optimistic (Task.Estimations t')) (Likely (Task.Estimations t'))
    (Pessimistic (Task.Estimations t')) 0.33
  = t'.
Proof.
  apply (SetEstimations_idempotent sample_task 0 10 0 0.33); lra.
Defined.
End TaskFacts.

(** ** The estimation aggregate *)

Section AggregateFacts.
Local Open Scope Z_scope.

Lemma omap_lookup_insert_absent (m : gmap TaskID Task.t) (id : TaskID)
    (task : Task.t) (l : list TaskID) :
  id ∉ l ->
  omap (fun k => <[id := task]> m !! k) l = omap (fun k => m !! k) l.
Proof.
  induction l as [|x l IH]; intros Hn; [done|].
  apply not_elem_of_cons in Hn as [Hne Hn]. csimpl.
  rewrite lookup_insert_ne by done. by rewrite IH.
Qed.

(** [AddTask] of an identifier the ordering does not hold stores the task
    under its identifier, keeps the other tasks and lists the task last. *)
Theorem AddTask_appends (now : Time) (task : Task.t) (e : Estimation.t) :
  Task.ID task ∉ Estimation.Ordering e ->
  let e' := Estimation.AddTask now task e in
  Estimation.Tasks e' !! Task.ID task = Some task
  ∧ (forall id, id ≠ Task.ID task ->
       Estimation.Tasks e' !! id = Estimation.Tasks e !! id)
  ∧ Estimation.GetOrderedTasks e' = Estimation.GetOrderedTasks e ++ [task]
  ∧ Estimation.UpdatedAt e' = now.
Proof.
  intros Hn. cbv zeta. unfold Estimation.GetOrderedTasks. simpl.
  split; [apply lookup_insert_eq|].
  split; [intros id Hne; by apply lookup_insert_ne|].
  split; [|done].
  rewrite omap_app, omap_lookup_insert_absent by done.
  simpl. by rewrite lookup_insert_eq.
Qed.

Lemma AddTask_appends_witness :
  let e' := Estimation.AddTask 104 task_dev abc_estimation in
  Estimation.Tasks e' !! Task.ID task_dev = Some task_dev
  ∧ (forall id, id ≠ Task.ID task_dev ->
       Estimation.Tasks e' !! id = Estimation.Tasks abc_estimation !! id)
  ∧ Estimation.GetOrderedTasks e'
    = Estimation.GetOrderedTasks abc_estimation ++ [task_dev]
  ∧ Estimation.UpdatedAt e' = 104.
Proof.
  apply (AddTask_appends 104 task_dev abc_estimation).
  simpl. intros Hin.
  by repeat (apply elem_of_cons in Hin as [Hin|Hin]);
    [ | | | apply elem_of_nil in Hin].
Defined.

(** [AddTask] does not look for the identifier: when the ordering already
    holds it, the ordering gets a second occurrence and the mapping keeps a
    single task, the new one, under it. *)
Theorem AddTask_collision (now : Time) (task : Task.t) (e : Estimation.t) :
  Task.ID task ∈ Estimation.Ordering e ->
  let e' := Estimation.AddTask now task e in
  ¬ NoDup (Estimation.Ordering e')
  ∧ length (Estimation.Ordering e') = S (length (Estimation.Ordering e))
  ∧ dom (Estimation.Tasks e') = {[Task.ID task]} ∪ dom (Estimation.Tasks e)
  ∧ Estimation.Tasks e' !! Task.ID task = Some task.
Proof.
  intros Hin. cbv zeta. simpl. split; [|split; [|split]].
  - intros Hnd. apply NoDup_app in Hnd as (_ & Hdisj & _).
    apply (Hdisj _ Hin). apply list_elem_of_singleton. done.
  - rewrite length_app. simpl. lia.
  - by rewrite dom_insert_L.
  - apply lookup_insert_eq.
Qed.

Lemma AddTask_collision_witness :
  let e' := Estimation.AddTask 104 task_b abc_estimation in
  ¬ NoDup (Estimation.Ordering e')
  ∧ length (Estimation.Ordering e')
    = S (length (Estimation.Ordering abc_estimation))
  ∧ dom (Estimation.Tasks e')
    = {[Task.ID task_b]} ∪ dom (Estimation.Tasks abc_estimation)
  ∧ Estimation.Tasks e' !! Task.ID task_b = Some task_b.
Proof.
  apply (AddTask_collision 104 task_b abc_estimation).
  simpl. apply elem_of_cons. right. apply elem_of_cons. by left.
Defined.

Lemma cut_at_last (l : list TaskID) (id : TaskID) :
  cut_at (length l) (l ++ [id]) = l.
Proof.
  unfold cut_at. rewrite take_app_length.
  rewrite drop_ge by (rewrite length_app; simpl; lia).
  by rewrite app_nil_r.
Qed.

(** Removing a task that was just added, its identifier being new to both
    structures, gives back the ordering and the mapping. *)
Theorem RemoveTask_AddTask (now now' : Time) (task : Task.t)
    (e : Estimation.t) :
  Estimation.Tasks e !! Task.ID task = None ->
  Task.ID task ∉ Estimation.Ordering e ->
  let e' :=
    Estimation.RemoveTask now' (Task.ID task) (Estimation.AddTask now task e) in
  Estimation.Ordering e' = Estimation.Ordering e
  ∧ Estimation.Tasks e' = Estimation.Tasks e.
Proof.
  intros Hm Hn. cbv zeta. unfold Estimation.RemoveTask. simpl.
  rewrite first_index_last by done. split.
  - apply cut_at_last.
  - by apply delete_insert_id.
Qed.

Lemma RemoveTask_AddTask_witness :
  let e' :=
    Estimation.RemoveTask 105 (Task.ID task_dev)
      (Estimation.AddTask 104 task_dev abc_estimation) in
  Estimation.Ordering e' = Estimation.Ordering abc_estimation
  ∧ Estimation.Tasks e' = Estimation.Tasks abc_estimation.
Proof.
  apply (RemoveTask_AddTask 104 105 task_dev abc_estimation).
  - reflexivity.
  - simpl. intros Hin.
    by repeat (apply elem_of_cons in Hin as [Hin|Hin]);
      [ | | | apply elem_of_nil in Hin].
Defined.
Lemma filter_absent (id : TaskID) (l : list TaskID) :
  id ∉ l -> filter (fun x => x ≠ id) l = l.
Proof.
  induction l as [|x l IH]; intros Hn; [done|].
  apply not_elem_of_cons in Hn as [Hne Hn].
  rewrite filter_cons_True by congruence. by rewrite IH.
Qed.

Lemma cut_at_cons (x : TaskID) (l : list TaskID) (i : nat) :
  cut_at (S i) (x :: l) = x :: cut_at i l.
Proof. reflexivity. Qed.

Lemma remove_first_filter (id : TaskID) (l : list TaskID) :
  NoDup l ->
  match first_index id l with
  | Some i => cut_at i l
  | None => l
  end = filter (fun x => x ≠ id) l.
Proof.
  induction l as [|x l IH]; intros Hnd; [done|].
  apply NoDup_cons in Hnd as [Hx Hnd]. simpl.
  case_decide as Hxid.
  - subst x. rewrite filter_cons_False by (intros Hne; by apply Hne).
    rewrite filter_absent by done. unfold cut_at. simpl. by rewrite drop_0.
  - rewrite filter_cons_True by done. rewrite <- IH by done.
    destruct (first_index id l) as [i|]; simpl; [|done].
    apply cut_at_cons.
Qed.

(** On an ordering without duplicates [RemoveTask] drops the identifier and
    keeps the others in their order; the identifier is then in neither
    structure, and the other tasks are the same. *)
Theorem RemoveTask_filters (now : Time) (id : TaskID) (e : Estimation.t) :
  NoDup (Estimation.Ordering e) ->
  let e' := Estimation.RemoveTask now id e in
  Estimation.Ordering e' = filter (fun x => x ≠ id) (Estimation.Ordering e)
  ∧ (id ∉ Estimation.Ordering e')
  ∧ Estimation.Tasks e' !! id = None
  ∧ (forall id', id' ≠ id ->
       Estimation.Tasks e' !! id' = Estimation.Tasks e !! id').
Proof.
  intros Hnd. cbv zeta.
  assert (Estimation.Ordering (Estimation.RemoveTask now id e)
          = filter (fun x => x ≠ id) (Estimation.Ordering e)) as Hord.
  { unfold Estimation.RemoveTask. simpl. by apply remove_first_filter. }
  split; [done|]. split; [|split].
  - rewrite Hord. rewrite list_elem_of_filter. intros [Hne _]. by apply Hne.
  - simpl. apply lookup_delete_eq.
  - intros id' Hne. simpl. by apply lookup_delete_ne.
Qed.

Lemma RemoveTask_filters_witness :
  let e' := Estimation.RemoveTask 104 "b" abc_estimation in
  Estimation.Ordering e'
  = filter (fun x => x ≠ "b") (Estimation.Ordering abc_estimation)
  ∧ ("b" ∉ Estimation.Ordering e')
  ∧ Estimation.Tasks e' !! "b" = None
  ∧ (forall id', id' ≠ "b" ->
       Estimation.Tasks e' !! id' = Estimation.Tasks abc_estimation !! id').
Proof.
  apply (RemoveTask_filters 104 "b" abc_estimation).
  simpl. repeat (apply NoDup_cons; split; [|]); try apply NoDup_nil_2.
  all: intros Hin;
    by repeat (apply elem_of_cons in Hin as [Hin|Hin]);
      try apply elem_of_nil in Hin.
Defined.

Lemma omap_lookup_entries (m : gmap TaskID Task.t)
    (entries : list (TaskID * Task.t)) :
  (forall k t, (k, t) ∈ entries -> m !! k = Some t) ->
  omap (fun k => m !! k) entries.*1 = entries.*2.
Proof.
  induction entries as [|[k t] entries IH]; intros Hall; [done|].
  csimpl. rewrite (Hall k t) by left. simpl. f_equal.
  apply IH. intros k' t' Hin. apply Hall. by right.
Qed.

Lemma consistent_Ordering_keys (e : Estimation.t) :
  consistent e ->
  Estimation.Ordering e ≡ₚ (map_to_list (Estimation.Tasks e)).*1.
Proof.
  intros [Hnd Hset]. apply NoDup_Permutation.
  - done.
  - apply NoDup_fst_map_to_list.
  - intros id.
    rewrite <- (elem_of_list_to_set (C := gset TaskID)), Hset, elem_of_dom.
    rewrite list_elem_of_fmap. split.
    + intros [t Ht]. exists (id, t). split; [done|].
      by apply elem_of_map_to_list.
    + intros ([k t] & -> & Hin). exists t. by apply elem_of_map_to_list.
Qed.

Lemma GetOrderedTasks_values (e : Estimation.t) :
  consistent e ->
  Estimation.GetOrderedTasks e ≡ₚ (map_to_list (Estimation.Tasks e)).*2.
Proof.
  intros He. unfold Estimation.GetOrderedTasks.
  rewrite (consistent_Ordering_keys e He).
  rewrite omap_lookup_entries; [done|].
  intros k t Hin. by apply elem_of_map_to_list.
Qed.

(** When the ordering lists the keys of the mapping, each once,
    [GetOrderedTasks] returns every task of the mapping exactly once. *)
Theorem GetOrderedTasks_all_tasks (e : Estimation.t) :
  consistent e ->
  Estimation.GetOrderedTasks e ≡ₚ (map_to_list (Estimation.Tasks e)).*2
  ∧ length (Estimation.GetOrderedTasks e) = size (Estimation.Tasks e)
  ∧ length (Estimation.GetOrderedTasks e) = length (Estimation.Ordering e).
Proof.
  intros He.
  pose proof (GetOrderedTasks_values e He) as Hperm.
  split; [done|].
  assert (length (Estimation.GetOrderedTasks e) = size (Estimation.Tasks e))
    as Hlen.
  { rewrite Hperm, length_fmap. apply length_map_to_list. }
  split; [done|].
  rewrite Hlen, (consistent_Ordering_keys e He), length_fmap.
  symmetry. apply length_map_to_list.
Qed.

Lemma GetOrderedTasks_all_tasks_witness :
  Estimation.GetOrderedTasks abc_estimation
    ≡ₚ (map_to_list (Estimation.Tasks abc_estimation)).*2
  ∧ length (Estimation.GetOrderedTasks abc_estimation)
    = size (Estimation.Tasks abc_estimation)
  ∧ length (Estimation.GetOrderedTasks abc_estimation)
    = length (Estimation.Ordering abc_estimation).
Proof.
  apply (GetOrderedTasks_all_tasks abc_estimation).
  apply (consistent_run _ empty_estimation).
  - apply consistent_NewEstimation.
  - simpl. repeat split; reflexivity.
Defined.

(** [GetOrderedTasks] skips an identifier of the ordering that the mapping
    does not hold. *)
Theorem GetOrderedTasks_skips_missing (e : Estimation.t) :
  length (Estimation.GetOrderedTasks e)
  = length (filter (fun id => is_Some (Estimation.Tasks e !! id))
                   (Estimation.Ordering e))
  ∧ forall task, task ∈ Estimation.GetOrderedTasks e <->
      exists id, id ∈ Estimation.Ordering e
                 ∧ Estimation.Tasks e !! id = Some task.
Proof.
  unfold Estimation.GetOrderedTasks. split.
  - induction (Estimation.Ordering e) as [|id l IH]; [done|]. csimpl.
    destruct (Estimation.Tasks e !! id) as [t|] eqn:Hid; simpl.
    + rewrite filter_cons_True by (by rewrite Hid). simpl. by rewrite IH.
    + rewrite filter_cons_False; [done|]. rewrite Hid. by intros [? ?].
  - intros task. rewrite list_elem_of_omap. done.
Qed.

Lemma filter_cut_at (id : TaskID) (l : list TaskID) (i : nat) :
  l !! i = Some id ->
  filter (fun x => x ≠ id) (cut_at i l) = filter (fun x => x ≠ id) l.
Proof.
  intros Hl. rewrite <- (take_drop_middle l i id Hl) at 2.
  unfold cut_at. rewrite !filter_app.
  by rewrite filter_cons_False by (intros Hne; by apply Hne).
Qed.

Lemma filter_insert_at (id : TaskID) (l : list TaskID) (j : nat) :
  filter (fun x => x ≠ id) (insert_at j id l) = filter (fun x => x ≠ id) l.
Proof.
  unfold insert_at. rewrite !filter_app.
  rewrite filter_cons_False by (intros Hne; by apply Hne).
  rewrite filter_nil, app_nil_l, <- filter_app. by rewrite take_drop.
Qed.

Lemma lookup_insert_at (id : TaskID) (l : list TaskID) (j : nat) :
  (j <= length l)%nat -> insert_at j id l !! j = Some id.
Proof.
  intros Hj. unfold insert_at.
  rewrite lookup_app_r by (rewrite length_take; lia).
  rewrite length_take. by replace (j - j `min` length l)%nat with 0%nat by lia.
Qed.

Lemma length_cut_at (l : list TaskID) (i : nat) :
  (i < length l)%nat -> length (cut_at i l) = (length l - 1)%nat.
Proof.
  intros Hi. unfold cut_at. rewrite length_app, length_take, length_drop. lia.
Qed.

Lemma length_insert_at (id : TaskID) (l : list TaskID) (j : nat) :
  length (insert_at j id l) = S (length l).
Proof.
  unfold insert_at. rewrite !length_app, length_take, length_drop. simpl. lia.
Qed.

Lemma cut_at_insert_at (id : TaskID) (l : list TaskID) (j : nat) :
  (j <= length l)%nat -> cut_at j (insert_at j id l) = l.
Proof.
  intros Hj. unfold cut_at, insert_at.
  assert (length (take j l) = j) as Hlen by (rewrite length_take; lia).
  rewrite take_app_length' by done.
  replace (S j) with (length (take j l ++ [id]))
    by (rewrite length_app; simpl; lia).
  rewrite app_assoc, drop_app_length. apply take_drop.
Qed.

Lemma first_index_insert_at (id : TaskID) (l : list TaskID) (j : nat) :
  id ∉ l -> (j <= length l)%nat ->
  first_index id (insert_at j id l) = Some j.
Proof.
  revert j. induction l as [|x l IH]; intros j Hn Hj.
  - assert (j = 0%nat) as -> by (simpl in Hj; lia).
    unfold insert_at. simpl. by rewrite decide_True.
  - apply not_elem_of_cons in Hn as [Hne Hn].
    destruct j as [|j].
    + unfold insert_at. simpl. by rewrite decide_True.
    + change (insert_at (S j) id (x :: l)) with (x :: insert_at j id l).
      simpl. rewrite decide_False by congruence.
      rewrite IH; [done | done | simpl in Hj; lia].
Qed.

Lemma MoveTask_run (now : Time) (id : TaskID) (offset : Z)
    (e : Estimation.t) (i : nat) :
  is_int offset ->
  Z.of_nat (length (Estimation.Ordering e)) <= int_max ->
  first_index id (Estimation.Ordering e) = Some i ->
  0 <= Z.of_nat i + offset < Z.of_nat (length (Estimation.Ordering e)) ->
  Estimation.MoveTask now id offset e
  = (true,
     {| Estimation.ID := Estimation.ID e;
        Estimation.Label := Estimation.Label e;
        Estimation.Description := Estimation.Description e;
        Estimation.CreatedAt := Estimation.CreatedAt e;
        Estimation.UpdatedAt := now;
        Estimation.Ordering :=
          insert_at (Z.to_nat (Z.of_nat i + offset)) id
            (cut_at i (Estimation.Ordering e));
        Estimation.Tasks := Estimation.Tasks e;
        Estimation.Params := Estimation.Params e |}).
Proof.
  intros Hoff Hlen Hi Hdest.
  unfold Estimation.MoveTask. rewrite Hi.
  rewrite decide_False by lia.
  assert (wrap_int (Z.of_nat i + offset) = Z.of_nat i + offset) as ->.
  { apply wrap_int_id. unfold is_int, int_min, int_max in *. lia. }
  rewrite decide_False by lia.
  by rewrite Nat2Z.id.
Qed.

(** A move within the bounds succeeds: the identifier lands at the
    destination index, the other identifiers keep their relative order, the
    length and the mapping are unchanged and [UpdatedAt] is written. *)
Theorem MoveTask_success (now : Time) (id : TaskID) (offset : Z)
    (e : Estimation.t) (i : nat) :
  is_int offset ->
  Z.of_nat (length (Estimation.Ordering e)) <= int_max ->
  first_index id (Estimation.Ordering e) = Some i ->
  0 <= Z.of_nat i + offset < Z.of_nat (length (Estimation.Ordering e)) ->
  let r := Estimation.MoveTask now id offset e in
  r.1 = true
  ∧ Estimation.Ordering r.2 !! Z.to_nat (Z.of_nat i + offset) = Some id
  ∧ filter (fun x => x ≠ id) (Estimation.Ordering r.2)
    = filter (fun x => x ≠ id) (Estimation.Ordering e)
  ∧ length (Estimation.Ordering r.2) = length (Estimation.Ordering e)
  ∧ Estimation.Tasks r.2 = Estimation.Tasks e
  ∧ Estimation.UpdatedAt r.2 = now.
Proof.
  intros Hoff Hlen Hi Hdest. cbv zeta.
  rewrite (MoveTask_run now id offset e i) by done. simpl.
  pose proof (first_index_lt _ _ _ Hi) as Hlt.
  apply first_index_Some in Hi as [Hl _].
  pose proof (length_cut_at (Estimation.Ordering e) i Hlt) as Hcut.
  split; [done|]. split; [|split; [|split; [|done]]].
  - apply lookup_insert_at. lia.
  - by rewrite filter_insert_at, filter_cut_at.
  - rewrite length_insert_at, Hcut. lia.
Qed.

Lemma MoveTask_success_witness :
  let r := Estimation.MoveTask 104 "a" 2 abc_estimation in
  r.1 = true
  ∧ Estimation.Ordering r.2 !! Z.to_nat (Z.of_nat 0 + 2) = Some "a"
  ∧ filter (fun x => x ≠ "a") (Estimation.Ordering r.2)
    = filter (fun x => x ≠ "a") (Estimation.Ordering abc_estimation)
  ∧ length (Estimation.Ordering r.2)
    = length (Estimation.Ordering abc_estimation)
  ∧ Estimation.Tasks r.2 = Estimation.Tasks abc_estimation
  ∧ Estimation.UpdatedAt r.2 = 104.
Proof.
  apply (MoveTask_success 104 "a" 2 abc_estimation 0).
  - unfold is_int, int_min, int_max. lia.
  - simpl. unfold int_max. lia.
  - reflexivity.
  - simpl. lia.
Defined.

(** On an ordering without duplicates, a successful move followed by the
    move by the opposite offset gives back the ordering. *)
Theorem MoveTask_back (now now' : Time) (id : TaskID) (offset : Z)
    (e : Estimation.t) (i : nat) :
  is_int offset -> is_int (- offset) ->
  Z.of_nat (length (Estimation.Ordering e)) <= int_max ->
  NoDup (Estimation.Ordering e) ->
  first_index id (Estimation.Ordering e) = Some i ->
  0 <= Z.of_nat i + offset < Z.of_nat (length (Estimation.Ordering e)) ->
  let e1 := (Estimation.MoveTask now id offset e).2 in
  let r := Estimation.MoveTask now' id (- offset) e1 in
  r.1 = true
  ∧ Estimation.Ordering r.2 = Estimation.Ordering e
  ∧ Estimation.Tasks r.2 = Estimation.Tasks e.
Proof.
  intros Hoff Hoff' Hlen Hnd Hi Hdest. cbv zeta.
  rewrite (MoveTask_run now id offset e i) by done. simpl.
  pose proof (first_index_lt _ _ _ Hi) as Hlt.
  pose proof Hi as Hi'. apply first_index_Some in Hi' as [Hl _].
  pose proof (length_cut_at (Estimation.Ordering e) i Hlt) as Hcut.
  pose proof (cut_at_Permutation _ _ _ Hl) as Hperm.
  assert (id ∉ cut_at i (Estimation.Ordering e)) as Hn.
  { rewrite Hperm in Hnd. by apply NoDup_cons in Hnd as [? _]. }
  set (j := Z.to_nat (Z.of_nat i + offset)).
  assert (j <= length (cut_at i (Estimation.Ordering e)))%nat as Hj
    by (unfold j; lia).
  rewrite (MoveTask_run now' id (- offset) _ j); simpl.
  - split; [done|]. split; [|done].
    replace (Z.to_nat (Z.of_nat j + - offset)) with i by (unfold j; lia).
    rewrite cut_at_insert_at by done. by apply insert_at_cut_at.
  - done.
  - rewrite length_insert_at, Hcut. lia.
  - by apply first_index_insert_at.
  - rewrite length_insert_at, Hcut. unfold j. lia.
Qed.

Lemma MoveTask_back_witness :
  let e1 := (Estimation.MoveTask 104 "a" 2 abc_estimation).2 in
  let r := Estimation.MoveTask 105 "a" (- 2) e1 in
  r.1 = true
  ∧ Estimation.Ordering r.2 = Estimation.Ordering abc_estimation
  ∧ Estimation.Tasks r.2 = Estimation.Tasks abc_estimation.
Proof.
  apply (MoveTask_back 104 105 "a" 2 abc_estimation 0).
  - unfold is_int, int_min, int_max. lia.
  - unfold is_int, int_min, int_max. lia.
  - simpl. unfold int_max. lia.
  - simpl. repeat (apply NoDup_cons; split; [|]); try apply NoDup_nil_2.
    all: intros Hin;
      by repeat (apply elem_of_cons in Hin as [Hin|Hin]);
        try apply elem_of_nil in Hin.
  - reflexivity.
  - simpl. lia.
Defined.

(** [UpdateTask] never changes the ordering or the set of keys; it stores
    the task and writes [UpdatedAt] when the identifier is a key, and
    changes nothing otherwise. *)
Theorem UpdateTask_replaces (now : Time) (task : Task.t) (e : Estimation.t) :
  let e' := Estimation.UpdateTask now task e in
  Estimation.Ordering e' = Estimation.Ordering e
  ∧ dom (Estimation.Tasks e') = dom (Estimation.Tasks e)
  ∧ (forall id, id ≠ Task.ID task ->
       Estimation.Tasks e' !! id = Estimation.Tasks e !! id)
  ∧ (is_Some (Estimation.Tasks e !! Task.ID task) ->
       Estimation.Tasks e' !! Task.ID task = Some task
       ∧ Estimation.UpdatedAt e' = now)
  ∧ (Estimation.Tasks e !! Task.ID task = None -> e' = e)
  ∧ (consistent e -> consistent e').
Proof.
  cbv zeta. unfold Estimation.UpdateTask, consistent.
  destruct (Estimation.Tasks e !! Task.ID task) as [old|] eqn:Hold; simpl.
  - assert (dom (<[Task.ID task := task]> (Estimation.Tasks e))
            = dom (Estimation.Tasks e)) as Hdom.
    { rewrite dom_insert_L. apply elem_of_dom_2 in Hold. set_solver. }
    split; [done|]. split; [done|]. split; [|split; [|split]].
    + intros id Hne. by apply lookup_insert_ne.
    + intros _. split; [apply lookup_insert_eq | done].
    + done.
    + by rewrite Hdom.
  - split; [done|]. split; [done|]. split; [done|].
    split; [by intros [? ?]|]. split; done.
Qed.

Lemma UpdateTask_replaces_witness :
  let e' := Estimation.UpdateTask 104 task_b abc_estimation in
  Estimation.Ordering e' = Estimation.Ordering abc_estimation
  ∧ Estimation.Tasks e' !! "b" = Some task_b
  ∧ Estimation.UpdatedAt e' = 104
  ∧ consistent e'.
Proof.
  destruct (UpdateTask_replaces 104 task_b abc_estimation)
    as (Hord & _ & _ & Hpresent & _ & Hcons).
  destruct Hpresent as [Htask Htime]; [by eexists|].
  repeat split; try done; apply Hcons;
    apply (consistent_run _ empty_estimation);
    [apply consistent_NewEstimation | simpl; repeat split; reflexivity].
Defined.

Lemma fold_left_append_lines (f : string -> string) (errs acc : list string) :
  fold_left (fun errors err => errors ++ [f err]) errs acc
  = acc ++ (f <$> errs).
Proof.
  revert acc. induction errs as [|err errs IH]; intros acc; csimpl.
  - by rewrite app_nil_r.
  - rewrite IH. by rewrite <- app_assoc.
Qed.

Lemma Validate_step_lines (errors : list string) (entry : TaskID * Task.t) :
  Estimation.Validate_step errors entry
  = errors
    ++ ((fun err =>
           String.append "task "
             (String.append (Task.ID entry.2) (String.append ": " err)))
        <$> Task.Validate entry.2).
Proof.
  unfold Estimation.Validate_step. cbv zeta. case_decide as Hlen.
  - apply (fold_left_append_lines
             (fun err => String.append "task "
                (String.append (Task.ID entry.2) (String.append ": " err)))).
  - destruct (Task.Validate entry.2); [by rewrite app_nil_r|].
    simpl in Hlen. exfalso. apply Hlen. lia.
Qed.

Lemma Validate_over_from (tasks : list (TaskID * Task.t))
    (errors : list string) :
  fold_left Estimation.Validate_step tasks errors
  = errors
    ++ concat
         ((fun entry : TaskID * Task.t =>
             (fun err =>
                String.append "task "
                  (String.append (Task.ID entry.2) (String.append ": " err)))
             <$> Task.Validate entry.2) <$> tasks).
Proof.
  revert errors. induction tasks as [|entry tasks IH]; intros errors; csimpl.
  - by rewrite app_nil_r.
  - rewrite IH, Validate_step_lines. by rewrite <- app_assoc.
Qed.

(** [Estimation.Validate] lists, task after task in the order of the range,
    the violations of each task behind the text "task <id>: "; it is empty
    exactly when every task of the mapping validates. *)
Theorem Validate_collects (e : Estimation.t)
    (tasks : list (TaskID * Task.t)) :
  ranges_over tasks (Estimation.Tasks e) ->
  Estimation.Validate_over tasks
  = concat
      ((fun entry : TaskID * Task.t =>
          (fun err =>
             String.append "task "
               (String.append (Task.ID entry.2) (String.append ": " err)))
          <$> Task.Validate entry.2) <$> tasks)
  ∧ (Estimation.Validate_over tasks = [] <->
     forall k t, Estimation.Tasks e !! k = Some t -> Task.Validate t = []).
Proof.
  intros Hperm.
  assert (Estimation.Validate_over tasks
          = concat
              ((fun entry : TaskID * Task.t =>
                  (fun err =>
                     String.append "task "
                       (String.append (Task.ID entry.2)
                          (String.append ": " err)))
                  <$> Task.Validate entry.2) <$> tasks)) as Heq.
  { unfold Estimation.Validate_over. by rewrite Validate_over_from. }
  split; [done|]. rewrite Heq. unfold ranges_over in Hperm.
  split.
  - intros Hnil k t Hkt.
    assert ((k, t) ∈ tasks) as Hin
      by (rewrite Hperm; by apply elem_of_map_to_list).
    clear Heq Hperm. induction tasks as [|entry tasks IH].
    + by apply elem_of_nil in Hin.
    + csimpl in Hnil. apply app_eq_nil in Hnil as [Hhead Htail].
      apply elem_of_cons in Hin as [<-|Hin]; [|by apply IH].
      simpl in Hhead. by apply fmap_nil_inv in Hhead.
  - intros Hall.
    assert (forall entry, entry ∈ tasks -> Task.Validate entry.2 = [])
      as Hall'.
    { intros [k t] Hin. apply (Hall k). apply elem_of_map_to_list.
      by rewrite <- Hperm. }
    clear Heq Hperm Hall. induction tasks as [|entry tasks IH]; [done|].
    csimpl. rewrite (Hall' entry) by left. simpl.
    apply IH. intros entry' Hin. apply Hall'. by right.
Qed.

Lemma Validate_collects_witness :
  Estimation.Validate_over [("t2", task_ops); ("t1", task_dev)]
  = concat
      ((fun entry : TaskID * Task.t =>
          (fun err =>
             String.append "task "
               (String.append (Task.ID entry.2) (String.append ": " err)))
          <$> Task.Validate entry.2)
       <$> [("t2", task_ops); ("t1", task_dev)])
  ∧ (Estimation.Validate_over [("t2", task_ops); ("t1", task_dev)] = [] <->
     forall k t, Estimation.Tasks dev_ops_estimation !! k = Some t ->
                 Task.Validate t = []).
Proof.
  apply (Validate_collects dev_ops_estimation).
  unfold ranges_over. simpl.
  rewrite map_to_list_insert by reflexivity.
  rewrite map_to_list_insert by reflexivity.
  rewrite map_to_list_empty. reflexivity.
Defined.
End AggregateFacts.

(** ** Configuration *)

Section ConfigFacts.
Local Open Scope R_scope.

(** [GetAutoEstimationMultiplier] is strictly positive: it is the configured
    multiplier when that one is positive and the default 0.33 otherwise.
    It is not capped: a configured multiplier of 1 or more is returned. *)
Theorem GetAutoEstimationMultiplier_positive (c : Config.t) :
  0 < Config.GetAutoEstimationMultiplier c
  /\ (0 < Config.AutoEstimationMultiplier c ->
      Config.GetAutoEstimationMultiplier c = Config.AutoEstimationMultiplier c)
  /\ (Config.AutoEstimationMultiplier c <= 0 ->
      Config.GetAutoEstimationMultiplier c = 0.33)
  /\ (Config.AutoEstimationMultiplier c < 1 ->
      Config.GetAutoEstimationMultiplier c < 1).
Proof.
  unfold Config.GetAutoEstimationMultiplier, DefaultAutoEstimationMultiplier.
  case_decide; repeat split; intros; lra.
Qed.

Lemma GetAutoEstimationMultiplier_positive_witness :
  Config.GetAutoEstimationMultiplier dev_config = 0.33
  /\ Config.GetAutoEstimationMultiplier dev_config < 1.
Proof.
  destruct (GetAutoEstimationMultiplier_positive dev_config)
    as (_ & Hset & _ & Hlt).
  split.
  - rewrite Hset; simpl; unfold DefaultAutoEstimationMultiplier; lra.
  - apply Hlt. simpl. unfold DefaultAutoEstimationMultiplier. lra.
Defined.

(** A task set from non-negative inputs with the multiplier of a
    configuration whose multiplier is below 1, or not set, passes
    [Validate]. *)
Theorem SetEstimations_with_config (c : Config.t) (t : Task.t) (o l p : R) :
  Config.AutoEstimationMultiplier c < 1 ->
  0 <= o -> 0 <= l -> 0 <= p ->
  Task.Validate
    (Task.SetEstimations t o l p (Config.GetAutoEstimationMultiplier c)) = [].
Proof.
  intros Hc Ho Hl Hp. apply SetEstimations_Validate; try done.
  unfold Config.GetAutoEstimationMultiplier, DefaultAutoEstimationMultiplier.
  case_decide; lra.
Qed.

Lemma SetEstimations_with_config_witness :
  Task.Validate
    (Task.SetEstimations sample_task 0 8 0
       (Config.GetAutoEstimationMultiplier dev_config)) = [].
Proof.
  apply (SetEstimations_with_config dev_config sample_task 0 8 0);
    try lra.
  simpl. unfold DefaultAutoEstimationMultiplier. lra.
Defined.

(** With a multiplier above 1 and only a pessimistic value of 1 or more
    given, the likely value stored is negative and the pessimistic one is
    kept, which [Validate] reports. *)
Theorem SetEstimations_multiplier_above_one (t : Task.t) (p m : R) :
  1 <= p -> 1 < m ->
  let t' := Task.SetEstimations t 0 0 p m in
  Likely (Task.Estimations t') < 0
  /\ Pessimistic (Task.Estimations t') = p
  /\ Task.Validate t' <> [].
Proof.
  intros Hp Hm. cbv zeta.
  pose proof (Floor_bounds (p * (1 - m))) as Hf.
  assert (Floor (p * (1 - m)) < 0) as Hneg by nra.
  assert (Likely (Task.Estimations (Task.SetEstimations t 0 0 p m))
          = Floor (p * (1 - m))
          /\ Pessimistic (Task.Estimations (Task.SetEstimations t 0 0 p m))
             = p) as [HL HP].
  { unfold Task.SetEstimations, Task.autofill, Task.propagate.
    repeat (case_decide; simpl); split; try reflexivity; exfalso; lra. }
  split; [lra|]. split; [done|].
  intros Hvalid. unfold Task.Validate in Hvalid.
  rewrite (decide_True (P := Likely _ < 0)) in Hvalid by lra.
  repeat case_decide; simpl in Hvalid; discriminate Hvalid.
Qed.

Lemma SetEstimations_multiplier_above_one_witness :
  let t' := Task.SetEstimations sample_task 0 0 1 2 in
  Likely (Task.Estimations t') < 0
  /\ Pessimistic (Task.Estimations t') = 1
  /\ Task.Validate t' <> [].
Proof.
  apply (SetEstimations_multiplier_above_one sample_task 1 2); lra.
Defined.

(** [GetFirstCategoryID] returns the empty string without categories and a
    configured identifier otherwise, whatever the order of the range. *)
Theorem GetFirstCategoryID_configured (c : Config.t)
    (cats : list (string * TaskCategory.t)) :
  ranges_over cats (Config.TaskCategories c) ->
  (Config.TaskCategories c = ∅ -> Config.GetFirstCategoryID_over cats = "")
  /\ (Config.TaskCategories c <> ∅ ->
      exists cat,
        Config.TaskCategories c !! Config.GetFirstCategoryID_over cats
        = Some cat
        /\ Config.GetTaskCategory c (Config.GetFirstCategoryID_over cats)
           = cat).
Proof.
  unfold ranges_over. intros Hperm. split.
  - intros Hempty. rewrite Hempty, map_to_list_empty in Hperm.
    apply Permutation_nil_r in Hperm. by subst cats.
  - intros Hne. destruct cats as [|[id cat] cats].
    + exfalso. apply Hne. apply map_to_list_empty_iff.
      symmetry in Hperm. by apply Permutation_nil_r in Hperm.
    + simpl. exists cat.
      assert (Config.TaskCategories c !! id = Some cat) as Hid.
      { apply elem_of_map_to_list. rewrite <- Hperm. left. }
      split; [done|]. unfold Config.GetTaskCategory. by rewrite Hid.
Qed.

Lemma GetFirstCategoryID_configured_witness :
  exists cat,
    Config.TaskCategories dev_config
      !! Config.GetFirstCategoryID_over
           [("dev", Config.GetTaskCategory dev_config "dev")]
    = Some cat
    /\ Config.GetTaskCategory dev_config
         (Config.GetFirstCategoryID_over
            [("dev", Config.GetTaskCategory dev_config "dev")])
       = cat.
Proof.
  apply (GetFirstCategoryID_configured dev_config).
  - unfold ranges_over. simpl. by rewrite map_to_list_singleton.
  - simpl. intros Hempty.
    apply (f_equal (fun m : gmap string TaskCategory.t => m !! "dev"))
      in Hempty.
    rewrite lookup_singleton_eq, lookup_empty in Hempty. discriminate.
Defined.
End ConfigFacts.

(** ** Estimations, distributions and costs *)

Section CostFacts.
Local Open Scope R_scope.
#[local] Abbreviation instant := Time (only parsing).
Import stats.

(** In exact real arithmetic, for an ordered triple the weighted mean lies
    between the optimistic and the pessimistic value, and the standard
    deviation is non-negative and vanishes only when the three values
    coincide. *)
Theorem CalculateEstimation_bounds (task : Task.t) :
  Optimistic (Task.Estimations task) <= Likely (Task.Estimations task) ->
  Likely (Task.Estimations task) <= Pessimistic (Task.Estimations task) ->
  let r := CalculateEstimation task in
  Optimistic (Task.Estimations task) <= WeightedMean r
                                     <= Pessimistic (Task.Estimations task)
  /\ 0 <= StandardDeviation r
  /\ (StandardDeviation r = 0 <->
      Optimistic (Task.Estimations task) = Likely (Task.Estimations task)
      /\ Likely (Task.Estimations task)
         = Pessimistic (Task.Estimations task)).
Proof.
  intros HOL HLP. cbv zeta.
  unfold CalculateEstimation, Task.WeightedMean, Task.StandardDeviation.
  simpl. repeat split; intros; lra.
Qed.

Lemma CalculateEstimation_bounds_witness :
  let r := CalculateEstimation task_dev in
  Optimistic (Task.Estimations task_dev) <= WeightedMean r
                                         <= Pessimistic (Task.Estimations task_dev)
  /\ 0 <= StandardDeviation r
  /\ (StandardDeviation r = 0 <->
      Optimistic (Task.Estimations task_dev)
      = Likely (Task.Estimations task_dev)
      /\ Likely (Task.Estimations task_dev)
         = Pessimistic (Task.Estimations task_dev)).
Proof. apply (CalculateEstimation_bounds task_dev); simpl; lra. Defined.

Lemma Rsum_nonneg (l : list R) : Forall (fun x => 0 <= x) l -> 0 <= Rsum l.
Proof. induction 1; unfold Rsum in *; simpl; lra. Qed.

Lemma pert_variance_nonneg (t : Task.t) : 0 <= pert_variance t.
Proof. unfold pert_variance. exact (Rle_0_sqr _). Qed.

Lemma sum_over_tasks_variance_nonneg (m : gmap TaskID Task.t) :
  0 <= sum_over_tasks pert_variance m.
Proof.
  unfold sum_over_tasks. apply Rsum_nonneg.
  apply Forall_fmap, Forall_forall. intros t _. simpl.
  apply pert_variance_nonneg.
Qed.

Lemma CalculateProjectEstimation_deviation (e : Estimation.t) :
  StandardDeviation (CalculateProjectEstimation e)
  = sqrt (sum_over_tasks pert_variance (Estimation.Tasks e)).
Proof.
  unfold CalculateProjectEstimation.
  rewrite (CalculateProjectEstimation_over_sums _ (Estimation.Tasks e))
    by apply ranges_over_map_to_list.
  reflexivity.
Qed.

(** An estimation without tasks has mean 0 and deviation 0; adding a task
    under a new identifier adds its weighted mean to the project mean and
    its variance to the project variance. *)
Theorem CalculateProjectEstimation_AddTask (now : instant) (task : Task.t)
    (e : Estimation.t) :
  Estimation.Tasks e !! Task.ID task = None ->
  let r := CalculateProjectEstimation e in
  let r' := CalculateProjectEstimation (Estimation.AddTask now task e) in
  WeightedMean r' = WeightedMean r + Task.WeightedMean task
  /\ StandardDeviation r' * StandardDeviation r'
     = StandardDeviation r * StandardDeviation r
       + Task.StandardDeviation task * Task.StandardDeviation task
  /\ 0 <= StandardDeviation r'.
Proof.
  intros Hfresh. cbv zeta.
  rewrite !CalculateProjectEstimation_mean, !CalculateProjectEstimation_deviation.
  simpl. rewrite !sum_over_tasks_insert by done.
  pose proof (sum_over_tasks_variance_nonneg (Estimation.Tasks e)) as Hv.
  pose proof (pert_variance_nonneg task) as Ht.
  split; [lra|]. split; [|apply sqrt_pos].
  rewrite !sqrt_sqrt by lra.
  unfold pert_variance, Task.StandardDeviation. lra.
Qed.

Lemma CalculateProjectEstimation_AddTask_witness :
  let r := CalculateProjectEstimation abc_estimation in
  let r' :=
    CalculateProjectEstimation (Estimation.AddTask 104%Z task_dev abc_estimation) in
  WeightedMean r' = WeightedMean r + Task.WeightedMean task_dev
  /\ StandardDeviation r' * StandardDeviation r'
     = StandardDeviation r * StandardDeviation r
       + Task.StandardDeviation task_dev * Task.StandardDeviation task_dev
  /\ 0 <= StandardDeviation r'.
Proof.
  apply (CalculateProjectEstimation_AddTask 104%Z task_dev abc_estimation).
  reflexivity.
Defined.

(** The project estimation of an estimation without tasks. *)
Theorem CalculateProjectEstimation_empty (e : Estimation.t) :
  Estimation.Tasks e = ∅ ->
  CalculateProjectEstimation e
  = {| WeightedMean := 0; StandardDeviation := 0 |}
  /\ forall c, CalculateCategoryEstimation e c
               = {| WeightedMean := 0; StandardDeviation := 0 |}.
Proof.
  intros Hempty.
  unfold CalculateProjectEstimation, CalculateCategoryEstimation.
  rewrite Hempty, map_to_list_empty.
  unfold CalculateProjectEstimation_over, CalculateCategoryEstimation_over.
  simpl. unfold Sqrt. rewrite sqrt_0. done.
Qed.

Lemma CalculateProjectEstimation_empty_witness :
  CalculateProjectEstimation empty_estimation
  = {| WeightedMean := 0; StandardDeviation := 0 |}
  /\ forall c, CalculateCategoryEstimation empty_estimation c
               = {| WeightedMean := 0; StandardDeviation := 0 |}.
Proof. apply (CalculateProjectEstimation_empty empty_estimation). reflexivity. Defined.





(** *** The entries of the category distribution *)

Lemma configured_loop_Forall (Q : CategoryDistribution -> Prop)
    (e : Estimation.t) (pe : EstimationResult)
    (cats : list (string * TaskCategory.t))
    (acc : list CategoryDistribution * gmap string bool) :
  Forall Q acc.1 ->
  (forall catID cat, (catID, cat) ∈ cats ->
     Q {| CategoryID := catID;
          CategoryLabel := TaskCategory.Label cat;
          Time := WeightedMean (CalculateCategoryEstimation e catID);
          Percentage :=
            percentage_of (CalculateCategoryEstimation e catID) pe |}) ->
  Forall Q (fold_left (configured_step e pe) cats acc).1.
Proof.
  revert acc. induction cats as [|[catID cat] cats IH];
    intros [ds sn] Hacc Hnew; [done|].
  simpl. apply IH.
  - simpl. apply Forall_app. split; [done|].
    apply Forall_singleton. apply Hnew. left.
  - intros catID' cat' Hin. apply Hnew. by right.
Qed.

Lemma unconfigured_loop_Forall (Q : CategoryDistribution -> Prop)
    (e : Estimation.t) (config : Config.t) (pe : EstimationResult)
    (tasks : list (TaskID * Task.t))
    (acc : list CategoryDistribution * gmap string bool) :
  Forall Q acc.1 ->
  (forall c,
     Q {| CategoryID := c;
          CategoryLabel := TaskCategory.Label (Config.GetTaskCategory config c);
          Time := WeightedMean (CalculateCategoryEstimation e c);
          Percentage := percentage_of (CalculateCategoryEstimation e c) pe |}) ->
  Forall Q (fold_left (unconfigured_step e config pe) tasks acc).1.
Proof.
  intros Hacc Hnew. revert acc Hacc.
  induction tasks as [|entry tasks IH]; intros [ds sn] Hacc; [done|].
  simpl. apply IH.
  destruct (seen sn (Task.Category entry.2)); simpl; [done|].
  apply Forall_app. split; [done|]. apply Forall_singleton. apply Hnew.
Qed.

Lemma distribution_facts (e : Estimation.t) (config : Config.t)
    (cats : list (string * TaskCategory.t))
    (tasks : list (TaskID * Task.t)) :
  ranges_over cats (Config.TaskCategories config) ->
  ranges_over tasks (Estimation.Tasks e) ->
  WeightedMean (CalculateProjectEstimation e) <> 0 ->
  let out := CalculateCategoryDistribution_over cats tasks e config in
  Forall (entry_of e config) out
  /\ NoDup (CategoryID <$> out)
  /\ Rsum (Time <$> out) = WeightedMean (CalculateProjectEstimation e).
Proof.
  intros Hcats Htasks Hne.
  unfold CalculateCategoryDistribution_over. cbv zeta.
  rewrite decide_False by done.
  set (pe := CalculateProjectEstimation e) in *.
  set (acc1 := fold_left (configured_step e pe) cats ([], ∅)).
  assert (distribution_inv e pe acc1) as Hinv1.
  { apply configured_loop_inv.
    - apply distribution_inv_start.
    - unfold ranges_over in Hcats. rewrite Hcats.
      apply NoDup_fst_map_to_list.
    - intros c _. unfold seen. simpl. by rewrite lookup_empty. }
  destruct (unconfigured_loop_inv e config pe tasks acc1 Hinv1)
    as ((Hnd & Hseen & _) & _ & Hcover).
  assert (Forall (entry_of e config)
            (fold_left (unconfigured_step e config pe) tasks acc1).1)
    as Hentries.
  { apply unconfigured_loop_Forall; [|by intros c].
    apply configured_loop_Forall; [by apply Forall_nil_2|].
    intros catID cat Hin.
    assert (Config.TaskCategories config !! catID = Some cat) as Hcat.
    { apply elem_of_map_to_list. unfold ranges_over in Hcats.
      by rewrite <- Hcats. }
    split; [|done]. simpl. unfold Config.GetTaskCategory. by rewrite Hcat. }
  set (out := (fold_left (unconfigured_step e config pe) tasks acc1).1) in *.
  split; [done|]. split; [done|].
  assert (Time <$> out
          = (fun c => WeightedMean (CalculateCategoryEstimation e c))
            <$> (CategoryID <$> out)) as ->.
  { rewrite <- list_fmap_compose. apply Forall_fmap_ext_1.
    eapply Forall_impl; [exact Hentries|]. by intros d (_ & Hd & _). }
  unfold pe. rewrite CalculateProjectEstimation_mean.
  erewrite list_fmap_ext;
    [| intros i c _; apply CalculateCategoryEstimation_mean].
  unfold sum_over_tasks. apply Rsum_by_category; [done|].
  intros t Ht.
  apply list_elem_of_fmap in Ht as ([k t'] & -> & Hin).
  apply Hseen. apply (Hcover (k, t')).
  unfold ranges_over in Htasks. by rewrite Htasks.
Qed.

(** In exact real arithmetic, every entry of the distribution carries the
    label that [GetTaskCategory] gives for its category, the weighted mean
    of its category as its time and that time's share of the project mean
    as its percentage (0 when the project mean is negative); the times add
    up to the project mean. *)
Theorem CalculateCategoryDistribution_entries (e : Estimation.t)
    (config : Config.t) (cats : list (string * TaskCategory.t))
    (tasks : list (TaskID * Task.t)) :
  ranges_over cats (Config.TaskCategories config) ->
  ranges_over tasks (Estimation.Tasks e) ->
  WeightedMean (CalculateProjectEstimation e) <> 0 ->
  let mean := WeightedMean (CalculateProjectEstimation e) in
  let out := CalculateCategoryDistribution_over cats tasks e config in
  Forall
    (fun d =>
       CategoryLabel d
       = TaskCategory.Label (Config.GetTaskCategory config (CategoryID d))
       /\ Time d = WeightedMean (CalculateCategoryEstimation e (CategoryID d))
       /\ Percentage d
          = if decide (0 < mean) then Time d / mean * 100 else 0)
    out
  /\ Rsum (Time <$> out) = mean.
Proof.
  intros Hcats Htasks Hne. cbv zeta.
  destruct (distribution_facts e config cats tasks Hcats Htasks Hne)
    as (Hentries & _ & Hsum).
  split; [|done].
  eapply Forall_impl; [exact Hentries|].
  intros d (Hlabel & Htime & Hpct). split; [done|]. split; [done|].
  rewrite Hpct, Htime. unfold percentage_of.
  destruct (decide (WeightedMean (CalculateProjectEstimation e) > 0));
    [rewrite decide_True by lra | rewrite decide_False by lra]; done.
Qed.
Lemma CalculateCategoryDistribution_entries_witness :
  let mean := WeightedMean (CalculateProjectEstimation dev_ops_estimation) in
  let out :=
    CalculateCategoryDistribution_over
      [("dev", Config.GetTaskCategory dev_config "dev")]
      [("t2", task_ops); ("t1", task_dev)]
      dev_ops_estimation dev_config in
  Forall
    (fun d =>
       CategoryLabel d
       = TaskCategory.Label (Config.GetTaskCategory dev_config (CategoryID d))
       /\ Time d
          = WeightedMean
              (CalculateCategoryEstimation dev_ops_estimation (CategoryID d))
       /\ Percentage d
          = if decide (0 < mean) then Time d / mean * 100 else 0)
    out
  /\ Rsum (Time <$> out) = mean.
Proof.
  apply (CalculateCategoryDistribution_entries dev_ops_estimation dev_config).
  - unfold ranges_over. simpl. by rewrite map_to_list_singleton.
  - unfold ranges_over. simpl.
    rewrite map_to_list_insert by reflexivity.
    rewrite map_to_list_insert by reflexivity.
    rewrite map_to_list_empty. reflexivity.
  - rewrite CalculateProjectEstimation_mean. simpl.
    rewrite !sum_over_tasks_insert by reflexivity.
    rewrite sum_over_tasks_empty.
    unfold Task.WeightedMean. simpl. lra.
Defined.

(** *** Costs *)

Lemma cost_loop_split (config : Config.t) (minTime maxTime : R)
    (dist : list CategoryDistribution) (minCost maxCost : CostEstimation) :
  fold_left (cost_step config minTime maxTime) dist (minCost, maxCost)
  = (fold_left (add_category_cost config minTime) dist minCost,
     fold_left (add_category_cost config maxTime) dist maxCost).
Proof.
  revert minCost maxCost.
  induction dist as [|d dist IH]; intros minCost maxCost; [done|].
  simpl. apply IH.
Qed.

Lemma cost_loop_totals (config : Config.t) (time : R)
    (dist : list CategoryDistribution) (cost : CostEstimation) :
  TotalTime (fold_left (add_category_cost config time) dist cost)
  = TotalTime cost + Rsum (Percentage <$> dist) / 100 * time
  /\ TotalCost (fold_left (add_category_cost config time) dist cost)
     = TotalCost cost
       + Rsum ((fun d => CategoryCost.Cost (category_detail config time d)) <$> dist).
Proof.
  revert cost. induction dist as [|d dist IH]; intros cost; csimpl.
  - split; lra.
  - destruct (IH (add_category_cost config time cost d)) as [-> ->].
    simpl. split; lra.
Qed.

Lemma cost_loop_details (config : Config.t) (time : R)
    (dist : list CategoryDistribution) (cost : CostEstimation) :
  Details cost = ∅ ->
  NoDup (CategoryID <$> dist) ->
  Details (fold_left (add_category_cost config time) dist cost)
  = list_to_map
      ((fun d => (CategoryID d, category_detail config time d)) <$> dist).
Proof.
  intros Hempty. induction dist as [|d dist IH] using rev_ind; intros Hnd.
  - simpl. by rewrite Hempty.
  - rewrite fmap_app in Hnd. apply NoDup_app in Hnd as (Hnd & Hdisj & _).
    rewrite fold_left_app, fmap_app. simpl.
    rewrite list_to_map_snoc.
    + by rewrite IH.
    + rewrite <- list_fmap_compose. intros Hin.
      apply (Hdisj (CategoryID d)); [done|]. simpl. left.
Qed.

(** In exact real arithmetic, with a positive project mean the category
    times of the minimum add up to max(0, mean - sd * multiplier) and those
    of the maximum to mean + sd * multiplier; the total costs are the sums
    of the category costs; with a non-negative multiplier the minimum does
    not exceed the maximum. *)
Theorem CalculateMinMaxCosts_totals (e : Estimation.t) (config : Config.t)
    (confidence : ConfidenceLevel)
    (cats : list (string * TaskCategory.t))
    (tasks : list (TaskID * Task.t)) :
  ranges_over cats (Config.TaskCategories config) ->
  ranges_over tasks (Estimation.Tasks e) ->
  0 < WeightedMean (CalculateProjectEstimation e) ->
  let pe := CalculateProjectEstimation e in
  let minTime :=
    Rmax 0 (WeightedMean pe - StandardDeviation pe * Multiplier confidence) in
  let maxTime :=
    WeightedMean pe + StandardDeviation pe * Multiplier confidence in
  let dist := CalculateCategoryDistribution_over cats tasks e config in
  let r := CalculateMinMaxCosts_over cats tasks e config confidence in
  TotalTime (Min r) = minTime
  /\ TotalTime (Max r) = maxTime
  /\ TotalCost (Min r) = Rsum ((fun d => CategoryCost.Cost (category_detail config minTime d)) <$> dist)
  /\ TotalCost (Max r) = Rsum ((fun d => CategoryCost.Cost (category_detail config maxTime d)) <$> dist)
  /\ (0 <= Multiplier confidence -> TotalTime (Min r) <= TotalTime (Max r)).
Proof.
  intros Hcats Htasks Hpos. cbv zeta.
  destruct (distribution_facts e config cats tasks Hcats Htasks)
    as (Hentries & _ & Hsum); [lra|].
  set (pe := CalculateProjectEstimation e) in *.
  set (dist := CalculateCategoryDistribution_over cats tasks e config) in *.
  assert (Rsum (Percentage <$> dist) = 100) as Hhundred.
  { assert (Percentage <$> dist
            = (fun d => Time d * (100 / WeightedMean pe)) <$> dist) as ->.
    { apply Forall_fmap_ext_1. eapply Forall_impl; [exact Hentries|].
      intros d (_ & Htime & Hpct). rewrite Hpct, Htime.
      unfold percentage_of. fold pe. rewrite decide_True by lra.
      field. lra. }
    rewrite (list_fmap_compose Time (fun x => x * (100 / WeightedMean pe))).
    rewrite Rsum_fmap_scale, list_fmap_id, Hsum. field. lra. }
  unfold CalculateMinMaxCosts_over. cbv zeta. fold pe dist.
  rewrite cost_loop_split. simpl.
  set (minTime := Rmax 0 (WeightedMean pe
                          - StandardDeviation pe * Multiplier confidence)).
  set (maxTime := WeightedMean pe
                  + StandardDeviation pe * Multiplier confidence).
  destruct (cost_loop_totals config minTime dist
              {| TotalTime := 0; TotalCost := 0; Details := ∅ |})
    as [HminT HminC].
  destruct (cost_loop_totals config maxTime dist
              {| TotalTime := 0; TotalCost := 0; Details := ∅ |})
    as [HmaxT HmaxC].
  rewrite HminT, HmaxT, HminC, HmaxC, Hhundred. simpl.
  split; [lra|]. split; [lra|]. split; [lra|]. split; [lra|].
  intros Hk.
  assert (0 <= StandardDeviation pe) as Hsd.
  { unfold pe, CalculateProjectEstimation.
    rewrite (CalculateProjectEstimation_over_sums _ (Estimation.Tasks e))
      by apply ranges_over_map_to_list.
    apply sqrt_pos. }
  assert (minTime <= maxTime); [|lra].
  unfold minTime, maxTime. apply Rmax_lub; nra.
Qed.

Lemma CalculateMinMaxCosts_totals_witness :
  let pe := CalculateProjectEstimation dev_ops_estimation in
  let minTime :=
    Rmax 0 (WeightedMean pe - StandardDeviation pe * Multiplier Confidence997) in
  let maxTime :=
    WeightedMean pe + StandardDeviation pe * Multiplier Confidence997 in
  let dist :=
    CalculateCategoryDistribution_over
      [("dev", Config.GetTaskCategory dev_config "dev")]
      [("t2", task_ops); ("t1", task_dev)] dev_ops_estimation dev_config in
  let r :=
    CalculateMinMaxCosts_over
      [("dev", Config.GetTaskCategory dev_config "dev")]
      [("t2", task_ops); ("t1", task_dev)] dev_ops_estimation dev_config
      Confidence997 in
  TotalTime (Min r) = minTime
  /\ TotalTime (Max r) = maxTime
  /\ TotalCost (Min r)
     = Rsum ((fun d => CategoryCost.Cost (category_detail dev_config minTime d))
             <$> dist)
  /\ TotalCost (Max r)
     = Rsum ((fun d => CategoryCost.Cost (category_detail dev_config maxTime d))
             <$> dist)
  /\ (0 <= Multiplier Confidence997 -> TotalTime (Min r) <= TotalTime (Max r)).
Proof.
  apply (CalculateMinMaxCosts_totals dev_ops_estimation dev_config
           Confidence997).
  - unfold ranges_over. simpl. by rewrite map_to_list_singleton.
  - unfold ranges_over. simpl.
    rewrite map_to_list_insert by reflexivity.
    rewrite map_to_list_insert by reflexivity.
    rewrite map_to_list_empty. reflexivity.
  - rewrite CalculateProjectEstimation_mean. simpl.
    rewrite !sum_over_tasks_insert by reflexivity.
    rewrite sum_over_tasks_empty.
    unfold Task.WeightedMean. simpl. lra.
Defined.

Lemma distribution_NoDup (e : Estimation.t) (config : Config.t)
    (cats : list (string * TaskCategory.t))
    (tasks : list (TaskID * Task.t)) :
  ranges_over cats (Config.TaskCategories config) ->
  ranges_over tasks (Estimation.Tasks e) ->
  NoDup (CategoryID <$> CalculateCategoryDistribution_over cats tasks e config).
Proof.
  intros Hcats Htasks.
  destruct (decide (WeightedMean (CalculateProjectEstimation e) = 0))
    as [Hzero|Hne].
  - unfold CalculateCategoryDistribution_over. cbv zeta.
    rewrite decide_True by done. apply NoDup_nil_2.
  - by destruct (distribution_facts e config cats tasks Hcats Htasks Hne)
      as (_ & Hnd & _).
Qed.

(** In exact real arithmetic, the details of the minimum and of the maximum
    have one entry for each category of the distribution, holding the cost
    details of that category, and the total cost is the sum of the costs of
    the entries. *)
Theorem CalculateMinMaxCosts_details (e : Estimation.t) (config : Config.t)
    (confidence : ConfidenceLevel)
    (cats : list (string * TaskCategory.t))
    (tasks : list (TaskID * Task.t)) :
  ranges_over cats (Config.TaskCategories config) ->
  ranges_over tasks (Estimation.Tasks e) ->
  let pe := CalculateProjectEstimation e in
  let minTime :=
    Rmax 0 (WeightedMean pe - StandardDeviation pe * Multiplier confidence) in
  let maxTime :=
    WeightedMean pe + StandardDeviation pe * Multiplier confidence in
  let dist := CalculateCategoryDistribution_over cats tasks e config in
  let r := CalculateMinMaxCosts_over cats tasks e config confidence in
  (forall d, d ∈ dist ->
     Details (Min r) !! CategoryID d = Some (category_detail config minTime d)
     /\ Details (Max r) !! CategoryID d
        = Some (category_detail config maxTime d))
  /\ dom (Details (Min r)) = list_to_set (CategoryID <$> dist)
  /\ dom (Details (Max r)) = list_to_set (CategoryID <$> dist)
  /\ Rsum (CategoryCost.Cost <$> (map_to_list (Details (Min r))).*2)
     = TotalCost (Min r)
  /\ Rsum (CategoryCost.Cost <$> (map_to_list (Details (Max r))).*2)
     = TotalCost (Max r).
Proof.
  intros Hcats Htasks. cbv zeta.
  pose proof (distribution_NoDup e config cats tasks Hcats Htasks) as Hnd.
  unfold CalculateMinMaxCosts_over. cbv zeta.
  set (pe := CalculateProjectEstimation e).
  set (dist := CalculateCategoryDistribution_over cats tasks e config) in *.
  set (minTime := Rmax 0 (WeightedMean pe
                          - StandardDeviation pe * Multiplier confidence)).
  set (maxTime := WeightedMean pe
                  + StandardDeviation pe * Multiplier confidence).
  rewrite cost_loop_split. simpl.
  assert (forall time,
    let entries :=
      (fun d => (CategoryID d, category_detail config time d)) <$> dist in
    let cost :=
      fold_left (add_category_cost config time) dist
        {| TotalTime := 0; TotalCost := 0; Details := ∅ |} in
    Details cost = list_to_map entries
    /\ NoDup entries.*1
    /\ (forall d, d ∈ dist ->
          Details cost !! CategoryID d = Some (category_detail config time d))
    /\ dom (Details cost) = list_to_set (CategoryID <$> dist)
    /\ Rsum (CategoryCost.Cost <$> (map_to_list (Details cost)).*2)
       = TotalCost cost) as Hside.
  { intros time. cbv zeta.
    assert (((fun d => (CategoryID d, category_detail config time d))
             <$> dist).*1 = CategoryID <$> dist) as Hkeys.
    { rewrite <- list_fmap_compose. done. }
    rewrite (cost_loop_details config time dist) by done.
    split; [done|]. split; [by rewrite Hkeys|]. split; [|split].
    - intros d Hd. apply elem_of_list_to_map; [by rewrite Hkeys|].
      apply list_elem_of_fmap. by exists d.
    - by rewrite dom_list_to_map_L, Hkeys.
    - destruct (cost_loop_totals config time dist
                  {| TotalTime := 0; TotalCost := 0; Details := ∅ |})
        as [_ ->].
      simpl. rewrite Rplus_0_l.
      rewrite (Rsum_Permutation _
                 (CategoryCost.Cost
                  <$> ((fun d => (CategoryID d, category_detail config time d))
                       <$> dist).*2)).
      + by rewrite <- !list_fmap_compose.
      + rewrite map_to_list_to_map; [done|]. by rewrite Hkeys. }
  destruct (Hside minTime) as (_ & _ & Hmin & HminD & HminS).
  destruct (Hside maxTime) as (_ & _ & Hmax & HmaxD & HmaxS).
  split; [|done]. intros d Hd. split; [by apply Hmin | by apply Hmax].
Qed.

Lemma CalculateMinMaxCosts_details_witness :
  let pe := CalculateProjectEstimation dev_ops_estimation in
  let minTime :=
    Rmax 0 (WeightedMean pe - StandardDeviation pe * Multiplier Confidence90) in
  let maxTime :=
    WeightedMean pe + StandardDeviation pe * Multiplier Confidence90 in
  let dist :=
    CalculateCategoryDistribution_over
      [("dev", Config.GetTaskCategory dev_config "dev")]
      [("t1", task_dev); ("t2", task_ops)] dev_ops_estimation dev_config in
  let r :=
    CalculateMinMaxCosts_over
      [("dev", Config.GetTaskCategory dev_config "dev")]
      [("t1", task_dev); ("t2", task_ops)] dev_ops_estimation dev_config
      Confidence90 in
  (forall d, d ∈ dist ->
     Details (Min r) !! CategoryID d
     = Some (category_detail dev_config minTime d)
     /\ Details (Max r) !! CategoryID d
        = Some (category_detail dev_config maxTime d))
  /\ dom (Details (Min r)) = list_to_set (CategoryID <$> dist)
  /\ dom (Details (Max r)) = list_to_set (CategoryID <$> dist)
  /\ Rsum (CategoryCost.Cost <$> (map_to_list (Details (Min r))).*2)
     = TotalCost (Min r)
  /\ Rsum (CategoryCost.Cost <$> (map_to_list (Details (Max r))).*2)
     = TotalCost (Max r).
Proof.
  apply (CalculateMinMaxCosts_details dev_ops_estimation dev_config
           Confidence90).
  - unfold ranges_over. simpl. by rewrite map_to_list_singleton.
  - unfold ranges_over. simpl.
    rewrite map_to_list_insert by reflexivity.
    rewrite map_to_list_insert by reflexivity.
    rewrite map_to_list_empty. apply Permutation_swap.
Defined.

(** With a project mean of exactly 0 the minimum and the maximum are both
    empty: no time, no cost, no details, whatever the deviation and the
    confidence level. *)
Theorem CalculateMinMaxCosts_zero_mean (e : Estimation.t) (config : Config.t)
    (confidence : ConfidenceLevel)
    (cats : list (string * TaskCategory.t))
    (tasks : list (TaskID * Task.t)) :
  WeightedMean (CalculateProjectEstimation e) = 0 ->
  CalculateMinMaxCosts_over cats tasks e config confidence
  = {| Min := {| TotalTime := 0; TotalCost := 0; Details := ∅ |};
       Max := {| TotalTime := 0; TotalCost := 0; Details := ∅ |} |}.
Proof.
  intros Hzero.
  unfold CalculateMinMaxCosts_over, CalculateCategoryDistribution_over.
  cbv zeta. by rewrite decide_True.
Qed.

Lemma CalculateMinMaxCosts_zero_mean_witness :
  CalculateMinMaxCosts_over
    [("dev", Config.GetTaskCategory dev_config "dev")]
    [("c", task_c); ("a", task_a); ("b", task_b)]
    abc_estimation dev_config Confidence68
  = {| Min := {| TotalTime := 0; TotalCost := 0; Details := ∅ |};
       Max := {| TotalTime := 0; TotalCost := 0; Details := ∅ |} |}.
Proof.
  apply (CalculateMinMaxCosts_zero_mean abc_estimation dev_config).
  rewrite CalculateProjectEstimation_mean. simpl.
  rewrite !sum_over_tasks_insert by reflexivity.
  rewrite sum_over_tasks_empty.
  unfold Task.WeightedMean. simpl. lra.
Defined.

(** *** Rounding for display *)

Lemma Ceil_IZR (n : Z) : Ceil (IZR n) = IZR n.
Proof. apply Ceil_unique. lra. Qed.

Lemma Ceil_le (x y : R) : x <= y -> Ceil x <= Ceil y.
Proof.
  intros Hxy. unfold Ceil.
  pose proof (Ceil_bounds x) as Hx. pose proof (Ceil_bounds y) as Hy.
  unfold Ceil in Hx, Hy.
  apply IZR_le. apply Z.lt_succ_r. apply lt_IZR. rewrite succ_IZR. lra.
Qed.

(** [FormatEstimation] without rounding is the identity; with rounding it
    never lowers the value and raises it by less than 1, keeps whole values,
    and gives the same result when applied twice; in both modes it is
    monotone. *)
Theorem FormatEstimation_rounding (value : R) (roundUp : bool) :
  FormatEstimation value false = value
  /\ value <= FormatEstimation value roundUp < value + 1
  /\ FormatEstimation (FormatEstimation value roundUp) roundUp
     = FormatEstimation value roundUp
  /\ (forall n : Z, FormatEstimation (IZR n) roundUp = IZR n)
  /\ (forall other : R, value <= other ->
        FormatEstimation value roundUp <= FormatEstimation other roundUp).
Proof.
  unfold FormatEstimation. split; [done|].
  destruct roundUp.
  - split; [apply Ceil_bounds|]. split; [|split].
    + unfold Ceil at 2 3. apply Ceil_IZR.
    + apply Ceil_IZR.
    + intros other. apply Ceil_le.
  - repeat split; try lra; done.
Qed.
(** *** Independence of the order of the ranges *)

Lemma distribution_categories (e : Estimation.t) (config : Config.t)
    (cats : list (string * TaskCategory.t))
    (tasks : list (TaskID * Task.t)) :
  ranges_over cats (Config.TaskCategories config) ->
  ranges_over tasks (Estimation.Tasks e) ->
  WeightedMean (CalculateProjectEstimation e) <> 0 ->
  forall c,
    c ∈ CategoryID <$> CalculateCategoryDistribution_over cats tasks e config
    <-> is_Some (Config.TaskCategories config !! c)
        \/ exists k t, Estimation.Tasks e !! k = Some t /\ Task.Category t = c.
Proof.
  intros Hcats Htasks Hne c.
  unfold CalculateCategoryDistribution_over. cbv zeta.
  rewrite decide_False by done.
  set (pe := CalculateProjectEstimation e) in *.
  set (acc1 := fold_left (configured_step e pe) cats ([], ∅)).
  assert (distribution_inv e pe acc1) as Hinv1.
  { apply configured_loop_inv.
    - apply distribution_inv_start.
    - unfold ranges_over in Hcats. rewrite Hcats.
      apply NoDup_fst_map_to_list.
    - intros c' _. unfold seen. simpl. by rewrite lookup_empty. }
  destruct (unconfigured_loop_inv e config pe tasks acc1 Hinv1)
    as ((_ & Hseen & _) & _ & Hcover).
  destruct (unconfigured_loop_ids e config pe tasks acc1)
    as (extra & Hids & Hextra).
  unfold acc1 in Hids at 2. rewrite configured_loop_ids in Hids.
  simpl in Hids. rewrite Hids.
  unfold ranges_over in Hcats, Htasks.
  assert (c ∈ cats.*1 <-> is_Some (Config.TaskCategories config !! c))
    as Hconfigured.
  { rewrite Hcats, list_elem_of_fmap. split.
    - intros ([k cat] & -> & Hin). exists cat.
      by apply elem_of_map_to_list.
    - intros [cat Hcat]. exists (c, cat). split; [done|].
      by apply elem_of_map_to_list. }
  rewrite elem_of_app, Hconfigured. split.
  - intros [Hin|Hin]; [by left|]. right.
    destruct (Hextra c Hin) as ([k t] & Hkt & Hcat).
    exists k, t. split; [|done]. apply elem_of_map_to_list.
    by rewrite <- Htasks.
  - intros [Hin|(k & t & Hkt & Hcat)]; [by left|].
    rewrite <- Hconfigured, <- elem_of_app, <- Hids.
    apply Hseen. subst c. apply (Hcover (k, t)).
    rewrite Htasks. by apply elem_of_map_to_list.
Qed.

Lemma entry_of_determined (e : Estimation.t) (config : Config.t)
    (d1 d2 : CategoryDistribution) :
  entry_of e config d1 -> entry_of e config d2 ->
  CategoryID d1 = CategoryID d2 -> d1 = d2.
Proof.
  intros (Hl1 & Ht1 & Hp1) (Hl2 & Ht2 & Hp2) Hid.
  destruct d1 as [id1 label1 time1 pct1], d2 as [id2 label2 time2 pct2].
  simpl in *. subst. done.
Qed.

Lemma distribution_any_order (e : Estimation.t) (config : Config.t)
    (cats cats' : list (string * TaskCategory.t))
    (tasks tasks' : list (TaskID * Task.t)) :
  ranges_over cats (Config.TaskCategories config) ->
  ranges_over tasks (Estimation.Tasks e) ->
  ranges_over cats' (Config.TaskCategories config) ->
  ranges_over tasks' (Estimation.Tasks e) ->
  CalculateCategoryDistribution_over cats tasks e config
  ≡ₚ CalculateCategoryDistribution_over cats' tasks' e config.
Proof.
  intros Hcats Htasks Hcats' Htasks'.
  destruct (decide (WeightedMean (CalculateProjectEstimation e) = 0))
    as [Hzero|Hne].
  { unfold CalculateCategoryDistribution_over. cbv zeta.
    by rewrite !decide_True. }
  destruct (distribution_facts e config cats tasks Hcats Htasks Hne)
    as (Hentries & Hnd & _).
  destruct (distribution_facts e config cats' tasks' Hcats' Htasks' Hne)
    as (Hentries' & Hnd' & _).
  pose proof (distribution_categories e config cats tasks Hcats Htasks Hne)
    as Hcat.
  pose proof (distribution_categories e config cats' tasks' Hcats' Htasks' Hne)
    as Hcat'.
  set (dist := CalculateCategoryDistribution_over cats tasks e config) in *.
  set (dist' := CalculateCategoryDistribution_over cats' tasks' e config) in *.
  assert (forall l l' : list CategoryDistribution,
            Forall (entry_of e config) l -> Forall (entry_of e config) l' ->
            (forall c, c ∈ CategoryID <$> l -> c ∈ CategoryID <$> l') ->
            forall d, d ∈ l -> d ∈ l') as Hincl.
  { intros l l' Hl Hl' Hsub d Hd.
    assert (CategoryID d ∈ CategoryID <$> l') as Hin.
    { apply Hsub. apply list_elem_of_fmap. by exists d. }
    apply list_elem_of_fmap in Hin as (d' & Hid & Hd').
    rewrite Forall_forall in Hl, Hl'.
    by rewrite (entry_of_determined e config d d' (Hl d Hd) (Hl' d' Hd') Hid). }
  apply NoDup_Permutation.
  - by apply NoDup_fmap_1 in Hnd.
  - by apply NoDup_fmap_1 in Hnd'.
  - intros d. split; apply Hincl; try done.
    + intros c. by rewrite Hcat, Hcat'.
    + intros c. by rewrite Hcat, Hcat'.
Qed.

(** In exact real arithmetic, two runs of [CalculateCategoryDistribution]
    that range over the maps in different orders return the same entries,
    possibly in another order. *)
Theorem CalculateCategoryDistribution_any_order (e : Estimation.t)
    (config : Config.t) (cats : list (string * TaskCategory.t))
    (tasks : list (TaskID * Task.t)) :
  ranges_over cats (Config.TaskCategories config) ->
  ranges_over tasks (Estimation.Tasks e) ->
  CalculateCategoryDistribution_over cats tasks e config
  ≡ₚ CalculateCategoryDistribution e config
  /\ length (CalculateCategoryDistribution_over cats tasks e config)
     = length (CalculateCategoryDistribution e config).
Proof.
  intros Hcats Htasks.
  assert (CalculateCategoryDistribution_over cats tasks e config
          ≡ₚ CalculateCategoryDistribution e config) as Hperm.
  { apply distribution_any_order; try done; apply ranges_over_map_to_list. }
  split; [done|]. by rewrite Hperm.
Qed.

Lemma CalculateCategoryDistribution_any_order_witness :
  CalculateCategoryDistribution_over
    [("dev", Config.GetTaskCategory dev_config "dev")]
    [("t1", task_dev); ("t2", task_ops)] dev_ops_estimation dev_config
  ≡ₚ CalculateCategoryDistribution dev_ops_estimation dev_config
  /\ length (CalculateCategoryDistribution_over
               [("dev", Config.GetTaskCategory dev_config "dev")]
               [("t1", task_dev); ("t2", task_ops)]
               dev_ops_estimation dev_config)
     = length (CalculateCategoryDistribution dev_ops_estimation dev_config).
Proof.
  apply (CalculateCategoryDistribution_any_order dev_ops_estimation
           dev_config).
  - unfold ranges_over. simpl. by rewrite map_to_list_singleton.
  - unfold ranges_over. simpl.
    rewrite map_to_list_insert by reflexivity.
    rewrite map_to_list_insert by reflexivity.
    rewrite map_to_list_empty. apply Permutation_swap.
Defined.

Lemma cost_loop_result (config : Config.t) (time : R)
    (dist : list CategoryDistribution) :
  NoDup (CategoryID <$> dist) ->
  fold_left (add_category_cost config time) dist
    {| TotalTime := 0; TotalCost := 0; Details := ∅ |}
  = {| TotalTime := Rsum (Percentage <$> dist) / 100 * time;
       TotalCost :=
         Rsum ((fun d => CategoryCost.Cost (category_detail config time d))
               <$> dist);
       Details :=
         list_to_map
           ((fun d => (CategoryID d, category_detail config time d))
            <$> dist) |}.
Proof.
  intros Hnd.
  destruct (cost_loop_totals config time dist
              {| TotalTime := 0; TotalCost := 0; Details := ∅ |})
    as [HT HC].
  pose proof (cost_loop_details config time dist
                {| TotalTime := 0; TotalCost := 0; Details := ∅ |}
                eq_refl Hnd) as HD.
  destruct (fold_left (add_category_cost config time) dist _)
    as [tt tc dd].
  simpl in *. subst. f_equal; lra.
Qed.

(** [CalculateMinMaxCosts] returns the same costs whatever the order in
    which the distribution it computes ranges over the maps. *)
Theorem CalculateMinMaxCosts_any_order (e : Estimation.t) (config : Config.t)
    (confidence : ConfidenceLevel)
    (cats : list (string * TaskCategory.t))
    (tasks : list (TaskID * Task.t)) :
  ranges_over cats (Config.TaskCategories config) ->
  ranges_over tasks (Estimation.Tasks e) ->
  CalculateMinMaxCosts_over cats tasks e config confidence
  = CalculateMinMaxCosts e config confidence.
Proof.
  intros Hcats Htasks.
  pose proof (distribution_any_order e config cats
                (map_to_list (Config.TaskCategories config)) tasks
                (map_to_list (Estimation.Tasks e)) Hcats Htasks
                (ranges_over_map_to_list _) (ranges_over_map_to_list _))
    as Hperm.
  pose proof (distribution_NoDup e config cats tasks Hcats Htasks) as Hnd.
  pose proof (distribution_NoDup e config _ _
                (ranges_over_map_to_list (Config.TaskCategories config))
                (ranges_over_map_to_list (Estimation.Tasks e))) as Hnd'.
  unfold CalculateMinMaxCosts, CalculateMinMaxCosts_over. cbv zeta.
  rewrite !cost_loop_split, !cost_loop_result by done.
  assert (forall time,
    {| TotalTime :=
         Rsum (Percentage
               <$> CalculateCategoryDistribution_over cats tasks e config)
         / 100 * time;
       TotalCost :=
         Rsum ((fun d => CategoryCost.Cost (category_detail config time d))
               <$> CalculateCategoryDistribution_over cats tasks e config);
       Details :=
         list_to_map
           ((fun d => (CategoryID d, category_detail config time d))
            <$> CalculateCategoryDistribution_over cats tasks e config) |}
    = {| TotalTime :=
           Rsum (Percentage
                 <$> CalculateCategoryDistribution_over
                       (map_to_list (Config.TaskCategories config))
                       (map_to_list (Estimation.Tasks e)) e config)
           / 100 * time;
         TotalCost :=
           Rsum ((fun d => CategoryCost.Cost (category_detail config time d))
                 <$> CalculateCategoryDistribution_over
                       (map_to_list (Config.TaskCategories config))
                       (map_to_list (Estimation.Tasks e)) e config);
         Details :=
           list_to_map
             ((fun d => (CategoryID d, category_detail config time d))
              <$> CalculateCategoryDistribution_over
                    (map_to_list (Config.TaskCategories config))
                    (map_to_list (Estimation.Tasks e)) e config) |})
    as Hsame.
  { intros time. f_equal.
    - f_equal. f_equal. apply Rsum_Permutation. by rewrite Hperm.
    - apply Rsum_Permutation. by rewrite Hperm.
    - apply list_to_map_proper.
      + by rewrite <- list_fmap_compose.
      + by rewrite Hperm. }
  by rewrite !Hsame.
Qed.

Lemma CalculateMinMaxCosts_any_order_witness :
  CalculateMinMaxCosts_over
    [("dev", Config.GetTaskCategory dev_config "dev")]
    [("t1", task_dev); ("t2", task_ops)] dev_ops_estimation dev_config
    Confidence997
  = CalculateMinMaxCosts dev_ops_estimation dev_config Confidence997.
Proof.
  apply (CalculateMinMaxCosts_any_order dev_ops_estimation dev_config).
  - unfold ranges_over. simpl. by rewrite map_to_list_singleton.
  - unfold ranges_over. simpl.
    rewrite map_to_list_insert by reflexivity.
    rewrite map_to_list_insert by reflexivity.
    rewrite map_to_list_empty. apply Permutation_swap.
Defined.

(** *** The output of the formatters *)

Lemma roundFloat_le (x y : R) (roundUp : bool) :
  x <= y -> format.roundFloat x roundUp <= format.roundFloat y roundUp.
Proof.
  intros Hxy. unfold format.roundFloat. destruct roundUp; [|done].
  by apply Ceil_le.
Qed.

Lemma roundFloat_Rmax (x : R) (roundUp : bool) :
  format.roundFloat (Rmax 0 x) roundUp = Rmax 0 (format.roundFloat x roundUp).
Proof.
  unfold format.roundFloat. destruct roundUp; [|done].
  pose proof (Ceil_IZR 0) as Hzero.
  destruct (Rle_dec x 0) as [Hx|Hx].
  - rewrite (Rmax_left 0 x) by lra.
    pose proof (Ceil_le x 0 Hx) as Hle.
    rewrite Hzero in *. rewrite Rmax_left by lra. done.
  - rewrite (Rmax_right 0 x) by lra.
    pose proof (Ceil_bounds x) as Hb. rewrite Rmax_right by lra. done.
Qed.

Lemma StandardDeviation_nonneg (e : Estimation.t) :
  0 <= StandardDeviation (CalculateProjectEstimation e).
Proof. rewrite CalculateProjectEstimation_deviation. apply sqrt_pos. Qed.

(** The tasks of the output are those of [GetOrderedTasks], in that order,
    with their estimates copied; the task count is the size of the mapping,
    which is the number of tasks listed when the ordering lists the keys of
    the mapping, each once. *)
Theorem BuildOutput_tasks (layout : instant -> string)
    (cats : list (string * TaskCategory.t)) (tasks : list (TaskID * Task.t))
    (details : list (string * CategoryCost.t))
    (config : Config.t) (e : Estimation.t) :
  let out := format.BuildOutput_over layout cats tasks details config e in
  format.TaskOutput.ID <$> format.Output.Tasks out
  = Task.ID <$> Estimation.GetOrderedTasks e
  /\ format.TaskOutput.Estimations <$> format.Output.Tasks out
     = (fun t =>
          {| format.EstimationOutput.Optimistic :=
               Optimistic (Task.Estimations t);
             format.EstimationOutput.Likely := Likely (Task.Estimations t);
             format.EstimationOutput.Pessimistic :=
               Pessimistic (Task.Estimations t) |})
       <$> Estimation.GetOrderedTasks e
  /\ format.StatisticsOutput.TaskCount (format.Output.Statistics out)
     = Z.of_nat (size (Estimation.Tasks e))
  /\ (consistent e ->
      Z.of_nat (length (format.Output.Tasks out))
      = format.StatisticsOutput.TaskCount (format.Output.Statistics out)).
Proof.
  cbv zeta. simpl. rewrite <- !list_fmap_compose.
  split; [done|]. split; [done|]. split; [done|].
  intros He. rewrite length_fmap.
  rewrite (GetOrderedTasks_values e He), length_fmap.
  f_equal. apply length_map_to_list.
Qed.

Lemma BuildOutput_tasks_witness :
  let out :=
    format.BuildOutput_over (fun _ => "2026-01-01T00:00:00Z")
      [("dev", Config.GetTaskCategory dev_config "dev")]
      [("t1", task_dev); ("t2", task_ops)] [] dev_config abc_estimation in
  format.TaskOutput.ID <$> format.Output.Tasks out = ["a"; "b"; "c"]
  /\ Z.of_nat (length (format.Output.Tasks out))
     = format.StatisticsOutput.TaskCount (format.Output.Statistics out).
Proof.
  destruct (BuildOutput_tasks (fun _ => "2026-01-01T00:00:00Z")
              [("dev", Config.GetTaskCategory dev_config "dev")]
              [("t1", task_dev); ("t2", task_ops)] [] dev_config
              abc_estimation) as (Hids & _ & _ & Hcount).
  split; [exact Hids|]. apply Hcount.
  apply (consistent_run _ empty_estimation).
  - apply consistent_NewEstimation.
  - simpl. repeat split; reflexivity.
Defined.

(** In the statistics of the output every confidence interval contains the
    mean, and the intervals are nested: the 68% one inside the 90% one
    inside the 99.7% one. The lower bounds are not clamped at 0. *)
Theorem BuildOutput_confidence (layout : instant -> string)
    (cats : list (string * TaskCategory.t)) (tasks : list (TaskID * Task.t))
    (details : list (string * CategoryCost.t))
    (config : Config.t) (e : Estimation.t) :
  let st :=
    format.Output.Statistics
      (format.BuildOutput_over layout cats tasks details config e) in
  let c68 := format.StatisticsOutput.Confidence68 st in
  let c90 := format.StatisticsOutput.Confidence90 st in
  let c997 := format.StatisticsOutput.Confidence997 st in
  (format.ConfidenceOutput.Min c997 <= format.ConfidenceOutput.Min c90
   /\ format.ConfidenceOutput.Min c90 <= format.ConfidenceOutput.Min c68
   /\ format.ConfidenceOutput.Min c68
      <= format.StatisticsOutput.WeightedMean st)
  /\ (format.StatisticsOutput.WeightedMean st
      <= format.ConfidenceOutput.Max c68
      /\ format.ConfidenceOutput.Max c68 <= format.ConfidenceOutput.Max c90
      /\ format.ConfidenceOutput.Max c90 <= format.ConfidenceOutput.Max c997)
  /\ format.ConfidenceOutput.Mean c68 = format.StatisticsOutput.WeightedMean st
  /\ format.ConfidenceOutput.Mean c90 = format.StatisticsOutput.WeightedMean st
  /\ format.ConfidenceOutput.Mean c997
     = format.StatisticsOutput.WeightedMean st.
Proof.
  cbv zeta. simpl.
  pose proof (StandardDeviation_nonneg e) as Hsd.
  repeat split; try apply roundFloat_le; lra.
Qed.

Lemma by_category_loop_fmap (roundUp : bool)
    (m : gmap string CategoryCost.t)
    (details : list (string * CategoryCost.t)) :
  ranges_over details m ->
  format.by_category_loop roundUp details
  = (fun catCost =>
       {| format.CostDetail.Time :=
            format.roundFloat (CategoryCost.Time catCost) roundUp;
          format.CostDetail.Cost :=
            format.roundFloat (CategoryCost.Cost catCost) false |}) <$> m.
Proof.
  intros Hperm. unfold ranges_over in Hperm.
  assert (NoDup details.*1) as Hnd
    by (rewrite Hperm; apply NoDup_fst_map_to_list).
  assert (m = list_to_map details) as ->.
  { rewrite <- (list_to_map_to_list m). apply list_to_map_proper.
    - apply NoDup_fst_map_to_list.
    - by rewrite Hperm. }
  clear Hperm. unfold format.by_category_loop.
  induction details as [|[catID catCost] details IH] using rev_ind; [done|].
  rewrite fmap_app in Hnd. apply NoDup_app in Hnd as (Hnd & Hdisj & _).
  rewrite fold_left_app. cbn [fold_left]. rewrite IH by done.
  rewrite list_to_map_snoc.
  - by rewrite fmap_insert.
  - intros Hin. apply (Hdisj catID); [done|]. simpl. left.
Qed.

(** In exact real arithmetic, with a positive project mean, the maximum
    time of the costs of the output is the upper bound of the 99.7% interval
    of its statistics and the minimum time is the lower bound of that
    interval clamped at 0, in both rounding modes; the costs by category
    have one entry for each category of the distribution of the output,
    whose percentages sum to 100. *)
Theorem BuildOutput_costs (layout : instant -> string)
    (cats : list (string * TaskCategory.t)) (tasks : list (TaskID * Task.t))
    (details : list (string * CategoryCost.t))
    (config : Config.t) (e : Estimation.t) :
  ranges_over cats (Config.TaskCategories config) ->
  ranges_over tasks (Estimation.Tasks e) ->
  ranges_over details
    (Details (Max (CalculateMinMaxCosts e config Confidence997))) ->
  0 < WeightedMean (CalculateProjectEstimation e) ->
  let out := format.BuildOutput_over layout cats tasks details config e in
  let c997 :=
    format.StatisticsOutput.Confidence997 (format.Output.Statistics out) in
  format.CostDetail.Time (format.CostOutput.Max (format.Output.Costs out))
  = format.ConfidenceOutput.Max c997
  /\ format.CostDetail.Time (format.CostOutput.Min (format.Output.Costs out))
     = Rmax 0 (format.ConfidenceOutput.Min c997)
  /\ dom (format.CostOutput.ByCategory (format.Output.Costs out))
     = list_to_set
         (format.CategoryDistributionOutput.CategoryID
          <$> format.Output.CategoryDistribution out)
  /\ Rsum (format.CategoryDistributionOutput.Percentage
           <$> format.Output.CategoryDistribution out) = 100.
Proof.
  intros Hcats Htasks Hdetails Hpos. cbv zeta. simpl.
  destruct (distribution_facts e config cats tasks Hcats Htasks)
    as (Hentries & _ & Hsum); [lra|].
  pose proof (distribution_any_order e config cats
                (map_to_list (Config.TaskCategories config)) tasks
                (map_to_list (Estimation.Tasks e)) Hcats Htasks
                (ranges_over_map_to_list _) (ranges_over_map_to_list _))
    as Hperm.
  pose proof (distribution_NoDup e config _ _
                (ranges_over_map_to_list (Config.TaskCategories config))
                (ranges_over_map_to_list (Estimation.Tasks e))) as Hnd.
  assert (Rsum (Percentage
                <$> CalculateCategoryDistribution_over cats tasks e config)
          = 100) as Hhundred.
  { assert (Percentage <$> CalculateCategoryDistribution_over cats tasks e config
            = (fun d => Time d
                        * (100 / WeightedMean (CalculateProjectEstimation e)))
              <$> CalculateCategoryDistribution_over cats tasks e config)
      as ->.
    { apply Forall_fmap_ext_1. eapply Forall_impl; [exact Hentries|].
      intros d (_ & Htime & Hpct). rewrite Hpct, Htime.
      unfold percentage_of. rewrite decide_True by lra. field. lra. }
    rewrite (list_fmap_compose Time
               (fun x => x * (100 / WeightedMean (CalculateProjectEstimation e)))).
    rewrite Rsum_fmap_scale, list_fmap_id, Hsum. field. lra. }
  rewrite (by_category_loop_fmap _ _ _ Hdetails), dom_fmap_L.
  unfold CalculateMinMaxCosts, CalculateMinMaxCosts_over. cbv zeta.
  rewrite cost_loop_split, !cost_loop_result by done. simpl.
  assert (Rsum (Percentage <$> CalculateCategoryDistribution_over
                  (map_to_list (Config.TaskCategories config))
                  (map_to_list (Estimation.Tasks e)) e config) = 100)
    as ->.
  { rewrite <- Hhundred. apply Rsum_Permutation. by rewrite Hperm. }
  split; [f_equal; lra|]. split; [|split].
  - rewrite <- roundFloat_Rmax. f_equal. lra.
  - rewrite dom_list_to_map_L, <- !list_fmap_compose.
    apply set_eq. intros c. rewrite !elem_of_list_to_set.
    by rewrite Hperm.
  - rewrite <- list_fmap_compose. exact Hhundred.
Qed.

Lemma BuildOutput_costs_witness :
  let out :=
    format.BuildOutput_over (fun _ => "2026-01-01T00:00:00Z")
      [("dev", Config.GetTaskCategory dev_config "dev")]
      [("t1", task_dev); ("t2", task_ops)]
      (map_to_list
         (Details (Max (CalculateMinMaxCosts dev_ops_estimation dev_config
                          Confidence997))))
      dev_config dev_ops_estimation in
  let c997 :=
    format.StatisticsOutput.Confidence997 (format.Output.Statistics out) in
  format.CostDetail.Time (format.CostOutput.Max (format.Output.Costs out))
  = format.ConfidenceOutput.Max c997
  /\ format.CostDetail.Time (format.CostOutput.Min (format.Output.Costs out))
     = Rmax 0 (format.ConfidenceOutput.Min c997)
  /\ dom (format.CostOutput.ByCategory (format.Output.Costs out))
     = list_to_set
         (format.CategoryDistributionOutput.CategoryID
          <$> format.Output.CategoryDistribution out)
  /\ Rsum (format.CategoryDistributionOutput.Percentage
           <$> format.Output.CategoryDistribution out) = 100.
Proof.
  apply (BuildOutput_costs (fun _ => "2026-01-01T00:00:00Z")
           [("dev", Config.GetTaskCategory dev_config "dev")]
           [("t1", task_dev); ("t2", task_ops)] _ dev_config
           dev_ops_estimation).
  - unfold ranges_over. simpl. by rewrite map_to_list_singleton.
  - unfold ranges_over. simpl.
    rewrite map_to_list_insert by reflexivity.
    rewrite map_to_list_insert by reflexivity.
    rewrite map_to_list_empty. apply Permutation_swap.
  - apply ranges_over_map_to_list.
  - rewrite CalculateProjectEstimation_mean. simpl.
    rewrite !sum_over_tasks_insert by reflexivity.
    rewrite sum_over_tasks_empty.
    unfold Task.WeightedMean. simpl. lra.
Defined.
End CostFacts.
